(** * Jump-file scanner: filename grammar, content grammar, tree scan,
      summary and the client-side filter/sort view.

    A shallow embedding of the file-search route (parseFileName,
    parseJumpFileContent, scanDirectory, GET), of the filteredFiles
    projection, the filter handlers and the file search of the page
    component, and of the ticket route, with the properties the design
    document states about them and further properties of the code.

    Part I is the program, function by function, under the names of the
    source.  Part II is the vocabulary in which the properties are stated:
    the artifact grammar and the shape of a track token written without
    any pattern, a declarative reading of patterns, places in a directory
    tree.  Part III holds the proofs: the lemmas on the program, the
    properties of the design document, and the further properties.

    Conventions.
    - A JavaScript string is a [string]; one [ascii] stands for one UTF-16
      code unit (the development covers code units below 256).
    - A regular expression is a value of [regex]; [rmatch] is the
      backtracking matcher, listing the successes in priority order, and
      [str_match] is String.prototype.match for a non-global pattern.
    - A call that may throw returns an [option], or has a result for the
      exception; the file system is the tree [dir_state], in which a call
      of fs that throws is marked as such.
    - An array that the program sorts in place while another reference to
      it may exist lives in a store ([Store]); elsewhere an array is a
      list. *)

From Stdlib Require Import ZArith Ascii String List Bool Lia Permutation Sorted.
From stdpp Require Import base gmap strings list.
Import ListNotations.

Local Open Scope string_scope.
Local Open Scope list_scope.

(** String concatenation is written [+:+]; [simpl] may unfold it on a
    string that starts with a known character. *)
#[local] Arguments String.append !s1 s2 : simpl nomatch.

(* ===================================================================== *)
(** * Part I.  The program                                              *)
(* ===================================================================== *)

(* ===================================================================== *)
(** ** Strings                                                          *)
(* ===================================================================== *)

Module Str.

(** Every character of [s] satisfies [p]. *)
Fixpoint all (p : ascii -> bool) (s : string) : bool :=
  match s with
  | EmptyString => true
  | String c t => p c && all p t
  end.

(** [str.slice(a, b)] for [0 <= a <= b]. *)
Definition slice (a b : nat) (s : string) : string := substring a (b - a) s.

(** [c.repeat(n)] for a one-character string. *)
Fixpoint repeat (c : ascii) (n : nat) : string :=
  match n with
  | O => EmptyString
  | S k => String c (repeat c k)
  end.

(** [s.startsWith(p)] *)
Definition startsWith (p s : string) : bool := String.prefix p s.

(** [s.endsWith(p)] *)
Definition endsWith (p s : string) : bool :=
  (String.length p <=? String.length s)%nat
  && String.eqb (substring (String.length s - String.length p) (String.length p) s) p.

End Str.

(* ===================================================================== *)
(** ** Character classes                                                *)
(* ===================================================================== *)

(** [\d] *)
Definition is_digit (c : ascii) : bool :=
  let n := nat_of_ascii c in (48 <=? n)%nat && (n <=? 57)%nat.

(** [[^_]] *)
Definition not_underscore (c : ascii) : bool := negb (Ascii.eqb c "_").

(** White space and line terminators of ECMAScript among the code units
    below 256: TAB, LF, VT, FF, CR, SP and NBSP.  This is the set that
    [trim] strips and that [\s] matches. *)
Definition is_white (c : ascii) : bool :=
  let n := nat_of_ascii c in
  (n =? 9)%nat || (n =? 10)%nat || (n =? 11)%nat || (n =? 12)%nat
  || (n =? 13)%nat || (n =? 32)%nat || (n =? 160)%nat.

(* ===================================================================== *)
(** ** Regular expressions and String.prototype.match                   *)
(* ===================================================================== *)

(** The fragment of the pattern language that the two patterns of the
    route use: literal characters, the classes [\d] and [[^_]], sequence,
    the greedy [+], capturing groups, and the anchors [^] and [$]. *)
Inductive regex : Type :=
| Eps
| Chr (c : ascii)
| Cls (p : ascii -> bool)
| Seq (r1 r2 : regex)
| Plus (r : regex)
| Grp (r : regex)
| Bol
| Eol.

Declare Scope regex_scope.
Delimit Scope regex_scope with re.
Bind Scope regex_scope with regex.
Notation "r1 ;; r2" := (Seq r1 r2) : regex_scope.

(** A literal word. *)
Fixpoint lit (s : string) : regex :=
  match s with
  | EmptyString => Eps
  | String c t => Seq (Chr c) (lit t)
  end.

(** [r{n}] *)
Fixpoint times (n : nat) (r : regex) : regex :=
  match n with
  | O => Eps
  | S k => Seq r (times k r)
  end.

(** A point of a match in progress: the index reached in the subject, what
    is left of the subject from there, and the groups closed so far.  The
    patterns of this program have no group inside a group or under a
    quantifier, so the k-th group to close is group number k. *)
Record mstate : Type := MState {
  m_pos : nat;
  m_rest : string;
  m_caps : list string
}.

(** One or more rounds of [step], the longest run first; a further round is
    attempted only from a state that consumed input. *)
Fixpoint plus_from (fuel : nat) (step : mstate -> list mstate) (st : mstate)
  : list mstate :=
  match fuel with
  | O => []
  | S n =>
      flat_map
        (fun st1 =>
           (if (String.length (m_rest st1) <? String.length (m_rest st))%nat
            then plus_from n step st1 else [])
           ++ [st1])
        (step st)
  end.

(** The backtracking matcher: every way [r] matches at [st], in the order
    in which a backtracking engine tries them. *)
Fixpoint rmatch (r : regex) (st : mstate) : list mstate :=
  match r with
  | Eps => [st]
  | Chr c =>
      match m_rest st with
      | String x t =>
          if Ascii.eqb x c then [MState (S (m_pos st)) t (m_caps st)] else []
      | EmptyString => []
      end
  | Cls p =>
      match m_rest st with
      | String x t => if p x then [MState (S (m_pos st)) t (m_caps st)] else []
      | EmptyString => []
      end
  | Seq r1 r2 => flat_map (rmatch r2) (rmatch r1 st)
  | Plus r1 => plus_from (S (String.length (m_rest st))) (rmatch r1) st
  | Grp r1 =>
      map (fun st' =>
             MState (m_pos st') (m_rest st')
                    (m_caps st' ++ [substring 0 (m_pos st' - m_pos st) (m_rest st)]))
          (rmatch r1 st)
  | Bol => if (m_pos st =? 0)%nat then [st] else []
  | Eol => match m_rest st with EmptyString => [st] | String _ _ => [] end
  end.

(** The first index from [i] on at which the pattern matches, with the
    first match there: the matched text followed by the groups. *)
Fixpoint search (re : regex) (i : nat) (s : string) : option (list string) :=
  match rmatch re (MState i s []) with
  | st' :: _ => Some (substring 0 (m_pos st' - i) s :: m_caps st')
  | [] =>
      match s with
      | EmptyString => None
      | String _ t => search re (S i) t
      end
  end.

(** [s.match(re)] for a pattern without the global flag: [None] is null. *)
Definition str_match (re : regex) (s : string) : option (list string) :=
  search re 0 s.

(* ===================================================================== *)
(** ** Filename grammar (parseFileName)                                 *)
(* ===================================================================== *)

(** The fields that parseFileName fills in. *)
Module Meta.
Record t : Type := Build {
  project : string;
  vehicle : string;
  date : string;
  time : string;
  swVersion : string;
  createDate : string;
  datacoNumber : string;
  sessionName : string
}.
End Meta.

(** [/^([^_]+)_([^_]+)_(\d{6})_(\d{6})_(\d+)_(\d{6})_DATACO-(\d+)\.jump$/] *)
Definition fileNamePattern : regex :=
  (Bol ;; Grp (Plus (Cls not_underscore)) ;; Chr "_"
       ;; Grp (Plus (Cls not_underscore)) ;; Chr "_"
       ;; Grp (times 6 (Cls is_digit)) ;; Chr "_"
       ;; Grp (times 6 (Cls is_digit)) ;; Chr "_"
       ;; Grp (Plus (Cls is_digit)) ;; Chr "_"
       ;; Grp (times 6 (Cls is_digit)) ;; lit "_DATACO-"
       ;; Grp (Plus (Cls is_digit)) ;; lit ".jump" ;; Eol)%re.

Definition formatDate (dateStr : string) : string :=
  if (String.length dateStr =? 6)%nat then
    let day := Str.slice 0 2 dateStr in
    let month := Str.slice 2 4 dateStr in
    let year := "20" +:+ Str.slice 4 6 dateStr in
    day +:+ "/" +:+ month +:+ "/" +:+ year
  else dateStr.

Definition formatTime (timeStr : string) : string :=
  if (String.length timeStr =? 6)%nat then
    let hours := Str.slice 0 2 timeStr in
    let minutes := Str.slice 2 4 timeStr in
    let seconds := Str.slice 4 6 timeStr in
    hours +:+ ":" +:+ minutes +:+ ":" +:+ seconds
  else timeStr.

(** [None] is the null result.  A match of [fileNamePattern] always carries
    its seven groups ([str_match_fileName_inv] in Part III), so the last
    branch is the null match only. *)
Definition parseFileName (fileName : string) : option Meta.t :=
  match str_match fileNamePattern fileName with
  | Some [_; project; vehicle; date; time; swVersion; createDate; datacoNumber] =>
      Some {| Meta.project := project;
              Meta.vehicle := vehicle;
              Meta.date := formatDate date;
              Meta.time := formatTime time;
              Meta.swVersion := swVersion;
              Meta.createDate := formatDate createDate;
              Meta.datacoNumber := datacoNumber;
              Meta.sessionName :=
                project +:+ "_" +:+ vehicle +:+ "_" +:+ date +:+ "_" +:+ time
                        +:+ "_" +:+ swVersion |}
  | _ => None
  end.

(* ===================================================================== *)
(** ** String operations of the content parser                          *)
(* ===================================================================== *)

(** [s.split(sep)] for a one-character separator. *)
Fixpoint split_go (sep : ascii) (cur : string) (s : string) : list string :=
  match s with
  | EmptyString => [cur]
  | String c t =>
      if Ascii.eqb c sep then cur :: split_go sep "" t
      else split_go sep (cur +:+ String c "") t
  end.

Definition split (sep : ascii) (s : string) : list string := split_go sep "" s.

(** [s.trim()] *)
Fixpoint trimStart (s : string) : string :=
  match s with
  | EmptyString => ""
  | String c t => if is_white c then trimStart t else s
  end.

Fixpoint trimEnd (s : string) : string :=
  match s with
  | EmptyString => ""
  | String c t =>
      match trimEnd t with
      | EmptyString => if is_white c then "" else String c ""
      | t' => String c t'
      end
  end.

Definition trim (s : string) : string := trimEnd (trimStart s).

(** [s.split(/\s+/)]: the pieces between the maximal runs of white space.
    [sep] tells that the previous character was white. *)
Fixpoint split_white_go (sep : bool) (cur : string) (s : string) : list string :=
  match s with
  | EmptyString => [cur]
  | String c t =>
      if is_white c then
        if sep then split_white_go true "" t
        else cur :: split_white_go true "" t
      else split_white_go false (cur +:+ String c "") t
  end.

Definition split_white (s : string) : list string := split_white_go false "" s.

(** [s.repeat(n)] *)
Fixpoint str_repeat (s : string) (n : nat) : string :=
  match n with
  | O => ""
  | S k => s +:+ str_repeat s k
  end.

(** [s.padStart(targetLength, padString)] *)
Definition padStart (targetLength : nat) (padString : string) (s : string) : string :=
  let len := String.length s in
  if (targetLength <=? len)%nat || String.eqb padString "" then s
  else
    let fillLen := (targetLength - len)%nat in
    substring 0 fillLen (str_repeat padString fillLen) +:+ s.

(* ===================================================================== *)
(** ** Patterns built from text (new RegExp)                            *)
(* ===================================================================== *)

(** The syntax characters of the pattern language: [^$\.*+?()[]{}|]. *)
Definition is_syntax (c : ascii) : bool :=
  existsb (Ascii.eqb c) (list_ascii_of_string "^$\.*+?()[]{}|").

(** [s.replace(/[.*+?^${}()|[\]\\]/g, '\\$&')]: a backslash in front of
    every syntax character. *)
Fixpoint escapeRegExp (s : string) : string :=
  match s with
  | EmptyString => ""
  | String c t =>
      if existsb (Ascii.eqb c) (list_ascii_of_string ".*+?^${}()|[]\")
      then String "\" (String c (escapeRegExp t))
      else String c (escapeRegExp t)
  end.

(** What follows an atom [a]: a [+] makes it [a+]; the other quantifiers
    are outside the fragment.  [self] parses the rest of the sequence. *)
Definition parse_after (self : string -> option (regex * string))
           (quantifiable : bool) (a : regex) (s1 : string) : option (regex * string) :=
  let continue (a' : regex) (s' : string) :=
    match self s' with
    | Some (r, s3) => Some (Seq a' r, s3)
    | None => None
    end in
  match s1 with
  | String q s2 =>
      if is_syntax q then
        if Ascii.eqb q "+" then
          if negb quantifiable then None
          else match s2 with
               | String "?" _ => None
               | _ => continue (Plus a) s2
               end
        else if Ascii.eqb q "*" || Ascii.eqb q "?" || Ascii.eqb q "{" then None
        else continue a s1
      else continue a s1
  | EmptyString => continue a s1
  end.

(** One step of the parser of a sequence of terms, up to a closing
    parenthesis or the end of the text. *)
Definition parse_step (self : string -> option (regex * string)) (s : string)
  : option (regex * string) :=
  match s with
  | EmptyString => Some (Eps, "")
  | String c t =>
      if is_syntax c then
        if Ascii.eqb c ")" then Some (Eps, s)
        else if Ascii.eqb c "^" then parse_after self false Bol t
        else if Ascii.eqb c "$" then parse_after self false Eol t
        else if Ascii.eqb c "\" then
          match t with
          | String x t' =>
              if is_syntax x then parse_after self true (Chr x) t'
              else if Ascii.eqb x "d" then parse_after self true (Cls is_digit) t'
              else None
          | EmptyString => None
          end
        else if Ascii.eqb c "[" then
          match t with
          | String "^" (String x (String "]" t')) =>
              if is_syntax x then None
              else parse_after self true (Cls (fun y => negb (Ascii.eqb y x))) t'
          | _ => None
          end
        else if Ascii.eqb c "(" then
          match t with
          | String "?" _ => None
          | _ =>
              match self t with
              | Some (r, String ")" t') => parse_after self true (Grp r) t'
              | _ => None
              end
          end
        else None
      else parse_after self true (Chr c) t
  end.

Fixpoint parse_seq (fuel : nat) (s : string) : option (regex * string) :=
  match fuel with
  | O => None
  | S n => parse_step (parse_seq n) s
  end.

(** [new RegExp(source)].  [None] stands for a SyntaxError, or for a
    pattern outside the fragment of [regex]; [RegExp_trackSource] shows
    that the parser never meets either. *)
Definition RegExp (source : string) : option regex :=
  match parse_seq (S (String.length source)) source with
  | Some (r, EmptyString) => Some r
  | _ => None
  end.

(* ===================================================================== *)
(** ** Content grammar (parseJumpFileContent)                           *)
(* ===================================================================== *)

Module Event.
Record t : Type := Build {
  sessionName : string;
  viewName : string;
  clipNumber : string;
  camera : string;
  frameNumber : string;
  eventName : string;
  fullLine : string
}.
End Event.

(** The text handed to [new RegExp] for a session. *)
Definition trackSource (sessionName : string) : string :=
  escapeRegExp sessionName +:+ "_s\d+_s_([^_]+)_s\d+_([^_]+)$".

(** The outcome of the loop body on one line. *)
Inductive line_result : Type :=
| Skipped                 (* continue, or no match: nothing is pushed *)
| Pushed (ev : Event.t)   (* events.push(...) *)
| Thrown.                 (* an exception leaves the loop *)

Definition parseLine (sessionName line : string) : line_result :=
  let trimmedLine := trim line in
  if String.eqb trimmedLine "" || Str.startsWith "#" trimmedLine then Skipped
  else
    let parts := split_white trimmedLine in
    if (List.length parts <? 4)%nat then Skipped
    else
      match parts with
      | trackfile :: camera :: frameNumber :: eventParts =>
          let eventName := String.concat " " eventParts in
          match RegExp (trackSource sessionName) with
          | None => Thrown
          | Some trackPattern =>
              match str_match trackPattern trackfile with
              | Some (_ :: viewName :: clipNumber :: _) =>
                  Pushed {| Event.sessionName := sessionName;
                            Event.viewName := viewName;
                            Event.clipNumber := padStart 4 "0" clipNumber;
                            Event.camera := camera;
                            Event.frameNumber := frameNumber;
                            Event.eventName := eventName;
                            Event.fullLine := trimmedLine |}
              | Some _ => Thrown
              | None => Skipped
              end
          end
      | _ => Skipped
      end.

(** The loop over the lines; [None] when an exception leaves it. *)
Fixpoint parseLines (sessionName : string) (lines : list string)
  : option (list Event.t) :=
  match lines with
  | [] => Some []
  | line :: more =>
      match parseLine sessionName line with
      | Thrown => None
      | Skipped => parseLines sessionName more
      | Pushed ev =>
          match parseLines sessionName more with
          | Some events => Some (ev :: events)
          | None => None
          end
      end
  end.

Definition parseJumpFileContent (content sessionName : string)
  : option (list Event.t) :=
  parseLines sessionName (split "010" content).

(* ===================================================================== *)
(** ** Tree scanner (scanDirectory)                                     *)
(* ===================================================================== *)

(** JumpFileData *)
Module File.
Record t : Type := Build {
  fileName : string;
  filePath : string;
  project : string;
  vehicle : string;
  date : string;
  time : string;
  swVersion : string;
  createDate : string;
  datacoNumber : string;
  sessionName : string;
  size : Z;
  lastModified : Z;
  events : list Event.t;
  eventCount : Z;
  uniqueEvents : list string;
  uniqueCameras : list string;
  uniqueClips : list string
}.
End File.

(** What fs.statSync returns, as far as the scanner reads it. *)
Record Stats : Type := { st_size : Z; st_mtime : Z }.

(** The file system as the scanner observes it.  A directory entry is a
    directory, a regular file or something else; a call that can throw
    carries [None] where it throws. *)
Inductive dirent : Type :=
| DirEntry (name : string) (sub : dir_state)
| FileEntry (name : string) (stat : option Stats) (content : option string)
| OtherEntry (name : string)
with dir_state : Type :=
| Missing                           (* fs.existsSync is false *)
| Unreadable                        (* fs.readdirSync throws *)
| Listing (entries : list dirent).

Definition entry_name (e : dirent) : string :=
  match e with
  | DirEntry name _ | FileEntry name _ _ | OtherEntry name => name
  end.

(** [[...new Set(xs)]]: the distinct elements in order of first occurrence. *)
Fixpoint uniq_go (seen : list string) (xs : list string) : list string :=
  match xs with
  | [] => []
  | x :: t =>
      if existsb (String.eqb x) seen then uniq_go seen t
      else x :: uniq_go (x :: seen) t
  end.

Definition uniq (xs : list string) : list string := uniq_go [] xs.

(** [xs.includes(x)] on strings. *)
Definition includes (xs : list string) (x : string) : bool :=
  existsb (String.eqb x) xs.

(** The record pushed for a file that was read. *)
Definition fileRecord (name fullPath : string) (metadata : Meta.t) (stats : Stats)
           (events : list Event.t) : File.t :=
  {| File.fileName := name;
     File.filePath := fullPath;
     File.project := Meta.project metadata;
     File.vehicle := Meta.vehicle metadata;
     File.date := Meta.date metadata;
     File.time := Meta.time metadata;
     File.swVersion := Meta.swVersion metadata;
     File.createDate := Meta.createDate metadata;
     File.datacoNumber := Meta.datacoNumber metadata;
     File.sessionName := Meta.sessionName metadata;
     File.size := st_size stats;
     File.lastModified := st_mtime stats;
     File.events := events;
     File.eventCount := Z.of_nat (List.length events);
     File.uniqueEvents := uniq (map Event.eventName events);
     File.uniqueCameras := uniq (map Event.camera events);
     File.uniqueClips := uniq (map Event.clipNumber events) |}.

(** The branch of the loop for a regular file whose name ends in [.jump]:
    what it pushes on [files]. *)
Definition scanFile (name fullPath : string) (stat : option Stats)
           (content : option string) (subtasks : list string) : list File.t :=
  match parseFileName name with
  | None => []
  | Some metadata =>
      if String.eqb (Meta.datacoNumber metadata) "" then []
      else if negb (includes subtasks (Meta.datacoNumber metadata)) then []
      else
        (* try { statSync; readFileSync; parseJumpFileContent; push } catch { log } *)
        match stat with
        | None => []
        | Some stats =>
            match content with
            | None => []
            | Some text =>
                match parseJumpFileContent text (Meta.sessionName metadata) with
                | None => []
                | Some events => [fileRecord name fullPath metadata stats events]
                end
            end
        end
  end.

Section Scanner.

(** path.join of Node.js. *)
Variable path_join : string -> string -> string.

Fixpoint scanDirectory (dirPath : string) (d : dir_state) (subtasks : list string)
         {struct d} : list File.t :=
  match d with
  | Missing => []
  | Unreadable => []
  | Listing entries =>
      flat_map
        (fun entry =>
           let fullPath := path_join dirPath (entry_name entry) in
           match entry with
           | DirEntry _ sub => scanDirectory fullPath sub subtasks
           | FileEntry name stat content =>
               if Str.endsWith ".jump" name
               then scanFile name fullPath stat content subtasks
               else []
           | OtherEntry _ => []
           end)
        entries
  end.

End Scanner.

(** The contribution of one directory entry to the scan of its directory. *)
Definition scanEntry (path_join : string -> string -> string)
           (dirPath : string) (subtasks : list string) (entry : dirent) : list File.t :=
  let fullPath := path_join dirPath (entry_name entry) in
  match entry with
  | DirEntry _ sub => scanDirectory path_join fullPath sub subtasks
  | FileEntry name stat content =>
      if Str.endsWith ".jump" name
      then scanFile name fullPath stat content subtasks
      else []
  | OtherEntry _ => []
  end.

(* ===================================================================== *)
(** ** Sorting (Array.prototype.sort)                                   *)
(* ===================================================================== *)

(** Array.prototype.sort is a stable sort.  For a consistent comparator its
    result is the one stable ordering, computed here by insertion: [x]
    goes in front of the first [y] with [cmp x y <= 0]. *)
Fixpoint insert_by {A : Type} (cmp : A -> A -> Z) (x : A) (l : list A) : list A :=
  match l with
  | [] => [x]
  | y :: t => if (cmp x y <=? 0)%Z then x :: y :: t else y :: insert_by cmp x t
  end.

Fixpoint sort_by {A : Type} (cmp : A -> A -> Z) (l : list A) : list A :=
  match l with
  | [] => []
  | x :: t => insert_by cmp x (sort_by cmp t)
  end.

(** The comparison of [sort()] without a comparator, on strings: the order
    of the code units. *)
Definition defaultCompare (a b : string) : Z :=
  match String.compare a b with
  | Lt => (-1)%Z
  | Eq => 0%Z
  | Gt => 1%Z
  end.

(* ===================================================================== *)
(** ** The route handler (GET)                                          *)
(* ===================================================================== *)

(** [s.replace(pattern, replacement)] for a string pattern and a
    replacement without [$]: the first occurrence only. *)
Fixpoint replace (pattern replacement s : string) : string :=
  if String.prefix pattern s
  then replacement +:+ substring (String.length pattern)
                                 (String.length s - String.length pattern) s
  else match s with
       | EmptyString => s
       | String c t => String c (replace pattern replacement t)
       end.

(** [subtasksParam.split(',').map(s => s.replace('DATACO-', ''))] *)
Definition normalizeSubtasks (subtasksParam : string) : list string :=
  map (replace "DATACO-" "") (split "," subtasksParam).

Record DateRange : Type := { earliest : string; latest : string }.

Record Summary : Type := {
  totalEvents : Z;
  uniqueEventTypes : list string;
  uniqueCameraTypes : list string;
  uniqueProjects : list string;
  uniqueVehicles : list string;
  dateRange : DateRange
}.

(** FileSearchResponse *)
Module Response.
Record t : Type := Build {
  mainTicket : string;
  subtasks : list string;
  totalFiles : Z;
  projectFolders : list string;
  files : list File.t;
  summary : Summary
}.
End Response.

(** [a || ''] for an array element that may be undefined. *)
Definition or_empty (o : option string) : string :=
  match o with
  | Some s => s
  | None => ""
  end.

(** The summary statistics of the handler. *)
Definition summarize (files : list File.t) : Summary :=
  let allEvents := flat_map File.events files in
  let uniqueEventTypes := sort_by defaultCompare (uniq (map Event.eventName allEvents)) in
  let uniqueCameraTypes := sort_by defaultCompare (uniq (map Event.camera allEvents)) in
  let uniqueProjects := sort_by defaultCompare (uniq (map File.project files)) in
  let uniqueVehicles := sort_by defaultCompare (uniq (map File.vehicle files)) in
  let dates := List.filter (fun d => negb (String.eqb d "")) (map File.date files) in
  let sortedDates := sort_by defaultCompare dates in
  {| totalEvents := Z.of_nat (List.length allEvents);
     uniqueEventTypes := uniqueEventTypes;
     uniqueCameraTypes := uniqueCameraTypes;
     uniqueProjects := uniqueProjects;
     uniqueVehicles := uniqueVehicles;
     dateRange :=
       {| earliest := or_empty (nth_error sortedDates 0);
          latest := or_empty (nth_error sortedDates (List.length sortedDates - 1)) |} |}.

Definition VOICE_TAGGING_PATH : string := "/mobileye/DC/Voice_Tagging".

(** The names of the directories right under the root, sorted; empty when
    the root is missing or cannot be listed. *)
Definition projectFoldersOf (root : dir_state) : list string :=
  match root with
  | Listing entries =>
      sort_by defaultCompare
        (flat_map (fun e => match e with DirEntry name _ => [name] | _ => [] end)
                  entries)
  | Missing | Unreadable => []
  end.

Inductive reply : Type :=
| Json (body : Response.t)          (* status 200 *)
| BadRequest (error : string).      (* status 400 *)

Section Handler.

Variable path_join : string -> string -> string.

(** String.prototype.localeCompare of the host. *)
Variable localeCompare : string -> string -> Z.

(** [root] is the state of [VOICE_TAGGING_PATH] on disk; a search parameter
    that is absent is [None].  Nothing in the body throws, so the reply
    with status 500 never arises. *)
Definition GET (mainTicket subtasksParam : option string) (root : dir_state) : reply :=
  match mainTicket, subtasksParam with
  | Some mainTicket, Some subtasksParam =>
      if String.eqb mainTicket "" || String.eqb subtasksParam ""
      then BadRequest "mainTicket and subtasks parameters are required"
      else
        let subtasks := normalizeSubtasks subtasksParam in
        let files := scanDirectory path_join VOICE_TAGGING_PATH root subtasks in
        Json {| Response.mainTicket := mainTicket;
                Response.subtasks := map (fun s => "DATACO-" +:+ s) subtasks;
                Response.totalFiles := Z.of_nat (List.length files);
                Response.projectFolders := projectFoldersOf root;
                Response.files :=
                  sort_by (fun a b => localeCompare (File.fileName a) (File.fileName b))
                          files;
                Response.summary := summarize files |}
  | _, _ => BadRequest "mainTicket and subtasks parameters are required"
  end.

End Handler.

(* ===================================================================== *)
(** ** Filter and sort view (filteredFiles)                             *)
(* ===================================================================== *)

Inductive sort_order : Type := asc | desc.

(** FilterState *)
Module Filters.
Record t : Type := Build {
  selectedSubtasks : list string;
  selectedEventTypes : list string;
  selectedCameraTypes : list string;
  selectedProjects : list string;
  selectedVehicles : list string;
  dateRange : string;
  sortBy : string;
  sortOrder : sort_order
}.
End Filters.

(** The callback of [fileData.files.filter]. *)
Definition keeps (filters : Filters.t) (file : File.t) : bool :=
  if (0 <? List.length (Filters.selectedSubtasks filters))%nat
     && negb (includes (Filters.selectedSubtasks filters) ("DATACO-" +:+ File.datacoNumber file))
  then false
  else if (0 <? List.length (Filters.selectedProjects filters))%nat
          && negb (includes (Filters.selectedProjects filters) (File.project file))
  then false
  else if (0 <? List.length (Filters.selectedVehicles filters))%nat
          && negb (includes (Filters.selectedVehicles filters) (File.vehicle file))
  then false
  else if (0 <? List.length (Filters.selectedEventTypes filters))%nat
          && negb (existsb (includes (Filters.selectedEventTypes filters)) (File.uniqueEvents file))
  then false
  else if (0 <? List.length (Filters.selectedCameraTypes filters))%nat
          && negb (existsb (includes (Filters.selectedCameraTypes filters)) (File.uniqueCameras file))
  then false
  else true.

Section Comparator.

Variable localeCompare : string -> string -> Z.

(** The callback of [filtered.sort]. *)
Definition compareFiles (filters : Filters.t) (a b : File.t) : Z :=
  let comparison :=
    if String.eqb (Filters.sortBy filters) "fileName"
    then localeCompare (File.fileName a) (File.fileName b)
    else if String.eqb (Filters.sortBy filters) "date"
    then localeCompare (File.date a) (File.date b)
    else if String.eqb (Filters.sortBy filters) "project"
    then localeCompare (File.project a) (File.project b)
    else if String.eqb (Filters.sortBy filters) "vehicle"
    then localeCompare (File.vehicle a) (File.vehicle b)
    else if String.eqb (Filters.sortBy filters) "eventCount"
    then (File.eventCount a - File.eventCount b)%Z
    else localeCompare (File.fileName a) (File.fileName b) in
  match Filters.sortOrder filters with
  | asc => comparison
  | desc => (- comparison)%Z
  end.

End Comparator.

(** *** Arrays in a store

    An array is a reference into a store, so that filling a new array and
    sorting an array in place are told apart. *)
Module Store.

Abbreviation ref := nat.
Abbreviation store := (gmap nat (list File.t)).

(** A computation on the store. *)
Definition M (A : Type) : Type := store -> A * store.

Definition ret {A : Type} (a : A) : M A := fun h => (a, h).

Definition bind {A B : Type} (m : M A) (f : A -> M B) : M B :=
  fun h => let (a, h') := m h in f a h'.

(** A new array with the given elements. *)
Definition alloc (xs : list File.t) : M ref :=
  fun h => let r := fresh (dom h) in (r, <[r := xs]> h).

(** The elements of an array. *)
Definition elements (r : ref) : M (list File.t) :=
  fun h => (default [] (h !! r), h).

(** Overwrite the elements of an array. *)
Definition assign (r : ref) (xs : list File.t) : M unit :=
  fun h => (tt, <[r := xs]> h).

#[global] Instance M_ret : MRet M := @ret.
#[global] Instance M_bind : MBind M := fun A B f m => bind m f.

(** [arr.filter(p)]: a new array. *)
Definition array_filter (r : ref) (p : File.t -> bool) : M ref :=
  xs ← elements r;
  alloc (List.filter p xs).

(** [arr.sort(cmp)]: sorts [arr] itself and returns it. *)
Definition array_sort (r : ref) (cmp : File.t -> File.t -> Z) : M ref :=
  xs ← elements r;
  _ ← assign r (sort_by cmp xs);
  mret r.

End Store.

Section FilterSort.

Variable localeCompare : string -> string -> Z.

(** The body of the useMemo callback.  [fileData] is [None] for null and
    otherwise the array [fileData.files]. *)
Definition filteredFiles (fileData : option Store.ref) (filters : Filters.t)
  : Store.M Store.ref :=
  match fileData with
  | None => Store.alloc []
  | Some files =>
      filtered ← Store.array_filter files (keeps filters);
      _ ← Store.array_sort filtered (compareFiles localeCompare filters);
      mret filtered
  end.

End FilterSort.

(* ===================================================================== *)
(** ** The page: filter state handlers and the file search              *)
(* ===================================================================== *)

(** Subtask of the page, and the entries of JiraResponse. *)
Module Subtask.
Record t : Type := Build {
  key : string;
  summary : string
}.
End Subtask.

(** JiraTicket *)
Module Ticket.
Record t : Type := Build {
  key : string;
  summary : string;
  subtasks : list Subtask.t
}.
End Ticket.

(** ViewState *)
Module View.
Inductive t : Type :=
| search | results | loading | error | files_loading | files_results.
End View.

(** The state of the Home component. *)
Module Page.
Record t : Type := Build {
  searchValue : string;
  viewState : View.t;
  ticketData : option Ticket.t;
  fileData : option Response.t;
  errorMessage : string;
  filters : Filters.t
}.
End Page.

(** The value of filterOptions for a response. *)
Module Options.
Record t : Type := Build {
  subtasks : list string;
  eventTypes : list string;
  cameraTypes : list string;
  projects : list string;
  vehicles : list string
}.
End Options.

(** The useMemo callback of filterOptions: [None] is null. *)
Definition filterOptions (fileData : option Response.t) : option Options.t :=
  match fileData with
  | None => None
  | Some fileData =>
      Some {| Options.subtasks := Response.subtasks fileData;
              Options.eventTypes := uniqueEventTypes (Response.summary fileData);
              Options.cameraTypes := uniqueCameraTypes (Response.summary fileData);
              Options.projects := uniqueProjects (Response.summary fileData);
              Options.vehicles := uniqueVehicles (Response.summary fileData) |}
  end.

(** The filters set by handleSearchFiles when the response arrives. *)
Definition filtersAfterSearch (data : Response.t) : Filters.t :=
  {| Filters.selectedSubtasks := Response.subtasks data;
     Filters.selectedEventTypes := [];
     Filters.selectedCameraTypes := [];
     Filters.selectedProjects := uniqueProjects (Response.summary data);
     Filters.selectedVehicles := uniqueVehicles (Response.summary data);
     Filters.dateRange := "all";
     Filters.sortBy := "fileName";
     Filters.sortOrder := asc |}.

(** onClick of the Reset Filters button. *)
Definition resetFilters (filterOptions : Options.t) : Filters.t :=
  {| Filters.selectedSubtasks := Options.subtasks filterOptions;
     Filters.selectedEventTypes := [];
     Filters.selectedCameraTypes := [];
     Filters.selectedProjects := Options.projects filterOptions;
     Filters.selectedVehicles := Options.vehicles filterOptions;
     Filters.dateRange := "all";
     Filters.sortBy := "fileName";
     Filters.sortOrder := asc |}.

(** The two branches that the four onCheckedChange handlers share:
    [[...selected, x]] when checked, [selected.filter(s => s !== x)]
    otherwise. *)
Definition toggled (checked : bool) (x : string) (selected : list string) : list string :=
  if checked then selected ++ [x]
  else List.filter (fun s => negb (String.eqb s x)) selected.

(** onCheckedChange of the checkbox of a subtask. *)
Definition onSubtaskChecked (subtask : string) (checked : bool) (prev : Filters.t)
  : Filters.t :=
  {| Filters.selectedSubtasks := toggled checked subtask (Filters.selectedSubtasks prev);
     Filters.selectedEventTypes := Filters.selectedEventTypes prev;
     Filters.selectedCameraTypes := Filters.selectedCameraTypes prev;
     Filters.selectedProjects := Filters.selectedProjects prev;
     Filters.selectedVehicles := Filters.selectedVehicles prev;
     Filters.dateRange := Filters.dateRange prev;
     Filters.sortBy := Filters.sortBy prev;
     Filters.sortOrder := Filters.sortOrder prev |}.

(** onCheckedChange of the checkbox of a project. *)
Definition onProjectChecked (project : string) (checked : bool) (prev : Filters.t)
  : Filters.t :=
  {| Filters.selectedSubtasks := Filters.selectedSubtasks prev;
     Filters.selectedEventTypes := Filters.selectedEventTypes prev;
     Filters.selectedCameraTypes := Filters.selectedCameraTypes prev;
     Filters.selectedProjects := toggled checked project (Filters.selectedProjects prev);
     Filters.selectedVehicles := Filters.selectedVehicles prev;
     Filters.dateRange := Filters.dateRange prev;
     Filters.sortBy := Filters.sortBy prev;
     Filters.sortOrder := Filters.sortOrder prev |}.

(** onCheckedChange of the checkbox of an event type. *)
Definition onEventChecked (event : string) (checked : bool) (prev : Filters.t)
  : Filters.t :=
  {| Filters.selectedSubtasks := Filters.selectedSubtasks prev;
     Filters.selectedEventTypes := toggled checked event (Filters.selectedEventTypes prev);
     Filters.selectedCameraTypes := Filters.selectedCameraTypes prev;
     Filters.selectedProjects := Filters.selectedProjects prev;
     Filters.selectedVehicles := Filters.selectedVehicles prev;
     Filters.dateRange := Filters.dateRange prev;
     Filters.sortBy := Filters.sortBy prev;
     Filters.sortOrder := Filters.sortOrder prev |}.

(** onCheckedChange of the checkbox of a camera type. *)
Definition onCameraChecked (camera : string) (checked : bool) (prev : Filters.t)
  : Filters.t :=
  {| Filters.selectedSubtasks := Filters.selectedSubtasks prev;
     Filters.selectedEventTypes := Filters.selectedEventTypes prev;
     Filters.selectedCameraTypes := toggled checked camera (Filters.selectedCameraTypes prev);
     Filters.selectedProjects := Filters.selectedProjects prev;
     Filters.selectedVehicles := Filters.selectedVehicles prev;
     Filters.dateRange := Filters.dateRange prev;
     Filters.sortBy := Filters.sortBy prev;
     Filters.sortOrder := Filters.sortOrder prev |}.

(** What the fetch of /api/files comes to: the fetch or the decoding of
    the body fails with an Error carrying a message, or the route
    replies. *)
Inductive files_outcome : Type :=
| FetchFailed (message : string)
| Replied (r : reply).

(** The query string carries the keys of the subtasks joined by commas. *)
Definition subtasksParamOf (ticketData : Ticket.t) : string :=
  String.concat "," (map Subtask.key (Ticket.subtasks ticketData)).

Section PageHandlers.

(** The route behind [/api/files?mainTicket=...&subtasks=...], given the
    two parameters as the route decodes them. *)
Variable filesApi : string -> string -> files_outcome.

(** The state once handleSearchFiles has run to its end. *)
Definition handleSearchFiles (st : Page.t) : Page.t :=
  match Page.ticketData st with
  | None => st
  | Some ticketData =>
      let subtasks := subtasksParamOf ticketData in
      match filesApi (Ticket.key ticketData) subtasks with
      | Replied (Json data) =>
          {| Page.searchValue := Page.searchValue st;
             Page.viewState := View.files_results;
             Page.ticketData := Page.ticketData st;
             Page.fileData := Some data;
             Page.errorMessage := "";
             Page.filters := filtersAfterSearch data |}
      | Replied (BadRequest error) =>
          {| Page.searchValue := Page.searchValue st;
             Page.viewState := View.error;
             Page.ticketData := Page.ticketData st;
             Page.fileData := Page.fileData st;
             Page.errorMessage := if String.eqb error "" then "HTTP 400" else error;
             Page.filters := Page.filters st |}
      | FetchFailed message =>
          {| Page.searchValue := Page.searchValue st;
             Page.viewState := View.error;
             Page.ticketData := Page.ticketData st;
             Page.fileData := Page.fileData st;
             Page.errorMessage := message;
             Page.filters := Page.filters st |}
      end
  end.

End PageHandlers.

(* ===================================================================== *)
(** ** The ticket route (GET and POST of the Jira proxy)                *)
(* ===================================================================== *)

Module Jira.

(** JiraSubtask *)
Record JiraSubtask : Type := {
  st_id : string;
  st_key : string;
  st_summary : option string
}.

(** The fields of an issue that the route reads.  An absent member is
    [None]. *)
Record IssueFields : Type := {
  f_summary : option string;
  f_subtasks : option (list JiraSubtask)
}.

(** The body of a reply of the tracker: an issue. *)
Record Issue : Type := {
  i_key : string;
  i_fields : option IssueFields
}.

(** What [await fetch(url, init)] comes to: the promise rejects, or a
    response arrives with a status and a body; the body is [None] when
    [response.json()] rejects. *)
Inductive outcome : Type :=
| NetworkError
| HttpResponse (status : nat) (body : option Issue).

(** [response.ok] *)
Definition ok (status : nat) : bool := (200 <=? status)%nat && (status <=? 299)%nat.

(** JiraResponse; a summary that is undefined is [None]. *)
Record JiraResponse : Type := {
  r_key : string;
  r_summary : option string;
  r_subtasks : list Subtask.t
}.

Inductive reply : Type :=
| Json (body : JiraResponse)                    (* status 200 *)
| Error (status : nat) (error : string).

(** process.env: a variable that is not set is [None]. *)
Record Env : Type := {
  JIRA_BASE_URL : option string;
  JIRA_USER : option string;
  JIRA_API_TOKEN : option string;
  JIRA_PROJECT_KEY : option string
}.

(** [!v] for a string that may be undefined or null. *)
Definition falsy (v : option string) : bool :=
  match v with
  | None => true
  | Some s => String.eqb s ""
  end.

(** [`${v}`] *)
Definition interpolate (v : option string) : string :=
  match v with
  | None => "undefined"
  | Some s => s
  end.

(** [xs.map((x, i) => f (n + i) x)] *)
Fixpoint map_from {A B : Type} (f : nat -> A -> B) (n : nat) (xs : list A) : list B :=
  match xs with
  | [] => []
  | x :: t => f n x :: map_from f (S n) t
  end.

Section Route.

Variable env : Env.

(** [Buffer.from(s).toString('base64')] *)
Variable base64 : string -> string.

(** [fetch n url authorization]: the outcome of the n-th call of fetch
    in the request, with the URL and the Authorization header it is given. *)
Variable fetch : nat -> string -> string -> outcome.

(** The callback of [subtasks.map]: it never rejects. *)
Definition subtaskDetail (baseUrl auth : string) (n : nat) (subtask : JiraSubtask)
  : Subtask.t :=
  match fetch n (baseUrl +:+ "/rest/api/2/issue/" +:+ st_key subtask)
              ("Basic " +:+ auth) with
  | HttpResponse status body =>
      if ok status then
        match body with
        | Some subtaskData =>
            let summary :=
              match i_fields subtaskData with
              | Some fields => f_summary fields
              | None => None
              end in
            {| Subtask.key := st_key subtask;
               Subtask.summary :=
                 if falsy summary then "No summary available"
                 else interpolate summary |}
        | None =>
            {| Subtask.key := st_key subtask;
               Subtask.summary := "Error fetching summary" |}
        end
      else
        {| Subtask.key := st_key subtask;
           Subtask.summary := "Unable to fetch summary" |}
  | NetworkError =>
      {| Subtask.key := st_key subtask;
         Subtask.summary := "Error fetching summary" |}
  end.

(** The handler.  [ticket] is [searchParams.get('ticket')]; the call of
    fetch for the ticket is call 0 and the calls for the subtasks follow in
    the order of the subtasks. *)
Definition GET (ticket : option string) : reply :=
  match ticket with
  | None => Error 400 "Ticket number is required"
  | Some ticketNumber =>
      if String.eqb ticketNumber "" then Error 400 "Ticket number is required"
      else if falsy (JIRA_BASE_URL env) || falsy (JIRA_USER env)
              || falsy (JIRA_API_TOKEN env)
      then Error 500 "JIRA credentials not configured"
      else
        let fullTicketKey :=
          if Str.startsWith "DATACO-" ticketNumber then ticketNumber
          else interpolate (JIRA_PROJECT_KEY env) +:+ "-" +:+ ticketNumber in
        let auth :=
          base64 (interpolate (JIRA_USER env) +:+ ":"
                              +:+ interpolate (JIRA_API_TOKEN env)) in
        let baseUrl := interpolate (JIRA_BASE_URL env) in
        match fetch 0 (baseUrl +:+ "/rest/api/2/issue/" +:+ fullTicketKey
                               +:+ "?expand=subtasks")
                    ("Basic " +:+ auth) with
        | NetworkError => Error 500 "Failed to fetch JIRA data"
        | HttpResponse status body =>
            if negb (ok status) then
              if (status =? 404)%nat then Error 404 "Ticket not found"
              else Error 500 "Failed to fetch JIRA data"
            else
              match body with
              | None => Error 500 "Failed to fetch JIRA data"
              | Some jiraData =>
                  match i_fields jiraData with
                  | None => Error 500 "Failed to fetch JIRA data"
                  | Some fields =>
                      let subtasks :=
                        match f_subtasks fields with
                        | Some subtasks => subtasks
                        | None => []
                        end in
                      let subtaskDetails :=
                        map_from (subtaskDetail baseUrl auth) 1 subtasks in
                      Json {| r_key := i_key jiraData;
                              r_summary := f_summary fields;
                              r_subtasks := subtaskDetails |}
                  end
              end
        end
  end.

(** The handler of POST. *)
Definition POST : reply := Error 501 "POST not implemented yet".

End Route.

End Jira.

(* ===================================================================== *)
(** * Part II.  Vocabulary of the properties                            *)
(* ===================================================================== *)

(* ===================================================================== *)
(** ** What a pattern matches                                           *)
(* ===================================================================== *)

(** A declarative reading of a pattern, as a relation between the index
    where the match starts, the word consumed, the groups closed, and the
    input left after the match. *)
Definition lang : Type := nat -> string -> list string -> string -> Prop.

(** One or more words of [L] in a row, each but the last non-empty. *)
Inductive plus_lang (L : lang) : lang :=
| plus_one i w cs tl : L i w cs tl -> plus_lang L i w cs tl
| plus_more i w1 c1 w2 c2 tl :
    L i w1 c1 (w2 +:+ tl) -> w1 <> "" ->
    plus_lang L (i + String.length w1)%nat w2 c2 tl ->
    plus_lang L i (w1 +:+ w2) (c1 ++ c2) tl.

(** The reading of each construct. *)
Fixpoint denote (r : regex) : lang :=
  fun i w cs tl =>
    match r with
    | Eps => w = "" /\ cs = []
    | Chr c => w = String c "" /\ cs = []
    | Cls p => exists c, w = String c "" /\ p c = true /\ cs = []
    | Seq r1 r2 =>
        exists w1 c1 w2 c2,
          denote r1 i w1 c1 (w2 +:+ tl)
          /\ denote r2 (i + String.length w1)%nat w2 c2 tl
          /\ w = w1 +:+ w2 /\ cs = c1 ++ c2
    | Plus r1 => plus_lang (denote r1) i w cs tl
    | Grp r1 => exists c0, denote r1 i w c0 tl /\ cs = c0 ++ [w]
    | Bol => i = 0%nat /\ w = "" /\ cs = []
    | Eol => tl = "" /\ w = "" /\ cs = []
    end.

(** [sem r L]: the successes of [r] from a state are exactly the states
    reached by consuming a word [w] and closing groups [cs] with [L]. *)
Definition sem (r : regex) (L : lang) : Prop :=
  forall st st' : mstate,
    In st' (rmatch r st) <->
    exists (w : string) (cs : list string),
      L (m_pos st) w cs (m_rest st')
      /\ m_rest st = w +:+ m_rest st'
      /\ m_pos st' = (m_pos st + String.length w)%nat
      /\ m_caps st' = m_caps st ++ cs.

(* ===================================================================== *)
(** ** The artifact grammar, stated on its own                          *)
(* ===================================================================== *)

(** The seven tokens of a name
    [<project>_<vehicle>_<DDMMYY>_<HHMMSS>_<digits>_<DDMMYY>_DATACO-<digits>.jump],
    as they stand in the name. *)
Record raw_tokens : Type := RawTokens {
  r_project : string;
  r_vehicle : string;
  r_date : string;
  r_time : string;
  r_swVersion : string;
  r_createDate : string;
  r_ticket : string
}.

(** A non-empty run of characters of a class. *)
Definition run (p : ascii -> bool) (w : string) : Prop :=
  w <> "" /\ Str.all p w = true.

(** Six digits. *)
Definition six_digits (w : string) : Prop :=
  String.length w = 6%nat /\ Str.all is_digit w = true.

(** Project and vehicle are non-empty and free of underscores, the two
    dates and the time are six digits, the software version and the ticket
    are non-empty runs of digits. *)
Definition well_formed (k : raw_tokens) : Prop :=
  run not_underscore (r_project k) /\ run not_underscore (r_vehicle k)
  /\ six_digits (r_date k) /\ six_digits (r_time k)
  /\ run is_digit (r_swVersion k) /\ six_digits (r_createDate k)
  /\ run is_digit (r_ticket k).

(** The name spelled by the tokens. *)
Definition artifact_name (k : raw_tokens) : string :=
  r_project k +:+ "_" +:+ r_vehicle k +:+ "_" +:+ r_date k +:+ "_" +:+ r_time k
    +:+ "_" +:+ r_swVersion k +:+ "_" +:+ r_createDate k
    +:+ "_DATACO-" +:+ r_ticket k +:+ ".jump".

(** The tokens in the order of the groups of [fileNamePattern]. *)
Definition groups_of (k : raw_tokens) : list string :=
  [r_project k; r_vehicle k; r_date k; r_time k; r_swVersion k;
   r_createDate k; r_ticket k].

(** The filename is a name of the grammar. *)
Definition matches_grammar (fileName : string) : Prop :=
  exists k : raw_tokens, well_formed k /\ fileName = artifact_name k.

(** The metadata of a name with tokens [k]. *)
Definition meta_of (k : raw_tokens) : Meta.t :=
  {| Meta.project := r_project k;
     Meta.vehicle := r_vehicle k;
     Meta.date := formatDate (r_date k);
     Meta.time := formatTime (r_time k);
     Meta.swVersion := r_swVersion k;
     Meta.createDate := formatDate (r_createDate k);
     Meta.datacoNumber := r_ticket k;
     Meta.sessionName :=
       r_project k +:+ "_" +:+ r_vehicle k +:+ "_" +:+ r_date k +:+ "_"
                 +:+ r_time k +:+ "_" +:+ r_swVersion k |}.

(* ===================================================================== *)
(** ** The pattern of a session and the shape of a track token          *)
(* ===================================================================== *)

(** The characters of [s], each taken literally, and then [k]. *)
Fixpoint lit_then (s : string) (k : regex) : regex :=
  match s with
  | EmptyString => k
  | String c t => Seq (Chr c) (lit_then t k)
  end.

(** [_s\d+_s_([^_]+)_s\d+_([^_]+)$], as [new RegExp] reads it. *)
Definition trackTail : regex :=
  (Chr "_" ;; Chr "s" ;; Plus (Cls is_digit) ;; Chr "_" ;; Chr "s" ;; Chr "_"
       ;; Grp (Plus (Cls not_underscore) ;; Eps) ;; Chr "_" ;; Chr "s"
       ;; Plus (Cls is_digit) ;; Chr "_"
       ;; Grp (Plus (Cls not_underscore) ;; Eps) ;; Eol ;; Eps)%re.

(** The pattern that [new RegExp] returns for a session
    ([RegExp_trackSource] in Part III). *)
Definition trackRegex (sessionName : string) : regex :=
  lit_then sessionName trackTail.

(** [sessionName_s<d1>_s_<view>_s<d2>_<clip>] *)
Definition track_shape (sessionName d1 view d2 clip : string) : string :=
  sessionName +:+ "_s" +:+ d1 +:+ "_s_" +:+ view +:+ "_s" +:+ d2 +:+ "_" +:+ clip.

(** The two numbers are non-empty runs of digits; view and clip are
    non-empty and free of underscores. *)
Definition track_fields (d1 view d2 clip : string) : Prop :=
  run is_digit d1 /\ run not_underscore view
  /\ run is_digit d2 /\ run not_underscore clip.

(** The token is exactly [sessionName_s<digits>_s_<view>_s<digits>_<clip>]. *)
Definition exact_track (sessionName token view clip : string) : Prop :=
  exists d1 d2, track_fields d1 view d2 clip
                /\ token = track_shape sessionName d1 view d2 clip.

(** The token ends with that shape. *)
Definition ends_with_track (sessionName token view clip : string) : Prop :=
  exists pre d1 d2, track_fields d1 view d2 clip
                    /\ token = pre +:+ track_shape sessionName d1 view d2 clip.

(* ===================================================================== *)
(** ** Lines that yield an event                                        *)
(* ===================================================================== *)

(** The event built from a line with the given tokens, view and clip. *)
Definition event_of (sessionName trimmedLine view clip camera frameNumber : string)
           (eventParts : list string) : Event.t :=
  {| Event.sessionName := sessionName;
     Event.viewName := view;
     Event.clipNumber := padStart 4 "0" clip;
     Event.camera := camera;
     Event.frameNumber := frameNumber;
     Event.eventName := String.concat " " eventParts;
     Event.fullLine := trimmedLine |}.

(** The line is neither blank nor a comment and has at least four tokens. *)
Definition candidate (line : string) (trackfile camera frameNumber : string)
           (eventParts : list string) : Prop :=
  trim line <> ""
  /\ Str.startsWith "#" (trim line) = false
  /\ split_white (trim line) = trackfile :: camera :: frameNumber :: eventParts
  /\ eventParts <> [].

(* ===================================================================== *)
(** ** Sorted output and consistent comparators                         *)
(* ===================================================================== *)

(** [a] is not placed after [b] by the comparator. *)
Definition not_after {A : Type} (cmp : A -> A -> Z) (a b : A) : Prop :=
  (cmp a b <= 0)%Z.

(** A consistent comparator: exchanging the arguments flips the sign, and
    "not after" is transitive. *)
Definition consistent {A : Type} (cmp : A -> A -> Z) : Prop :=
  (forall a b, Z.sgn (cmp a b) = (- Z.sgn (cmp b a))%Z)
  /\ (forall a b c, (cmp a b <= 0)%Z -> (cmp b c <= 0)%Z -> (cmp a c <= 0)%Z).

(** The order that a sort specification asks for, stated on the keys of
    two records: [a] may stand before [b] in ascending order when the key
    of [a] is not after the key of [b].  The key is the date, the project,
    the vehicle or the number of events when the specification names one
    of them, and the file name otherwise; texts are compared by the host's
    localeCompare and numbers by their value. *)
Definition key_not_after (localeCompare : string -> string -> Z) (sortBy : string)
           (a b : File.t) : Prop :=
  (sortBy = "date" -> (localeCompare (File.date a) (File.date b) <= 0)%Z)
  /\ (sortBy = "project" -> (localeCompare (File.project a) (File.project b) <= 0)%Z)
  /\ (sortBy = "vehicle" -> (localeCompare (File.vehicle a) (File.vehicle b) <= 0)%Z)
  /\ (sortBy = "eventCount" -> (File.eventCount a <= File.eventCount b)%Z)
  /\ (sortBy <> "date" -> sortBy <> "project" -> sortBy <> "vehicle" ->
      sortBy <> "eventCount" ->
      (localeCompare (File.fileName a) (File.fileName b) <= 0)%Z).

(** [a] may stand before [b] under the sort specification: ascending as
    above, descending with the two records exchanged. *)
Definition in_sort_order (localeCompare : string -> string -> Z) (sortBy : string)
           (sortOrder : sort_order) (a b : File.t) : Prop :=
  match sortOrder with
  | asc => key_not_after localeCompare sortBy a b
  | desc => key_not_after localeCompare sortBy b a
  end.

(* ===================================================================== *)
(** ** A place in the directory tree                                    *)
(* ===================================================================== *)

(** A directory tree with one hole in one of its listings. *)
Inductive context : Type :=
| Here (before after : list dirent)
| Below (before : list dirent) (name : string) (inner : context) (after : list dirent).

(** Fill the hole with entries. *)
Fixpoint plug (c : context) (entries : list dirent) : dir_state :=
  match c with
  | Here before after => Listing (before ++ entries ++ after)
  | Below before name inner after =>
      Listing (before ++ DirEntry name (plug inner entries) :: after)
  end.

(* ===================================================================== *)
(** ** The examples of the design document                              *)
(* ===================================================================== *)

(** The example artifact of the design document. *)
Definition example_name : string := "PRJ_VEH_010124_120000_5_020124_DATACO-42.jump".

(** Its tokens. *)
Definition example_tokens : raw_tokens :=
  RawTokens "PRJ" "VEH" "010124" "120000" "5" "020124" "42".

(** Its body line as the document gives it: the track token carries the
    creation date between the session name and [_s1]. *)
Definition example_body : string :=
  "PRJ_VEH_010124_120000_5_020124_s1_s_Front_s60_7 CamA 100 Honk".

(** A body line whose track token starts with the session name of the
    file, directly followed by [_s1]. *)
Definition session_body : string :=
  "PRJ_VEH_010124_120000_5_s1_s_Front_s60_7 CamA 100 Honk".

(** A tree that holds exactly one regular file. *)
Definition single_file (name : string) (stats : Stats) (body : string) : dir_state :=
  Listing [FileEntry name (Some stats) (Some body)].

(** The example file as a directory entry whose stat and read succeed. *)
Definition readable_entry : dirent :=
  FileEntry example_name (Some {| st_size := 62; st_mtime := 0 |}) (Some session_body).

(** path.join on a normalized directory and a plain entry name. *)
Definition posix_join (dir name : string) : string := dir +:+ "/" +:+ name.

(** A record with the given name, project, date and number of events, for
    the examples. *)
Definition sample_file (name project date : string) (count : Z) : File.t :=
  {| File.fileName := name; File.filePath := "/r/" +:+ name;
     File.project := project; File.vehicle := "VEH";
     File.date := date; File.time := "12:00:00"; File.swVersion := "5";
     File.createDate := date; File.datacoNumber := "42";
     File.sessionName := project +:+ "_VEH_010124_120000_5";
     File.size := 0; File.lastModified := 0;
     File.events := []; File.eventCount := count;
     File.uniqueEvents := []; File.uniqueCameras := []; File.uniqueClips := [] |}.

(** A filter state with the five constraint sets empty. *)
Definition no_constraint (sortBy : string) (sortOrder : sort_order) : Filters.t :=
  {| Filters.selectedSubtasks := []; Filters.selectedEventTypes := [];
     Filters.selectedCameraTypes := []; Filters.selectedProjects := [];
     Filters.selectedVehicles := []; Filters.dateRange := "all";
     Filters.sortBy := sortBy; Filters.sortOrder := sortOrder |}.

(** Three records with event counts 3, 0 and 7. *)
Definition sample_files : list File.t :=
  [sample_file "b.jump" "P2" "31/01/2024" 3;
   sample_file "a.jump" "P1" "01/02/2024" 0;
   sample_file "c.jump" "P1" "15/01/2024" 7].

(* ===================================================================== *)
(** ** Records of a scan, sums, and the constraints of the view         *)
(* ===================================================================== *)

(** The metadata fields of a record. *)
Definition metadata_of (f : File.t) : Meta.t :=
  {| Meta.project := File.project f;
     Meta.vehicle := File.vehicle f;
     Meta.date := File.date f;
     Meta.time := File.time f;
     Meta.swVersion := File.swVersion f;
     Meta.createDate := File.createDate f;
     Meta.datacoNumber := File.datacoNumber f;
     Meta.sessionName := File.sessionName f |}.

(** The sum of a list of numbers. *)
Definition sumZ (l : list Z) : Z := fold_right Z.add 0%Z l.

(** The set is empty, or [x] is in it. *)
Definition allows (selected : list string) (x : string) : Prop :=
  selected = [] \/ In x selected.

(** The set is empty, or one of [xs] is in it. *)
Definition allows_some (selected xs : list string) : Prop :=
  selected = [] \/ exists x, In x xs /\ In x selected.

(** The record passes every constraint of the filter state that is not
    empty. *)
Definition passes (filters : Filters.t) (f : File.t) : Prop :=
  allows (Filters.selectedSubtasks filters) ("DATACO-" +:+ File.datacoNumber f)
  /\ allows (Filters.selectedProjects filters) (File.project f)
  /\ allows (Filters.selectedVehicles filters) (File.vehicle f)
  /\ allows_some (Filters.selectedEventTypes filters) (File.uniqueEvents f)
  /\ allows_some (Filters.selectedCameraTypes filters) (File.uniqueCameras f).

(** The text contains a comma. *)
Definition has_comma (s : string) : Prop := exists a b, s = a +:+ "," +:+ b.

(** A character that is not white space. *)
Definition not_white (c : ascii) : bool := negb (is_white c).

(** The event of the body line [session_body]. *)
Definition example_event : Event.t :=
  event_of "PRJ_VEH_010124_120000_5" session_body "Front" "7" "CamA" "100" ["Honk"].

(** The record of the example file with the body [session_body], scanned
    in the directory [/r]. *)
Definition example_record : File.t :=
  fileRecord example_name (posix_join "/r" example_name) (meta_of example_tokens)
             {| st_size := 62; st_mtime := 0 |}
             [event_of "PRJ_VEH_010124_120000_5" session_body "Front" "7" "CamA" "100"
                       ["Honk"]].

(** The page served by the file route itself, over the tree [root]: the
    two parameters reach the route as the page sent them. *)
Definition served_by (path_join : string -> string -> string)
           (localeCompare : string -> string -> Z) (root : dir_state)
  : string -> string -> files_outcome :=
  fun mainTicket subtasks =>
    Replied (GET path_join localeCompare (Some mainTicket) (Some subtasks) root).

(** A filter state with the given selection of projects and nothing else
    selected. *)
Definition only_projects (projects : list string) : Filters.t :=
  {| Filters.selectedSubtasks := []; Filters.selectedEventTypes := [];
     Filters.selectedCameraTypes := []; Filters.selectedProjects := projects;
     Filters.selectedVehicles := []; Filters.dateRange := "all";
     Filters.sortBy := "fileName"; Filters.sortOrder := asc |}.

(** A page that shows the ticket [ticketData]. *)
Definition showing (ticketData : Ticket.t) : Page.t :=
  {| Page.searchValue := Ticket.key ticketData;
     Page.viewState := View.results;
     Page.ticketData := Some ticketData;
     Page.fileData := None;
     Page.errorMessage := "";
     Page.filters := no_constraint "fileName" asc |}.

(** The example ticket: one subtask, DATACO-42. *)
Definition example_ticket : Ticket.t :=
  {| Ticket.key := "DATACO-1"; Ticket.summary := "Main";
     Ticket.subtasks := [ {| Subtask.key := "DATACO-42"; Subtask.summary := "Sub" |} ] |}.

(** The filter state without a constraint on the projects. *)
Definition without_projects (filters : Filters.t) : Filters.t :=
  {| Filters.selectedSubtasks := Filters.selectedSubtasks filters;
     Filters.selectedEventTypes := Filters.selectedEventTypes filters;
     Filters.selectedCameraTypes := Filters.selectedCameraTypes filters;
     Filters.selectedProjects := [];
     Filters.selectedVehicles := Filters.selectedVehicles filters;
     Filters.dateRange := Filters.dateRange filters;
     Filters.sortBy := Filters.sortBy filters;
     Filters.sortOrder := Filters.sortOrder filters |}.

(** An environment with every variable of the ticket route set. *)
Definition example_env : Jira.Env :=
  {| Jira.JIRA_BASE_URL := Some "https://jira.example";
     Jira.JIRA_USER := Some "user";
     Jira.JIRA_API_TOKEN := Some "token";
     Jira.JIRA_PROJECT_KEY := Some "DATACO" |}.

(** The same environment without the API token. *)
Definition env_without_token : Jira.Env :=
  {| Jira.JIRA_BASE_URL := Some "https://jira.example";
     Jira.JIRA_USER := Some "user";
     Jira.JIRA_API_TOKEN := None;
     Jira.JIRA_PROJECT_KEY := Some "DATACO" |}.

(** An issue with two subtasks. *)
Definition example_issue : Jira.Issue :=
  {| Jira.i_key := "DATACO-1";
     Jira.i_fields :=
       Some {| Jira.f_summary := Some "Main";
               Jira.f_subtasks :=
                 Some [ {| Jira.st_id := "10"; Jira.st_key := "DATACO-42";
                           Jira.st_summary := None |};
                        {| Jira.st_id := "11"; Jira.st_key := "DATACO-43";
                           Jira.st_summary := None |} ] |} |}.

(** A tracker that sends the example issue, fails on the first subtask
    and sends a subtask without summary for the second. *)
Definition example_fetch (n : nat) (url authorization : string) : Jira.outcome :=
  match n with
  | 0%nat => Jira.HttpResponse 200 (Some example_issue)
  | 1%nat => Jira.NetworkError
  | _ => Jira.HttpResponse 200
           (Some {| Jira.i_key := "DATACO-43";
                    Jira.i_fields := Some {| Jira.f_summary := None;
                                             Jira.f_subtasks := None |} |})
  end.

(** The reply of the route to that tracker. *)
Definition example_reply : Jira.JiraResponse :=
  {| Jira.r_key := "DATACO-1";
     Jira.r_summary := Some "Main";
     Jira.r_subtasks :=
       [ {| Subtask.key := "DATACO-42"; Subtask.summary := "Error fetching summary" |};
         {| Subtask.key := "DATACO-43"; Subtask.summary := "No summary available" |} ] |}.

(** No base64 encoding at all: enough for the examples. *)
Definition plain (s : string) : string := s.

(** The path of the directory that holds the hole, for a tree scanned
    under [dirPath]. *)
Fixpoint hole_path (path_join : string -> string -> string) (dirPath : string)
         (c : context) : string :=
  match c with
  | Here _ _ => dirPath
  | Below _ name inner _ => hole_path path_join (path_join dirPath name) inner
  end.

(** An entry that the scanner passes over without a call on the file
    system: a directory that is missing or cannot be listed, an entry that
    is neither a directory nor a regular file, and a regular file whose
    name does not end in [.jump]. *)
Definition passed_over (e : dirent) : Prop :=
  match e with
  | DirEntry _ sub => sub = Missing \/ sub = Unreadable
  | FileEntry name _ _ => Str.endsWith ".jump" name = false
  | OtherEntry _ => True
  end.

(** A tree two directories deep with a hole in the inner directory. *)
Definition nested_hole : context :=
  Below [OtherEntry "link"] "P1" (Below [] "V1" (Here [] []) []) [DirEntry "P2" Unreadable].

(** Induction on a directory tree goes through the listings: a property
    of trees and one of entries are proved together. *)
Section TreeInduction.

Variable P : dir_state -> Prop.
Variable Q : dirent -> Prop.

Hypothesis P_Missing : P Missing.
Hypothesis P_Unreadable : P Unreadable.
Hypothesis P_Listing : forall entries, Forall Q entries -> P (Listing entries).
Hypothesis Q_Dir : forall name sub, P sub -> Q (DirEntry name sub).
Hypothesis Q_File : forall name stat content, Q (FileEntry name stat content).
Hypothesis Q_Other : forall name, Q (OtherEntry name).

Fixpoint tree_ind (d : dir_state) : P d :=
  match d with
  | Missing => P_Missing
  | Unreadable => P_Unreadable
  | Listing entries =>
      P_Listing entries
        ((fix all (l : list dirent) : Forall Q l :=
            match l with
            | [] => @List.Forall_nil _ Q
            | e :: t => @List.Forall_cons _ Q e t (entry_ind e) (all t)
            end) entries)
  end
with entry_ind (e : dirent) : Q e :=
  match e with
  | DirEntry name sub => Q_Dir name sub (tree_ind sub)
  | FileEntry name stat content => Q_File name stat content
  | OtherEntry name => Q_Other name
  end.

End TreeInduction.

(* ===================================================================== *)
(** * Part III.  Proofs                                                 *)
(* ===================================================================== *)

(* ===================================================================== *)
(** ** Strings                                                          *)
(* ===================================================================== *)

Lemma str_app_nil_r (s : string) : s +:+ "" = s.
Proof. induction s as [|c s IH]; simpl; [reflexivity | now rewrite IH]. Qed.

Lemma str_app_assoc (a b c : string) : (a +:+ b) +:+ c = a +:+ (b +:+ c).
Proof. induction a as [|x a IH]; simpl; [reflexivity | now rewrite IH]. Qed.

Lemma str_length_app (a b : string) :
  String.length (a +:+ b) = (String.length a + String.length b)%nat.
Proof. induction a as [|x a IH]; simpl; [reflexivity | now rewrite IH]. Qed.

Lemma str_app_inv_head (a b c : string) : a +:+ b = a +:+ c -> b = c.
Proof. induction a as [|x a IH]; simpl; intros H; [assumption | injection H; auto]. Qed.

Lemma str_substring_0_0 (s : string) : substring 0 0 s = "".
Proof. destruct s; reflexivity. Qed.

Lemma str_substring_0_app (w r : string) : substring 0 (String.length w) (w +:+ r) = w.
Proof.
  induction w as [|c w IH]; simpl.
  - apply str_substring_0_0.
  - now rewrite IH.
Qed.

Lemma str_substring_0_all (w : string) : substring 0 (String.length w) w = w.
Proof. rewrite <- (str_app_nil_r w) at 2. apply str_substring_0_app. Qed.

Lemma str_substring_skip_app (w r : string) (n : nat) :
  substring (String.length w) n (w +:+ r) = substring 0 n r.
Proof. induction w as [|c w IH]; simpl; [reflexivity | apply IH]. Qed.

Lemma str_all_app (p : ascii -> bool) (a b : string) :
  Str.all p (a +:+ b) = Str.all p a && Str.all p b.
Proof.
  induction a as [|c a IH]; simpl; [reflexivity|].
  rewrite IH. now rewrite andb_assoc.
Qed.

Lemma str_length_zero (s : string) : String.length s = 0%nat -> s = "".
Proof. destruct s; simpl; [reflexivity | discriminate]. Qed.

(** A word over [p] followed by a character outside [p] splits a string
    in one way only. *)
Lemma str_split_unique (p : ascii -> bool) (c : ascii) :
  p c = false ->
  forall w w' r r' : string,
    Str.all p w = true -> Str.all p w' = true ->
    w +:+ String c r = w' +:+ String c r' -> w = w' /\ r = r'.
Proof.
  intros Hc. induction w as [|x w IH]; intros [|x' w'] r r' Hw Hw' E; simpl in *.
  - injection E as ->. auto.
  - injection E as <- _. apply andb_true_iff in Hw' as [Hx _]. congruence.
  - injection E as -> _. apply andb_true_iff in Hw as [Hx _]. congruence.
  - injection E as -> E.
    apply andb_true_iff in Hw as [_ Hw]. apply andb_true_iff in Hw' as [_ Hw'].
    destruct (IH w' r r' Hw Hw' E) as [-> ->]. auto.
Qed.

(* ===================================================================== *)
(** ** Character classes                                                *)
(* ===================================================================== *)

Lemma digit_not_underscore (c : ascii) : is_digit c = true -> not_underscore c = true.
Proof.
  unfold is_digit, not_underscore. intros H.
  destruct (Ascii.eqb_spec c "_") as [->|]; [discriminate H | reflexivity].
Qed.

Lemma all_digit_not_underscore (s : string) :
  Str.all is_digit s = true -> Str.all not_underscore s = true.
Proof.
  induction s as [|c s IH]; simpl; [reflexivity|].
  intros [Hc Hs]%andb_true_iff. rewrite (digit_not_underscore c Hc). simpl. auto.
Qed.

(* ===================================================================== *)
(** ** The matcher is sound and complete                                *)
(* ===================================================================== *)

Lemma mstate_eq (a b : mstate) :
  m_pos a = m_pos b -> m_rest a = m_rest b -> m_caps a = m_caps b -> a = b.
Proof. destruct a, b; simpl; intros; subst; reflexivity. Qed.

Lemma sem_eps : sem Eps (denote Eps).
Proof.
  intros st st'. simpl. split.
  - intros [<- | []]. exists "", []. rewrite app_nil_r. simpl.
    split; [auto|]. split; [reflexivity|]. split; [lia | reflexivity].
  - intros (w & cs & [-> ->] & Hr & Hp & Hc). left. simpl in *.
    apply mstate_eq; [lia | assumption | now rewrite app_nil_r in Hc].
Qed.

Lemma sem_cls (p : ascii -> bool) : sem (Cls p) (denote (Cls p)).
Proof.
  intros st st'. simpl. destruct (m_rest st) as [|x t] eqn:E.
  - split; [intros [] | intros (w & cs & (c & -> & _) & Hr & _); discriminate Hr].
  - destruct (p x) eqn:Hx.
    + split.
      * intros [<- | []]. exists (String x ""), []. simpl.
        rewrite app_nil_r. split; [exists x; auto|].
        split; [reflexivity|]. split; [lia | reflexivity].
      * intros (w & cs & (c & -> & Hc & ->) & Hr & Hp & Hcs). simpl in Hr, Hp.
        injection Hr as -> ->. left.
        apply mstate_eq; simpl; [lia | reflexivity | now rewrite app_nil_r in Hcs].
    + split; [intros [] |].
      intros (w & cs & (c & -> & Hc & ->) & Hr & _). simpl in Hr.
      injection Hr as -> _. congruence.
Qed.

Lemma sem_chr (c : ascii) : sem (Chr c) (denote (Chr c)).
Proof.
  intros st st'.
  assert (E : rmatch (Chr c) st = rmatch (Cls (fun x => Ascii.eqb x c)) st) by reflexivity.
  rewrite E, (sem_cls _ st st'). simpl. split.
  - intros (w & cs & (x & -> & Hx & ->) & Hr). apply Ascii.eqb_eq in Hx as ->.
    exists (String c ""), []. auto.
  - intros (w & cs & [-> ->] & Hr). exists (String c ""), []. split; [|exact Hr].
    exists c. rewrite Ascii.eqb_refl. auto.
Qed.

Lemma sem_bol : sem Bol (denote Bol).
Proof.
  intros st st'. simpl. destruct (Nat.eqb_spec (m_pos st) 0) as [E|E].
  - split.
    + intros [<- | []]. exists "", []. rewrite app_nil_r. simpl.
      split; [auto|]. split; [reflexivity|]. split; [lia | reflexivity].
    + intros (w & cs & (_ & -> & ->) & Hr & Hp & Hc). left. simpl in *.
      apply mstate_eq; [lia | assumption | now rewrite app_nil_r in Hc].
  - split; [intros [] | intros (w & cs & (E0 & _) & _); contradiction].
Qed.

Lemma sem_eol : sem Eol (denote Eol).
Proof.
  intros st st'. simpl. destruct (m_rest st) as [|x t] eqn:E.
  - split.
    + intros [<- | []]. exists "", []. rewrite app_nil_r, E. simpl.
      split; [auto|]. split; [reflexivity|]. split; [lia | reflexivity].
    + intros (w & cs & (Ht & -> & ->) & Hr & Hp & Hc). left. simpl in *.
      apply mstate_eq; [lia | congruence | now rewrite app_nil_r in Hc].
  - split; [intros [] |].
    intros (w & cs & (Ht & -> & ->) & Hr & _). simpl in Hr. congruence.
Qed.

Lemma sem_seq (r1 r2 : regex) :
  sem r1 (denote r1) -> sem r2 (denote r2) -> sem (Seq r1 r2) (denote (Seq r1 r2)).
Proof.
  intros H1 H2 st st'. simpl. rewrite in_flat_map. split.
  - intros (st1 & Hin1 & Hin2).
    apply H1 in Hin1 as (w1 & c1 & Hl1 & Hr1 & Hp1 & Hc1).
    apply H2 in Hin2 as (w2 & c2 & Hl2 & Hr2 & Hp2 & Hc2).
    exists (w1 +:+ w2), (c1 ++ c2). split.
    { exists w1, c1, w2, c2. rewrite <- Hr2, <- Hp1. auto. }
    rewrite str_app_assoc, <- Hr2, str_length_app, Hc2, Hc1, app_assoc.
    split; [assumption|]. split; [lia | reflexivity].
  - intros (w & cs & (w1 & c1 & w2 & c2 & Hl1 & Hl2 & -> & ->) & Hr & Hp & Hc).
    exists (MState (m_pos st + String.length w1) (w2 +:+ m_rest st') (m_caps st ++ c1)).
    split.
    + apply H1. exists w1, c1. simpl. rewrite <- str_app_assoc. auto.
    + apply H2. exists w2, c2. simpl.
      rewrite str_length_app in Hp. rewrite app_assoc in Hc.
      split; [assumption|]. split; [reflexivity|]. split; [lia | assumption].
Qed.

Lemma sem_grp (r : regex) : sem r (denote r) -> sem (Grp r) (denote (Grp r)).
Proof.
  intros H st st'. simpl. rewrite in_map_iff. split.
  - intros (st1 & <- & Hin). apply H in Hin as (w & c0 & Hl & Hr & Hp & Hc).
    exists w, (c0 ++ [w]). simpl. split; [eauto|].
    rewrite Hr at 2. rewrite Hp.
    replace (m_pos st + String.length w - m_pos st)%nat with (String.length w) by lia.
    rewrite str_substring_0_app, Hc, app_assoc. auto.
  - intros (w & cs & (c0 & Hl & ->) & Hr & Hp & Hc).
    exists (MState (m_pos st') (m_rest st') (m_caps st ++ c0)). split.
    + apply mstate_eq; simpl; [reflexivity | reflexivity |].
      rewrite Hr at 1. rewrite Hp.
      replace (m_pos st + String.length w - m_pos st)%nat with (String.length w) by lia.
      rewrite str_substring_0_app, Hc, app_assoc. reflexivity.
    + apply H. exists w, c0. simpl. auto.
Qed.

Lemma sem_plus_from (r : regex) :
  sem r (denote r) ->
  forall (fuel : nat) (st st' : mstate),
    (String.length (m_rest st) < fuel)%nat ->
    In st' (plus_from fuel (rmatch r) st) <->
    exists (w : string) (cs : list string),
      plus_lang (denote r) (m_pos st) w cs (m_rest st')
      /\ m_rest st = w +:+ m_rest st'
      /\ m_pos st' = (m_pos st + String.length w)%nat
      /\ m_caps st' = m_caps st ++ cs.
Proof.
  intros H. induction fuel as [|n IH]; intros st st' Hf; [lia|].
  simpl. rewrite in_flat_map. split.
  - intros (st1 & Hin1 & Hin).
    apply H in Hin1 as (w1 & c1 & Hl1 & Hr1 & Hp1 & Hc1).
    apply in_app_iff in Hin as [Hin | [<- | []]].
    + destruct (Nat.ltb_spec (String.length (m_rest st1)) (String.length (m_rest st)))
        as [Hlt|]; [|destruct Hin].
      apply IH in Hin as (w2 & c2 & Hl2 & Hr2 & Hp2 & Hc2); [|lia].
      exists (w1 +:+ w2), (c1 ++ c2). split.
      * apply plus_more; [now rewrite <- Hr2 | | now rewrite <- Hp1].
        intros ->. rewrite Hr1 in Hlt. simpl in Hlt. lia.
      * rewrite str_app_assoc, <- Hr2, str_length_app, Hc2, Hc1, app_assoc.
        split; [assumption|]. split; [lia | reflexivity].
    + exists w1, c1. split; [now apply plus_one | auto].
  - intros (w & cs & Hl & Hr & Hp & Hc).
    inversion Hl as [i w0 cs0 tl Hl0 | i w1 c1 w2 c2 tl Hl1 Hne Hl2]; subst.
    + exists st'. split; [apply H; exists w, cs; auto|].
      apply in_app_iff. right. now left.
    + set (st1 := MState (m_pos st + String.length w1) (w2 +:+ m_rest st')
                         (m_caps st ++ c1)).
      assert (Hlen : (String.length (m_rest st1) < String.length (m_rest st))%nat).
      { rewrite Hr, str_app_assoc, str_length_app. simpl.
        destruct w1; [congruence | simpl; lia]. }
      exists st1. split.
      * apply H. exists w1, c1. simpl. rewrite <- str_app_assoc. auto.
      * apply in_app_iff. left.
        apply Nat.ltb_lt in Hlen as Hb. rewrite Hb.
        apply IH; [lia|]. exists w2, c2. simpl.
        rewrite str_length_app in Hp. rewrite app_assoc in Hc.
        split; [assumption|]. split; [reflexivity|]. split; [lia | assumption].
Qed.

(** The matcher is sound and complete for the declarative reading. *)
Theorem rmatch_denote (r : regex) : sem r (denote r).
Proof.
  induction r as [| c | p | r1 IH1 r2 IH2 | r IH | r IH | |].
  - apply sem_eps.
  - apply sem_chr.
  - apply sem_cls.
  - now apply sem_seq.
  - intros st st'. apply (sem_plus_from r IH). lia.
  - now apply sem_grp.
  - apply sem_bol.
  - apply sem_eol.
Qed.

(* ===================================================================== *)
(** ** Readings of the common pieces                                    *)
(* ===================================================================== *)

Lemma denote_lit (s : string) (i : nat) (w : string) (cs : list string) (tl : string) :
  denote (lit s) i w cs tl <-> w = s /\ cs = [].
Proof.
  revert i w cs. induction s as [|c s IH]; intros i w cs; simpl.
  - tauto.
  - split.
    + intros (w1 & c1 & w2 & c2 & [-> ->] & H2 & -> & ->).
      apply IH in H2 as [-> ->]. auto.
    + intros [-> ->]. exists (String c ""), [], s, []. simpl.
      repeat split; auto. apply IH. auto.
Qed.

Lemma denote_times_cls (p : ascii -> bool) (n i : nat) (w : string)
      (cs : list string) (tl : string) :
  denote (times n (Cls p)) i w cs tl <->
  String.length w = n /\ Str.all p w = true /\ cs = [].
Proof.
  revert i w cs. induction n as [|n IH]; intros i w cs; simpl.
  - split.
    + intros [-> ->]. auto.
    + intros (Hl & _ & ->). apply str_length_zero in Hl. auto.
  - split.
    + intros (w1 & c1 & w2 & c2 & (c & -> & Hc & ->) & H2 & -> & ->).
      apply IH in H2 as (Hl & Hp & ->). simpl. rewrite Hc, Hp, Hl. auto.
    + intros (Hl & Hp & ->). destruct w as [|c w]; [discriminate Hl|].
      simpl in Hl, Hp. apply andb_true_iff in Hp as [Hc Hp].
      exists (String c ""), [], w, []. simpl.
      split; [eauto|]. split; [|auto]. apply IH. auto.
Qed.

Lemma denote_plus_cls (p : ascii -> bool) (i : nat) (w : string)
      (cs : list string) (tl : string) :
  denote (Plus (Cls p)) i w cs tl <->
  w <> "" /\ Str.all p w = true /\ cs = [].
Proof.
  simpl. split.
  - induction 1 as [i w cs tl (c & -> & Hc & ->)
                   | i w1 c1 w2 c2 tl (c & -> & Hc & ->) _ _ (Hne & Hp & ->)].
    + simpl. rewrite Hc. repeat split; congruence.
    + simpl. rewrite Hc, Hp. repeat split; congruence.
  - intros (Hne & Hp & ->). revert i.
    induction w as [|c w IH]; intros i; [congruence|].
    simpl in Hp. apply andb_true_iff in Hp as [Hc Hp].
    destruct w as [|c' w'].
    + apply plus_one. exists c. auto.
    + apply (plus_more _ i (String c "") [] (String c' w') []).
      * exists c. auto.
      * congruence.
      * apply IH; [congruence | assumption].
Qed.

Lemma denote_seq_intro (r1 r2 : regex) (i : nat) (w1 : string) (c1 : list string)
      (w2 : string) (c2 : list string) (tl : string) :
  denote r1 i w1 c1 (w2 +:+ tl) ->
  denote r2 (i + String.length w1)%nat w2 c2 tl ->
  denote (Seq r1 r2) i (w1 +:+ w2) (c1 ++ c2) tl.
Proof. intros H1 H2. exists w1, c1, w2, c2. auto. Qed.

Lemma denote_grp_plus_cls (p : ascii -> bool) (i : nat) (w : string)
      (cs : list string) (tl : string) :
  denote (Grp (Plus (Cls p))) i w cs tl <->
  w <> "" /\ Str.all p w = true /\ cs = [w].
Proof.
  change (denote (Grp (Plus (Cls p))) i w cs tl)
    with (exists c0, denote (Plus (Cls p)) i w c0 tl /\ cs = c0 ++ [w]).
  split.
  - intros (c0 & H & ->). apply denote_plus_cls in H as (Hne & Hp & ->). auto.
  - intros (Hne & Hp & ->). exists []. split; [|reflexivity].
    apply denote_plus_cls. auto.
Qed.

Lemma denote_grp_times_cls (p : ascii -> bool) (n i : nat) (w : string)
      (cs : list string) (tl : string) :
  denote (Grp (times n (Cls p))) i w cs tl <->
  String.length w = n /\ Str.all p w = true /\ cs = [w].
Proof.
  change (denote (Grp (times n (Cls p))) i w cs tl)
    with (exists c0, denote (times n (Cls p)) i w c0 tl /\ cs = c0 ++ [w]).
  split.
  - intros (c0 & H & ->). apply denote_times_cls in H as (Hl & Hp & ->). auto.
  - intros (Hl & Hp & ->). exists []. split; [|reflexivity].
    apply denote_times_cls. auto.
Qed.

(* ===================================================================== *)
(** ** Searching                                                        *)
(* ===================================================================== *)

Lemma search_unfold (re : regex) (i : nat) (s : string) :
  search re i s =
  match rmatch re (MState i s []) with
  | st' :: _ => Some (substring 0 (m_pos st' - i) s :: m_caps st')
  | [] => match s with
          | EmptyString => None
          | String _ t => search re (S i) t
          end
  end.
Proof. destruct s; reflexivity. Qed.

Lemma search_head (re : regex) (i : nat) (s : string) (st' : mstate) (l : list mstate) :
  rmatch re (MState i s []) = st' :: l ->
  exists (w : string) (cs : list string),
    denote re i w cs (m_rest st')
    /\ s = w +:+ m_rest st'
    /\ substring 0 (m_pos st' - i) s :: m_caps st' = w :: cs.
Proof.
  intros E.
  assert (Hin : In st' (rmatch re (MState i s []))) by (rewrite E; now left).
  apply rmatch_denote in Hin as (w & cs & Hl & Hr & Hp & Hc).
  cbn [m_pos m_rest m_caps] in *. exists w, cs.
  split; [assumption|]. split; [assumption|].
  rewrite Hp, Hc. rewrite Hr at 1.
  replace (i + String.length w - i)%nat with (String.length w) by lia.
  now rewrite str_substring_0_app.
Qed.

(** A successful search found, after some prefix [pre], a word [w] of the
    pattern, and returns it with its groups. *)
Lemma search_sound (re : regex) (s : string) :
  forall (i : nat) (res : list string),
    search re i s = Some res ->
    exists (pre w : string) (cs : list string) (tl : string),
      s = pre +:+ w +:+ tl
      /\ denote re (i + String.length pre)%nat w cs tl
      /\ res = w :: cs.
Proof.
  assert (Hhead : forall i s st' l res,
             rmatch re (MState i s []) = st' :: l ->
             Some (substring 0 (m_pos st' - i) s :: m_caps st') = Some res ->
             exists (pre w : string) (cs : list string) (tl : string),
               s = pre +:+ w +:+ tl
               /\ denote re (i + String.length pre)%nat w cs tl
               /\ res = w :: cs).
  { intros i s0 st' l res E [= <-].
    destruct (search_head re i s0 st' l E) as (w & cs & Hl & Hs & Hres).
    exists "", w, cs, (m_rest st'). simpl. rewrite Nat.add_0_r. auto. }
  induction s as [|c s IH]; intros i res; rewrite search_unfold;
    destruct (rmatch re (MState i _ [])) as [|st' l] eqn:E.
  - discriminate.
  - now apply (Hhead i "" st' l).
  - intros H. apply IH in H as (pre & w & cs & tl & -> & Hl & ->).
    exists (String c pre), w, cs, tl. simpl.
    replace (i + S (String.length pre))%nat with (S i + String.length pre)%nat by lia.
    auto.
  - now apply (Hhead i (String c s) st' l).
Qed.

(** Wherever a word of the pattern occurs, the search succeeds. *)
Lemma search_complete (re : regex) (pre : string) :
  forall (i : nat) (w : string) (cs : list string) (tl : string),
    denote re (i + String.length pre)%nat w cs tl ->
    exists res, search re i (pre +:+ w +:+ tl) = Some res.
Proof.
  induction pre as [|c pre IH]; intros i w cs tl Hl; rewrite search_unfold.
  - simpl in *. rewrite Nat.add_0_r in Hl.
    assert (Hin : In (MState (i + String.length w) tl cs)
                     (rmatch re (MState i (w +:+ tl) []))).
    { apply rmatch_denote. exists w, cs. simpl. auto. }
    destruct (rmatch re (MState i (w +:+ tl) [])); [destruct Hin | eauto].
  - destruct (rmatch re (MState i _ [])); [|eauto].
    simpl. apply (IH (S i) w cs tl).
    simpl in Hl. now replace (S i + String.length pre)%nat
      with (i + S (String.length pre))%nat by lia.
Qed.

(** A search that fails means the pattern occurs nowhere. *)
Lemma search_none (re : regex) (s : string) (i : nat) :
  search re i s = None ->
  forall (pre w : string) (cs : list string) (tl : string),
    s = pre +:+ w +:+ tl -> ~ denote re (i + String.length pre)%nat w cs tl.
Proof.
  intros Hn pre w cs tl -> Hl.
  destruct (search_complete re pre i w cs tl Hl) as [res Hres]. congruence.
Qed.

Ltac denote_inv H :=
  lazymatch type of H with
  | denote (Seq _ _) _ _ _ _ =>
      let H1 := fresh "H" in
      let H2 := fresh "H" in
      destruct H as (? & ? & ? & ? & H1 & H2 & -> & ->);
      denote_inv H1; denote_inv H2
  | denote (Grp (Plus (Cls _))) _ _ _ _ =>
      apply denote_grp_plus_cls in H as (? & ? & ->)
  | denote (Grp (times _ (Cls _))) _ _ _ _ =>
      apply denote_grp_times_cls in H as (? & ? & ->)
  | denote (Plus (Cls _)) _ _ _ _ =>
      apply denote_plus_cls in H as (? & ? & ->)
  | denote (Grp _) _ _ _ _ =>
      let H1 := fresh "H" in
      destruct H as (? & H1 & ->); denote_inv H1
  | denote (lit _) _ _ _ _ => apply denote_lit in H as [-> ->]
  | denote (Chr _) _ _ _ _ => destruct H as [-> ->]
  | denote Bol _ _ _ _ => destruct H as (? & -> & ->)
  | denote Eol _ _ _ _ => destruct H as (? & -> & ->)
  | denote Eps _ _ _ _ => destruct H as [-> ->]
  end.

(* ===================================================================== *)
(** ** Filename grammar                                                 *)
(* ===================================================================== *)

Lemma denote_fileNamePattern (i : nat) (w : string) (cs : list string) (tl : string) :
  denote fileNamePattern i w cs tl <->
  i = 0%nat /\ tl = ""
  /\ exists k, well_formed k /\ w = artifact_name k /\ cs = groups_of k.
Proof.
  unfold fileNamePattern. split.
  - intros H. denote_inv H. subst.
    split; [reflexivity|]. split; [reflexivity|].
    match goal with
    | |- context [ [?p] ++ [] ++ [?v] ++ [] ++ [?d] ++ [] ++ [?t] ++ [] ++ [?sw]
                       ++ [] ++ [?cd] ++ [] ++ [?n] ++ _ ] =>
        exists (RawTokens p v d t sw cd n)
    end.
    unfold well_formed, run, six_digits, artifact_name, groups_of. simpl.
    repeat split; assumption.
  - intros (-> & -> & [p v d t sw cd n] & Hk & -> & ->).
    unfold well_formed, run, six_digits in Hk. simpl in Hk.
    destruct Hk as ([] & [] & [] & [] & [] & [] & []).
    unfold artifact_name, groups_of. simpl r_project. simpl r_vehicle.
    simpl r_date. simpl r_time. simpl r_swVersion. simpl r_createDate.
    simpl r_ticket.
    apply (denote_seq_intro _ _ _ "" []); [simpl; auto|].
    apply (denote_seq_intro _ _ _ p [p]); [now apply denote_grp_plus_cls|].
    apply (denote_seq_intro _ _ _ "_" []); [simpl; auto|].
    apply (denote_seq_intro _ _ _ v [v]); [now apply denote_grp_plus_cls|].
    apply (denote_seq_intro _ _ _ "_" []); [simpl; auto|].
    apply (denote_seq_intro _ _ _ d [d]); [now apply denote_grp_times_cls|].
    apply (denote_seq_intro _ _ _ "_" []); [simpl; auto|].
    apply (denote_seq_intro _ _ _ t [t]); [now apply denote_grp_times_cls|].
    apply (denote_seq_intro _ _ _ "_" []); [simpl; auto|].
    apply (denote_seq_intro _ _ _ sw [sw]); [now apply denote_grp_plus_cls|].
    apply (denote_seq_intro _ _ _ "_" []); [simpl; auto|].
    apply (denote_seq_intro _ _ _ cd [cd]); [now apply denote_grp_times_cls|].
    apply (denote_seq_intro _ _ _ "_DATACO-" []); [now apply denote_lit|].
    apply (denote_seq_intro _ _ _ n [n]); [now apply denote_grp_plus_cls|].
    rewrite <- (str_app_nil_r ".jump") at 1.
    apply (denote_seq_intro _ _ _ ".jump" [] "" []); [now apply denote_lit|].
    simpl. auto.
Qed.

(** A name of the grammar determines its tokens. *)
Lemma artifact_name_inj (k k' : raw_tokens) :
  well_formed k -> well_formed k' -> artifact_name k = artifact_name k' -> k = k'.
Proof.
  destruct k as [p v d t sw cd n], k' as [p' v' d' t' sw' cd' n'].
  unfold well_formed, run, six_digits, artifact_name. simpl.
  intros ([_ Hp] & [_ Hv] & [_ Hd] & [_ Ht] & [_ Hsw] & [_ Hcd] & [_ Hn])
         ([_ Hp'] & [_ Hv'] & [_ Hd'] & [_ Ht'] & [_ Hsw'] & [_ Hcd'] & [_ Hn']) E.
  apply all_digit_not_underscore in Hd, Ht, Hsw, Hcd, Hd', Ht', Hsw', Hcd'.
  apply (str_split_unique not_underscore "_" eq_refl) in E as [-> E]; [|assumption..].
  apply (str_split_unique not_underscore "_" eq_refl) in E as [-> E]; [|assumption..].
  apply (str_split_unique not_underscore "_" eq_refl) in E as [-> E]; [|assumption..].
  apply (str_split_unique not_underscore "_" eq_refl) in E as [-> E]; [|assumption..].
  apply (str_split_unique not_underscore "_" eq_refl) in E as [-> E]; [|assumption..].
  apply (str_split_unique not_underscore "_" eq_refl) in E as [-> E]; [|assumption..].
  apply (str_app_inv_head "DATACO-") in E.
  apply (str_split_unique is_digit "." eq_refl) in E as [-> _]; [|assumption..].
  reflexivity.
Qed.

(** What [match] returns on a name of the grammar, and only there. *)
Lemma str_match_fileName_inv (fileName : string) (res : list string) :
  str_match fileNamePattern fileName = Some res ->
  exists k, well_formed k /\ fileName = artifact_name k
            /\ res = fileName :: groups_of k.
Proof.
  intros H. apply search_sound in H as (pre & w & cs & tl & -> & Hl & ->).
  apply denote_fileNamePattern in Hl as (Hi & -> & k & Hk & -> & ->).
  simpl in Hi. apply str_length_zero in Hi as ->. simpl.
  rewrite str_app_nil_r. eauto.
Qed.

Lemma str_match_fileName (k : raw_tokens) :
  well_formed k ->
  str_match fileNamePattern (artifact_name k)
  = Some (artifact_name k :: groups_of k).
Proof.
  intros Hk.
  destruct (search_complete fileNamePattern "" 0 (artifact_name k) (groups_of k) "")
    as [res Hres].
  { apply denote_fileNamePattern.
    split; [reflexivity|]. split; [reflexivity|]. exists k. auto. }
  simpl in Hres. rewrite str_app_nil_r in Hres.
  unfold str_match. rewrite Hres.
  apply str_match_fileName_inv in Hres as (k' & Hk' & E & ->).
  now rewrite <- (artifact_name_inj k k' Hk Hk' E).
Qed.

Lemma str_match_fileName_none (fileName : string) :
  ~ matches_grammar fileName -> str_match fileNamePattern fileName = None.
Proof.
  intros Hn. destruct (str_match fileNamePattern fileName) as [res|] eqn:E; [|reflexivity].
  apply str_match_fileName_inv in E as (k & Hk & -> & _).
  exfalso. apply Hn. exists k. auto.
Qed.

Lemma parseFileName_grammar (k : raw_tokens) :
  well_formed k -> parseFileName (artifact_name k) = Some (meta_of k).
Proof.
  intros Hk. unfold parseFileName. rewrite (str_match_fileName k Hk). reflexivity.
Qed.

Lemma parseFileName_Some (fileName : string) (m : Meta.t) :
  parseFileName fileName = Some m ->
  exists k, well_formed k /\ fileName = artifact_name k /\ m = meta_of k.
Proof.
  unfold parseFileName. intros H.
  destruct (str_match fileNamePattern fileName) as [res|] eqn:E; [|discriminate].
  apply str_match_fileName_inv in E as (k & Hk & -> & ->).
  simpl in H. injection H as <-. eauto.
Qed.

Lemma parseFileName_None (fileName : string) :
  ~ matches_grammar fileName -> parseFileName fileName = None.
Proof.
  intros Hn. unfold parseFileName. now rewrite (str_match_fileName_none _ Hn).
Qed.

Lemma formatDate_six (dd mm yy : string) :
  String.length dd = 2%nat -> String.length mm = 2%nat -> String.length yy = 2%nat ->
  formatDate (dd +:+ mm +:+ yy) = dd +:+ "/" +:+ mm +:+ "/20" +:+ yy.
Proof.
  intros Hd Hm Hy.
  destruct dd as [|d1 [|d2 [|? ?]]]; try discriminate.
  destruct mm as [|m1 [|m2 [|? ?]]]; try discriminate.
  destruct yy as [|y1 [|y2 [|? ?]]]; try discriminate.
  reflexivity.
Qed.

Lemma formatTime_six (hh mi ss : string) :
  String.length hh = 2%nat -> String.length mi = 2%nat -> String.length ss = 2%nat ->
  formatTime (hh +:+ mi +:+ ss) = hh +:+ ":" +:+ mi +:+ ":" +:+ ss.
Proof.
  intros Hh Hm Hs.
  destruct hh as [|h1 [|h2 [|? ?]]]; try discriminate.
  destruct mi as [|m1 [|m2 [|? ?]]]; try discriminate.
  destruct ss as [|s1 [|s2 [|? ?]]]; try discriminate.
  reflexivity.
Qed.

(* ===================================================================== *)
(** ** The pattern of a session always parses                           *)
(* ===================================================================== *)

Lemma escape_class_is_syntax (c : ascii) :
  existsb (Ascii.eqb c) (list_ascii_of_string ".*+?^${}()|[]\") = is_syntax c.
Proof. destruct c as [[] [] [] [] [] [] [] []]; reflexivity. Qed.

Lemma length_escapeRegExp (s : string) :
  (String.length s <= String.length (escapeRegExp s))%nat.
Proof.
  induction s as [|c s IH]; cbn [escapeRegExp String.length]; [lia|].
  rewrite escape_class_is_syntax. destruct (is_syntax c); simpl; lia.
Qed.

Lemma parse_after_escaped (self : string -> option (regex * string))
      (q : bool) (a : regex) (t tl : string) :
  parse_after self q a (escapeRegExp t +:+ String "_" tl)
  = match self (escapeRegExp t +:+ String "_" tl) with
    | Some (r, s3) => Some (Seq a r, s3)
    | None => None
    end.
Proof.
  destruct t as [|c t]; [reflexivity|].
  cbn [escapeRegExp]. rewrite escape_class_is_syntax.
  destruct (is_syntax c) eqn:Hc; [reflexivity|].
  cbn [String.append parse_after]. now rewrite Hc.
Qed.

Lemma parse_escaped (sn tl : string) :
  forall n : nat,
    parse_seq (String.length sn + n) (escapeRegExp sn +:+ String "_" tl)
    = match parse_seq n (String "_" tl) with
      | Some (r, rem) => Some (lit_then sn r, rem)
      | None => None
      end.
Proof.
  induction sn as [|c t IH]; intros n.
  - simpl. destruct (parse_seq n (String "_" tl)) as [[r rem]|]; reflexivity.
  - cbn [String.length Nat.add parse_seq escapeRegExp lit_then].
    rewrite escape_class_is_syntax.
    destruct (is_syntax c) eqn:Hc.
    + cbn [String.append]. unfold parse_step.
      change (is_syntax "\") with true. cbn [Ascii.eqb Bool.eqb].
      rewrite Hc, parse_after_escaped, IH.
      destruct (parse_seq n (String "_" tl)) as [[r rem]|]; reflexivity.
    + cbn [String.append]. unfold parse_step.
      rewrite Hc, parse_after_escaped, IH.
      destruct (parse_seq n (String "_" tl)) as [[r rem]|]; reflexivity.
Qed.

Lemma parse_trackTail (k : nat) :
  parse_seq (30 + k) "_s\d+_s_([^_]+)_s\d+_([^_]+)$" = Some (trackTail, "").
Proof. reflexivity. Qed.

(** [new RegExp] never throws on the text built for a session. *)
Theorem RegExp_trackSource (sessionName : string) :
  RegExp (trackSource sessionName) = Some (trackRegex sessionName).
Proof.
  unfold RegExp, trackSource, trackRegex.
  assert (E : exists k,
             S (String.length (escapeRegExp sessionName
                                 +:+ "_s\d+_s_([^_]+)_s\d+_([^_]+)$"))
             = (String.length sessionName + (30 + k))%nat).
  { exists (String.length (escapeRegExp sessionName) - String.length sessionName)%nat.
    rewrite str_length_app.
    pose proof (length_escapeRegExp sessionName).
    change (String.length "_s\d+_s_([^_]+)_s\d+_([^_]+)$") with 29%nat. lia. }
  destruct E as [k ->].
  rewrite parse_escaped, parse_trackTail. reflexivity.
Qed.

(* ===================================================================== *)
(** ** Track tokens                                                     *)
(* ===================================================================== *)

Lemma denote_lit_then (s : string) (k : regex) (i : nat) (w : string)
      (cs : list string) (tl : string) :
  denote (lit_then s k) i w cs tl <->
  exists w2, w = s +:+ w2 /\ denote k (i + String.length s)%nat w2 cs tl.
Proof.
  revert i w. induction s as [|c s IH]; intros i w; cbn [lit_then].
  - simpl. rewrite Nat.add_0_r. split; [eauto | now intros (w2 & -> & H)].
  - split.
    + intros (w1 & c1 & w2 & c2 & [-> ->] & H2 & -> & ->).
      apply IH in H2 as (w3 & -> & H3). exists w3. split; [reflexivity|].
      simpl in *. now replace (i + S (String.length s))%nat
        with (i + 1 + String.length s)%nat by lia.
    + intros (w2 & -> & H). exists (String c ""), [], (s +:+ w2), cs.
      split; [simpl; auto|]. split; [|auto]. apply IH. exists w2.
      split; [reflexivity|]. simpl in *.
      now replace (i + 1 + String.length s)%nat
        with (i + S (String.length s))%nat by lia.
Qed.

Lemma denote_trackTail (i : nat) (w : string) (cs : list string) (tl : string) :
  denote trackTail i w cs tl <->
  tl = ""
  /\ exists d1 view d2 clip,
      track_fields d1 view d2 clip
      /\ w = "_s" +:+ d1 +:+ "_s_" +:+ view +:+ "_s" +:+ d2 +:+ "_" +:+ clip
      /\ cs = [view; clip].
Proof.
  unfold trackTail. split.
  - intros H. denote_inv H. simpl in *. subst. split; [reflexivity|].
    rewrite !str_app_nil_r.
    eexists _, _, _, _. refine (conj _ (conj eq_refl eq_refl)).
    unfold track_fields, run. repeat split; assumption.
  - intros (-> & d1 & view & d2 & clip & (Hd1 & Hv & Hd2 & Hc) & -> & ->).
    destruct Hd1, Hv, Hd2, Hc.
    apply (denote_seq_intro _ _ _ "_" []); [simpl; auto|].
    apply (denote_seq_intro _ _ _ "s" []); [simpl; auto|].
    apply (denote_seq_intro _ _ _ d1 []); [now apply denote_plus_cls|].
    apply (denote_seq_intro _ _ _ "_" []); [simpl; auto|].
    apply (denote_seq_intro _ _ _ "s" []); [simpl; auto|].
    apply (denote_seq_intro _ _ _ "_" []); [simpl; auto|].
    apply (denote_seq_intro _ _ _ view [view]).
    { exists []. split; [|reflexivity].
      rewrite <- (str_app_nil_r view) at 1.
      apply (denote_seq_intro _ _ _ view [] "" []);
        [now apply denote_plus_cls | simpl; auto]. }
    apply (denote_seq_intro _ _ _ "_" []); [simpl; auto|].
    apply (denote_seq_intro _ _ _ "s" []); [simpl; auto|].
    apply (denote_seq_intro _ _ _ d2 []); [now apply denote_plus_cls|].
    apply (denote_seq_intro _ _ _ "_" []); [simpl; auto|].
    rewrite <- (str_app_nil_r clip) at 1.
    apply (denote_seq_intro _ _ _ clip [clip] "" []).
    { exists []. split; [|reflexivity].
      rewrite <- (str_app_nil_r clip) at 1.
      apply (denote_seq_intro _ _ _ clip [] "" []);
        [now apply denote_plus_cls | simpl; auto]. }
    apply (denote_seq_intro _ _ _ "" [] "" []); simpl; auto.
Qed.

(** A character outside [p] followed by a word over [p], at the end of a
    string, splits it in one way only. *)
Lemma split_unique_r (p : ascii -> bool) (c : ascii) :
  p c = false ->
  forall a a' w w' : string,
    Str.all p w = true -> Str.all p w' = true ->
    a +:+ String c w = a' +:+ String c w' -> a = a' /\ w = w'.
Proof.
  intros Hc.
  assert (Hno : forall (x : string) (w v : string),
             Str.all p w = true -> w <> x +:+ String c v).
  { intros x w v Hw ->. rewrite str_all_app in Hw. simpl in Hw.
    rewrite Hc in Hw. simpl in Hw. now rewrite andb_false_r in Hw. }
  induction a as [|x a IH]; intros [|x' a'] w w' Hw Hw' E; simpl in E.
  - injection E as ->. auto.
  - injection E as <- E. exfalso. exact (Hno a' w w' Hw E).
  - injection E as -> E. exfalso. exact (Hno a w' w Hw' (eq_sym E)).
  - injection E as -> E. destruct (IH a' w w' Hw Hw' E) as [-> ->]. auto.
Qed.

Lemma track_reassoc (pre sn d1 view d2 clip : string) :
  pre +:+ track_shape sn d1 view d2 clip
  = (((pre +:+ sn +:+ "_s" +:+ d1 +:+ "_s") +:+ String "_" view)
       +:+ String "_" ("s" +:+ d2)) +:+ String "_" clip.
Proof. unfold track_shape. rewrite !str_app_assoc. reflexivity. Qed.

(** The view and the clip of a token are the third and the last of its
    underscore-separated fields from the right, whatever precedes. *)
Lemma ends_with_track_unique (sn token view clip view' clip' : string) :
  ends_with_track sn token view clip -> ends_with_track sn token view' clip' ->
  view = view' /\ clip = clip'.
Proof.
  intros (pre & d1 & d2 & (_ & [_ Hv] & [_ Hd2] & [_ Hc]) & ->)
         (pre' & d1' & d2' & (_ & [_ Hv'] & [_ Hd2'] & [_ Hc']) & E).
  rewrite !track_reassoc in E.
  apply (split_unique_r not_underscore "_" eq_refl) in E as [E ->];
    [|assumption..].
  apply (split_unique_r not_underscore "_" eq_refl) in E as [E _].
  - apply (split_unique_r not_underscore "_" eq_refl) in E as [_ ->];
      [auto | assumption..].
  - simpl. now apply all_digit_not_underscore.
  - simpl. now apply all_digit_not_underscore.
Qed.

Lemma str_match_track_sound (sn token : string) (res : list string) :
  str_match (trackRegex sn) token = Some res ->
  exists whole view clip,
    res = [whole; view; clip] /\ ends_with_track sn token view clip.
Proof.
  intros H. apply search_sound in H as (pre & w & cs & tl & -> & Hl & ->).
  apply denote_lit_then in Hl as (w2 & -> & Hl).
  apply denote_trackTail in Hl as (-> & d1 & view & d2 & clip & Hf & -> & ->).
  exists (sn +:+ "_s" +:+ d1 +:+ "_s_" +:+ view +:+ "_s" +:+ d2 +:+ "_" +:+ clip),
    view, clip.
  split; [reflexivity|]. exists pre, d1, d2. split; [assumption|].
  unfold track_shape. now rewrite str_app_nil_r.
Qed.

Lemma str_match_track_complete (sn token view clip : string) :
  ends_with_track sn token view clip ->
  exists whole, str_match (trackRegex sn) token = Some [whole; view; clip].
Proof.
  intros Hends. pose proof Hends as (pre & d1 & d2 & Hf & ->).
  destruct (search_complete (trackRegex sn) pre 0
              (track_shape sn d1 view d2 clip) [view; clip] "") as [res Hres].
  { apply denote_lit_then. eexists. split; [reflexivity|].
    apply denote_trackTail. split; [reflexivity|].
    exists d1, view, d2, clip. auto. }
  rewrite str_app_nil_r in Hres. unfold str_match. rewrite Hres.
  apply str_match_track_sound in Hres as (whole & view' & clip' & -> & Hends').
  destruct (ends_with_track_unique _ _ _ _ _ _ Hends Hends') as [-> ->]. eauto.
Qed.

Lemma str_match_track_None (sn token : string) :
  str_match (trackRegex sn) token = None <->
  ~ exists view clip, ends_with_track sn token view clip.
Proof.
  split.
  - intros Hn (view & clip & Hends).
    apply str_match_track_complete in Hends as [whole E]. congruence.
  - intros Hno. destruct (str_match (trackRegex sn) token) as [res|] eqn:E; [|reflexivity].
    apply str_match_track_sound in E as (whole & view & clip & _ & Hends).
    exfalso. eauto.
Qed.

(* ===================================================================== *)
(** ** padStart                                                         *)
(* ===================================================================== *)

Lemma padStart_short (s : string) :
  (String.length s < 4)%nat ->
  padStart 4 "0" s = Str.repeat "0" (4 - String.length s) +:+ s
  /\ String.length (padStart 4 "0" s) = 4%nat.
Proof.
  destruct s as [|a [|b [|c [|d s]]]]; simpl; intros H; try lia; split; reflexivity.
Qed.

Lemma padStart_long (s : string) :
  (4 <= String.length s)%nat -> padStart 4 "0" s = s.
Proof.
  intros H. unfold padStart.
  apply Nat.leb_le in H. now rewrite H.
Qed.

(* ===================================================================== *)
(** ** The content parser                                               *)
(* ===================================================================== *)

Lemma parseLine_Pushed (sn line : string) (ev : Event.t) :
  parseLine sn line = Pushed ev <->
  exists trackfile camera frameNumber eventParts view clip,
    candidate line trackfile camera frameNumber eventParts
    /\ ends_with_track sn trackfile view clip
    /\ ev = event_of sn (trim line) view clip camera frameNumber eventParts.
Proof.
  unfold parseLine, candidate. rewrite RegExp_trackSource.
  destruct (String.eqb_spec (trim line) "") as [E0|E0]; simpl.
  { split; [discriminate|]. intros (? & ? & ? & ? & ? & ? & (H & _) & _). contradiction. }
  destruct (Str.startsWith "#" (trim line)) eqn:Eh; simpl.
  { split; [discriminate|]. intros (? & ? & ? & ? & ? & ? & (_ & H & _) & _). discriminate. }
  destruct (split_white (trim line)) as [|tok [|cam [|frame [|e1 rest]]]] eqn:Es; simpl;
    try (split; [discriminate|];
         intros (? & ? & ? & ? & ? & ? & (_ & _ & H & Hne) & _);
         try discriminate H; injection H as <- <- <- <-; congruence).
  destruct (str_match (trackRegex sn) tok) as [res|] eqn:Em.
  - apply str_match_track_sound in Em as (whole & view & clip & -> & Hends).
    split.
    + intros [= <-]. exists tok, cam, frame, (e1 :: rest), view, clip.
      repeat split; auto; discriminate.
    + intros (? & ? & ? & ? & view' & clip' & (_ & _ & H & _) & Hends' & ->).
      injection H as <- <- <- <-.
      destruct (ends_with_track_unique _ _ _ _ _ _ Hends Hends') as [-> ->].
      reflexivity.
  - split; [discriminate|].
    intros (? & ? & ? & ? & view' & clip' & (_ & _ & H & _) & Hends' & _).
    injection H as <- <- <- <-.
    apply str_match_track_None in Em. exfalso. eauto.
Qed.

Lemma parseLine_not_Thrown (sn line : string) : parseLine sn line <> Thrown.
Proof.
  unfold parseLine. rewrite RegExp_trackSource.
  destruct (String.eqb (trim line) "" || Str.startsWith "#" (trim line)); [discriminate|].
  destruct (List.length (split_white (trim line)) <? 4)%nat; [discriminate|].
  destruct (split_white (trim line)) as [|tok [|cam [|frame parts]]]; try discriminate.
  destruct (str_match (trackRegex sn) tok) as [res|] eqn:Em; [|discriminate].
  apply str_match_track_sound in Em as (whole & view & clip & -> & _). discriminate.
Qed.

Lemma parseLines_total (sn : string) (lines : list string) :
  exists events, parseLines sn lines = Some events.
Proof.
  induction lines as [|line more [events IH]]; simpl; [eauto|].
  pose proof (parseLine_not_Thrown sn line) as Hn.
  destruct (parseLine sn line); [eauto | rewrite IH; eauto | contradiction].
Qed.

Lemma parseLines_In (sn : string) (lines : list string) (events : list Event.t) :
  parseLines sn lines = Some events ->
  forall ev, In ev events <-> exists line, In line lines /\ parseLine sn line = Pushed ev.
Proof.
  revert events. induction lines as [|line more IH]; simpl; intros events H ev.
  - injection H as <-. split; [intros [] | intros (? & [] & _)].
  - destruct (parseLine sn line) as [|ev0|] eqn:E; [| |discriminate].
    + rewrite (IH events H ev). split.
      * intros (l & Hl & Hp). eauto.
      * intros (l & [<- | Hl] & Hp); [congruence | eauto].
    + destruct (parseLines sn more) as [evs|]; [|discriminate].
      injection H as <-. simpl. rewrite (IH evs eq_refl ev). split.
      * intros [<- | (l & Hl & Hp)]; eauto.
      * intros (l & [<- | Hl] & Hp); [left; congruence | eauto].
Qed.

Lemma parseJumpFileContent_total (content sn : string) :
  exists events, parseJumpFileContent content sn = Some events.
Proof. apply parseLines_total. Qed.

(* ===================================================================== *)
(** ** Sorting                                                          *)
(* ===================================================================== *)

Lemma includes_In (xs : list string) (x : string) : includes xs x = true <-> In x xs.
Proof.
  unfold includes. rewrite existsb_exists. split.
  - intros (y & Hy & E). apply String.eqb_eq in E. congruence.
  - intros H. exists x. split; [assumption | apply String.eqb_refl].
Qed.

Lemma insert_by_perm {A : Type} (cmp : A -> A -> Z) (x : A) (l : list A) :
  Permutation (insert_by cmp x l) (x :: l).
Proof.
  induction l as [|y t IH]; simpl; [reflexivity|].
  destruct (cmp x y <=? 0)%Z; [reflexivity|].
  rewrite IH. apply perm_swap.
Qed.

Lemma sort_by_perm {A : Type} (cmp : A -> A -> Z) (l : list A) :
  Permutation (sort_by cmp l) l.
Proof.
  induction l as [|x t IH]; simpl; [reflexivity|].
  rewrite insert_by_perm. now apply perm_skip.
Qed.

Section SortedBy.

Context {A : Type} (cmp : A -> A -> Z).

(** A consistent comparator: any two elements are comparable, and
    "not after" is transitive. *)
Hypothesis cmp_total : forall a b, (cmp a b <= 0)%Z \/ (cmp b a <= 0)%Z.
Hypothesis cmp_trans :
  forall a b c, (cmp a b <= 0)%Z -> (cmp b c <= 0)%Z -> (cmp a c <= 0)%Z.

Lemma insert_by_sorted (x : A) (l : list A) :
  StronglySorted (not_after cmp) l -> StronglySorted (not_after cmp) (insert_by cmp x l).
Proof using cmp_total cmp_trans.
  induction 1 as [|y t Hs IH Hy]; simpl.
  - constructor; [constructor | constructor].
  - destruct (Z.leb_spec (cmp x y) 0) as [Hle|Hgt].
    + constructor; [now constructor|].
      constructor; [exact Hle|].
      eapply List.Forall_impl; [|exact Hy]. intros z Hz. exact (cmp_trans x y z Hle Hz).
    + constructor; [exact IH|].
      apply (Permutation_Forall (Permutation_sym (insert_by_perm cmp x t))).
      constructor; [|exact Hy].
      destruct (cmp_total y x) as [H|H]; [exact H | unfold not_after; lia].
Qed.

Lemma sort_by_sorted (l : list A) : StronglySorted (not_after cmp) (sort_by cmp l).
Proof using cmp_total cmp_trans.
  induction l as [|x t IH]; simpl; [constructor | now apply insert_by_sorted].
Qed.

End SortedBy.

(** In a sorted list the first element is not after any element, and no
    element is after the last. *)
Lemma sorted_first {A : Type} (R : A -> A -> Prop) (l : list A) (m : A) :
  (forall a, R a a) -> StronglySorted R l -> nth_error l 0 = Some m ->
  In m l /\ forall d, In d l -> R m d.
Proof.
  intros Hrefl Hs. destruct Hs as [|x t Hs Hx]; simpl; [discriminate|].
  intros [= <-]. split; [now left|].
  intros d [<- | Hd]; [apply Hrefl|].
  rewrite List.Forall_forall in Hx. now apply Hx.
Qed.

Lemma sorted_last {A : Type} (R : A -> A -> Prop) (l : list A) (m : A) :
  (forall a, R a a) -> StronglySorted R l ->
  nth_error l (List.length l - 1) = Some m ->
  In m l /\ forall d, In d l -> R d m.
Proof.
  intros Hrefl. induction 1 as [|x t Hs IH Hx]; simpl; [discriminate|].
  rewrite Nat.sub_0_r. destruct t as [|y t'].
  - simpl. intros [= <-]. split; [now left|]. intros d [<- | []]. apply Hrefl.
  - intros Hn. simpl in IH. rewrite Nat.sub_0_r in IH.
    change (nth_error (x :: y :: t') (List.length (y :: t')))
      with (nth_error (y :: t') (List.length t')) in Hn.
    destruct (IH Hn) as [Hin Hall]. split; [now right|].
    intros d [<- | Hd]; [|now apply Hall].
    rewrite List.Forall_forall in Hx. now apply Hx.
Qed.

(** The default comparison is the order [String.leb] of the code units. *)
Lemma defaultCompare_le (a b : string) :
  (defaultCompare a b <= 0)%Z <-> String.leb a b = true.
Proof.
  unfold defaultCompare, String.leb.
  destruct (String.compare a b); split; intros; try reflexivity; try lia; discriminate.
Qed.

Lemma defaultCompare_total (a b : string) :
  (defaultCompare a b <= 0)%Z \/ (defaultCompare b a <= 0)%Z.
Proof. rewrite !defaultCompare_le. apply String.leb_total. Qed.

Lemma defaultCompare_trans (a b c : string) :
  (defaultCompare a b <= 0)%Z -> (defaultCompare b c <= 0)%Z ->
  (defaultCompare a c <= 0)%Z.
Proof.
  rewrite !defaultCompare_le. intros Hab Hbc.
  assert (H : String.le a c).
  { transitivity b; unfold String.le; [now rewrite Hab | now rewrite Hbc]. }
  unfold String.le in H. now destruct (String.leb a c).
Qed.

Lemma defaultCompare_refl (a : string) : (defaultCompare a a <= 0)%Z.
Proof. destruct (defaultCompare_total a a); assumption. Qed.

Lemma defaultCompare_antisym (a b : string) :
  Z.sgn (defaultCompare a b) = (- Z.sgn (defaultCompare b a))%Z.
Proof.
  unfold defaultCompare. rewrite (String.compare_antisym a b).
  destruct (String.compare b a); reflexivity.
Qed.

(* ===================================================================== *)
(** ** The scanner                                                      *)
(* ===================================================================== *)

Lemma substring_skip_more (w r : string) (n m : nat) :
  substring (String.length w + n) m (w +:+ r) = substring n m r.
Proof. induction w as [|c w IH]; simpl; [reflexivity | apply IH]. Qed.

Lemma endsWith_refl (p : string) : Str.endsWith p p = true.
Proof.
  unfold Str.endsWith. rewrite Nat.leb_refl, Nat.sub_diag, str_substring_0_all.
  now rewrite String.eqb_refl.
Qed.

Lemma endsWith_app_r (p x s : string) :
  Str.endsWith p s = true -> Str.endsWith p (x +:+ s) = true.
Proof.
  unfold Str.endsWith. intros [Hl He]%andb_true_iff.
  apply Nat.leb_le in Hl. rewrite str_length_app.
  replace (String.length x + String.length s - String.length p)%nat
    with (String.length x + (String.length s - String.length p))%nat by lia.
  rewrite substring_skip_more, He.
  apply andb_true_iff. split; [apply Nat.leb_le; lia | reflexivity].
Qed.

Lemma endsWith_artifact_name (k : raw_tokens) :
  Str.endsWith ".jump" (artifact_name k) = true.
Proof.
  unfold artifact_name. repeat apply endsWith_app_r. apply endsWith_refl.
Qed.

Lemma scanDirectory_Listing (path_join : string -> string -> string)
      (dirPath : string) (entries : list dirent) (subtasks : list string) :
  scanDirectory path_join dirPath (Listing entries) subtasks
  = flat_map (scanEntry path_join dirPath subtasks) entries.
Proof. reflexivity. Qed.

Lemma scanFile_unreadable (name fullPath : string) (stat : option Stats)
      (content : option string) (subtasks : list string) :
  stat = None \/ content = None ->
  scanFile name fullPath stat content subtasks = [].
Proof.
  intros H. unfold scanFile.
  destruct (parseFileName name) as [m|]; [|reflexivity].
  destruct (String.eqb (Meta.datacoNumber m) ""); [reflexivity|].
  destruct (negb (includes subtasks (Meta.datacoNumber m))); [reflexivity|].
  destruct stat as [stats|]; [|reflexivity].
  destruct content as [text|]; [|reflexivity].
  destruct H; discriminate.
Qed.

Lemma scanFile_no_grammar (name fullPath : string) (stat : option Stats)
      (content : option string) (subtasks : list string) :
  ~ matches_grammar name -> scanFile name fullPath stat content subtasks = [].
Proof. intros H. unfold scanFile. now rewrite (parseFileName_None name H). Qed.

(** A file of the grammar that can be read is pushed exactly when its
    ticket is one of the accepted ones. *)
Lemma scanFile_grammar (k : raw_tokens) (fullPath : string) (stats : Stats)
      (text : string) (subtasks : list string) :
  well_formed k ->
  exists events,
    parseJumpFileContent text (Meta.sessionName (meta_of k)) = Some events
    /\ scanFile (artifact_name k) fullPath (Some stats) (Some text) subtasks
       = if includes subtasks (r_ticket k)
         then [fileRecord (artifact_name k) fullPath (meta_of k) stats events]
         else [].
Proof.
  intros Hk.
  destruct (parseJumpFileContent_total text (Meta.sessionName (meta_of k)))
    as [events He].
  exists events. split; [exact He|].
  unfold scanFile. rewrite (parseFileName_grammar k Hk).
  destruct Hk as (_ & _ & _ & _ & _ & _ & [Hne _]).
  change (Meta.datacoNumber (meta_of k)) with (r_ticket k).
  destruct (String.eqb_spec (r_ticket k) "") as [E|_]; [contradiction|].
  destruct (includes subtasks (r_ticket k)); cbn [negb]; [|reflexivity].
  now rewrite He.
Qed.

(** Entries that push nothing, wherever they are listed, leave the scan of
    the rest of the tree as it is. *)
Lemma scan_plug_silent (path_join : string -> string -> string)
      (subtasks : list string) (entries : list dirent) :
  (forall dirPath, flat_map (scanEntry path_join dirPath subtasks) entries = []) ->
  forall (c : context) (dirPath : string),
    scanDirectory path_join dirPath (plug c entries) subtasks
    = scanDirectory path_join dirPath (plug c []) subtasks.
Proof.
  intros Hsilent. induction c as [before after | before name inner IH after];
    intros dirPath; cbn [plug]; rewrite !scanDirectory_Listing.
  - rewrite !flat_map_app, Hsilent. reflexivity.
  - rewrite !flat_map_app. cbn [flat_map scanEntry entry_name].
    now rewrite IH.
Qed.

(** The scan of a tree with a hole is the scan of what comes before the
    hole, the scan of the entries in the hole under the path of their
    directory, and the scan of what comes after it. *)
Lemma scan_plug_split (path_join : string -> string -> string) (subtasks : list string)
      (c : context) :
  forall dirPath, exists pre post, forall entries,
    scanDirectory path_join dirPath (plug c entries) subtasks
    = pre ++ flat_map (scanEntry path_join (hole_path path_join dirPath c) subtasks)
                      entries
          ++ post.
Proof.
  induction c as [before after | before name inner IH after]; intros dirPath.
  - exists (flat_map (scanEntry path_join dirPath subtasks) before),
           (flat_map (scanEntry path_join dirPath subtasks) after).
    intros entries. cbn [plug hole_path].
    now rewrite scanDirectory_Listing, !flat_map_app.
  - destruct (IH (path_join dirPath name)) as (pre & post & Hin).
    exists (flat_map (scanEntry path_join dirPath subtasks) before ++ pre),
           (post ++ flat_map (scanEntry path_join dirPath subtasks) after).
    intros entries. cbn [plug hole_path].
    rewrite scanDirectory_Listing, flat_map_app.
    cbn [flat_map scanEntry entry_name]. rewrite Hin, <- !app_assoc. reflexivity.
Qed.

(** A file of the grammar gives one record when its ticket is accepted
    and its stat and read succeed, and nothing otherwise. *)
Lemma scanFile_included (k : raw_tokens) (fullPath : string) (stat : option Stats)
      (content : option string) (subtasks : list string) :
  well_formed k ->
  (In (r_ticket k) subtasks /\ stat <> None /\ content <> None
   /\ exists f, scanFile (artifact_name k) fullPath stat content subtasks = [f]
                /\ File.fileName f = artifact_name k
                /\ File.filePath f = fullPath
                /\ File.datacoNumber f = r_ticket k)
  \/ (~ (In (r_ticket k) subtasks /\ stat <> None /\ content <> None)
      /\ scanFile (artifact_name k) fullPath stat content subtasks = []).
Proof.
  intros Hk. destruct stat as [stats|], content as [text|];
    try (right; split;
         [intros (_ & H1 & H2); congruence
         | apply scanFile_unreadable; auto]).
  destruct (scanFile_grammar k fullPath stats text subtasks Hk) as (events & _ & Hscan).
  rewrite Hscan. destruct (includes subtasks (r_ticket k)) eqn:Ei.
  - left. apply includes_In in Ei. split; [exact Ei|].
    split; [discriminate|]. split; [discriminate|].
    eexists. split; [reflexivity|]. repeat split.
  - right. split; [|reflexivity]. intros (Hin & _).
    apply includes_In in Hin. congruence.
Qed.

Lemma app_cons_neq {A : Type} (pre post : list A) (x : A) :
  pre ++ x :: post <> pre ++ post.
Proof.
  intros E. apply (f_equal (@List.length A)) in E.
  rewrite !length_app in E. simpl in E. lia.
Qed.

(* ===================================================================== *)
(** ** replace                                                          *)
(* ===================================================================== *)

Lemma prefix_app (p s : string) :
  String.prefix p s = true <-> exists r, s = p +:+ r.
Proof.
  revert s. induction p as [|c p IH]; intros s.
  - split; [simpl; eauto | intros _; destruct s; reflexivity].
  - destruct s as [|x s]; simpl; [split; [discriminate | intros [r H]; discriminate]|].
    destruct (ascii_dec c x) as [->|Hne].
    + rewrite IH. split; intros [r H]; exists r; [now rewrite H | now injection H].
    + split; [discriminate | intros [r H]; injection H; congruence].
Qed.

Lemma substring_drop_app (p r : string) :
  substring (String.length p) (String.length (p +:+ r) - String.length p) (p +:+ r) = r.
Proof.
  rewrite str_length_app.
  replace (String.length p + String.length r - String.length p)%nat
    with (String.length r) by lia.
  rewrite str_substring_skip_app. apply str_substring_0_all.
Qed.

Lemma replace_unfold (pat rep s : string) :
  replace pat rep s =
  if String.prefix pat s
  then rep +:+ substring (String.length pat) (String.length s - String.length pat) s
  else match s with
       | EmptyString => s
       | String c t => String c (replace pat rep t)
       end.
Proof. destruct s; reflexivity. Qed.

(** The first occurrence is the one that goes. *)
Lemma replace_first (pat rep a b : string) :
  (forall a' b', a +:+ pat +:+ b = a' +:+ pat +:+ b' ->
                 (String.length a <= String.length a')%nat) ->
  replace pat rep (a +:+ pat +:+ b) = a +:+ rep +:+ b.
Proof.
  induction a as [|c a IH]; intros Hfirst; rewrite replace_unfold.
  - simpl. assert (Hp : String.prefix pat (pat +:+ b) = true)
      by (apply prefix_app; eauto).
    rewrite Hp. now rewrite substring_drop_app.
  - destruct (String.prefix pat (String c a +:+ pat +:+ b)) eqn:Hp.
    + apply prefix_app in Hp as [r Hr].
      specialize (Hfirst "" r Hr). simpl in Hfirst. lia.
    + simpl. f_equal. apply IH. intros a' b' E.
      specialize (Hfirst (String c a') b'). simpl in Hfirst.
      rewrite E in Hfirst. specialize (Hfirst eq_refl). lia.
Qed.

(** Without an occurrence nothing changes. *)
Lemma replace_absent (pat rep s : string) :
  (forall a b, s <> a +:+ pat +:+ b) -> replace pat rep s = s.
Proof.
  induction s as [|c s IH]; intros Hno; rewrite replace_unfold.
  - destruct (String.prefix pat "") eqn:Hp; [|reflexivity].
    apply prefix_app in Hp as [r Hr]. exfalso. exact (Hno "" r Hr).
  - destruct (String.prefix pat (String c s)) eqn:Hp.
    + apply prefix_app in Hp as [r Hr]. exfalso. exact (Hno "" r Hr).
    + f_equal. apply IH. intros a b ->. exact (Hno (String c a) b eq_refl).
Qed.

(* ===================================================================== *)
(** ** The filter and sort view                                         *)
(* ===================================================================== *)

(** What the view computes, and on which arrays. *)
Lemma filteredFiles_run (localeCompare : string -> string -> Z)
      (h : Store.store) (files : Store.ref) (xs : list File.t) (filters : Filters.t) :
  h !! files = Some xs ->
  let out := fresh (dom h) in
  let result := sort_by (compareFiles localeCompare filters)
                        (List.filter (keeps filters) xs) in
  out <> files
  /\ filteredFiles localeCompare (Some files) filters h
     = (out, <[out := result]> (<[out := List.filter (keeps filters) xs]> h)).
Proof.
  intros Hf out result. split.
  - intros E. assert (Hin : files ∈ dom h) by (apply elem_of_dom; eauto).
    rewrite <- E in Hin. exact (is_fresh (dom h) Hin).
  - unfold filteredFiles, Store.array_filter, Store.array_sort, mbind, mret,
      Store.M_bind, Store.M_ret, Store.bind, Store.elements, Store.alloc,
      Store.assign, Store.ret.
    rewrite Hf. cbn [default id]. fold out.
    rewrite lookup_insert_eq. reflexivity.
Qed.

Lemma keeps_unconstrained (filters : Filters.t) (file : File.t) :
  Filters.selectedSubtasks filters = [] ->
  Filters.selectedEventTypes filters = [] ->
  Filters.selectedCameraTypes filters = [] ->
  Filters.selectedProjects filters = [] ->
  Filters.selectedVehicles filters = [] ->
  keeps filters file = true.
Proof. unfold keeps. intros -> -> -> -> ->. reflexivity. Qed.

Lemma filter_all {A : Type} (p : A -> bool) (l : list A) :
  (forall x, p x = true) -> List.filter p l = l.
Proof.
  intros H. induction l as [|x t IH]; simpl; [reflexivity|].
  now rewrite H, IH.
Qed.

(* ===================================================================== *)
(** ** The program on small inputs                                      *)
(* ===================================================================== *)

Example split_commas : split "," "a,b,,c" = ["a"; "b"; ""; "c"].
Proof. reflexivity. Qed.

Example split_empty : split "," "" = [""].
Proof. reflexivity. Qed.

Example split_lines :
  split "010" (String "a" (String "010" (String "b" (String "010" ""))))
  = ["a"; "b"; ""].
Proof. reflexivity. Qed.

Example trim_both_ends :
  trim (String "009" (String " " (String "a" (String " " (String "b"
         (String "013" (String "010" ""))))))) = "a b".
Proof. reflexivity. Qed.

Example split_white_runs : split_white "a  b c" = ["a"; "b"; "c"].
Proof. reflexivity. Qed.

Example split_white_untrimmed : split_white " a " = [""; "a"; ""].
Proof. reflexivity. Qed.

Example padStart_7 : padStart 4 "0" "7" = "0007".
Proof. reflexivity. Qed.

Example padStart_12345 : padStart 4 "0" "12345" = "12345".
Proof. reflexivity. Qed.

Example padStart_cycle : padStart 6 "ab" "x" = "ababax".
Proof. reflexivity. Qed.

Example endsWith_jump :
  Str.endsWith ".jump" "a.jump" = true /\ Str.endsWith ".jump" "jump" = false
  /\ Str.endsWith ".jump" "a.jump.txt" = false.
Proof. repeat split. Qed.

Example escape_dot_star : escapeRegExp "a.b*" = "a\.b\*".
Proof. reflexivity. Qed.

Example uniq_first_seen : uniq ["b"; "a"; "b"; "c"; "a"] = ["b"; "a"; "c"].
Proof. reflexivity. Qed.

Example match_returns_groups :
  str_match fileNamePattern "PRJ_VEH_010124_120000_5_020124_DATACO-42.jump"
  = Some ["PRJ_VEH_010124_120000_5_020124_DATACO-42.jump";
          "PRJ"; "VEH"; "010124"; "120000"; "5"; "020124"; "42"].
Proof. vm_compute. reflexivity. Qed.

Example match_is_anchored :
  str_match fileNamePattern "xPRJ_VEH_010124_120000_5_020124_DATACO-42.jump.bak" = None.
Proof. vm_compute. reflexivity. Qed.

(** A session name with syntax characters is matched literally. *)
Example session_with_syntax_characters :
  parseLine "P.J_V*H_010124_120000_5" "P.J_V*H_010124_120000_5_s1_s_Rear_s60_12 CamB 7 Brake hard"
  = Pushed (event_of "P.J_V*H_010124_120000_5"
                     "P.J_V*H_010124_120000_5_s1_s_Rear_s60_12 CamB 7 Brake hard"
                     "Rear" "12" "CamB" "7" ["Brake"; "hard"])
  /\ parseLine "P.J_V*H_010124_120000_5" "PxJ_VH_010124_120000_5_s1_s_Rear_s60_12 CamB 7 Brake"
     = Skipped.
Proof. split; vm_compute; reflexivity. Qed.

(** Comments, short lines and lines of another session are skipped. *)
Example body_without_matching_line :
  parseJumpFileContent
    (String "#" (String " " (String "x" (String "010"
       ("S_s1_s_V_s2_3 cam 1" +:+ String "010" "T_s1_s_V_s2_3 cam 1 ev")))))
    "S"
  = Some [].
Proof. vm_compute. reflexivity. Qed.

(** Sorting by eventCount: counts 3, 0, 7 come out as 7, 3, 0 descending
    and as 0, 3, 7 ascending. *)
Example sort_by_eventCount :
  map File.eventCount
      (sort_by (compareFiles defaultCompare (no_constraint "eventCount" desc))
               sample_files) = [7; 3; 0]%Z
  /\ map File.eventCount
         (sort_by (compareFiles defaultCompare (no_constraint "eventCount" asc))
                  (sort_by (compareFiles defaultCompare (no_constraint "eventCount" desc))
                           sample_files)) = [0; 3; 7]%Z.
Proof. split; reflexivity. Qed.

(* ===================================================================== *)
(** ** Properties of the design document                                *)
(* ===================================================================== *)

Lemma example_well_formed : well_formed example_tokens.
Proof.
  unfold well_formed, run, six_digits, example_tokens. simpl.
  repeat split; (discriminate || reflexivity).
Qed.

(** C1, as the document states it, fails: on the example file and body,
    with the accepted set {"42"}, the scan yields one record, and that
    record has no event at all. *)
Lemma C1_example_body_has_no_event :
  ~ exists (f : File.t) (ev : Event.t),
      scanDirectory posix_join VOICE_TAGGING_PATH
                    (single_file example_name {| st_size := 62; st_mtime := 0 |}
                                 example_body)
                    ["42"] = [f]
      /\ File.eventCount f = 1%Z /\ File.events f = [ev].
Proof.
  intros (f & ev & Hscan & Hcount & _).
  vm_compute in Hscan. injection Hscan as <-. discriminate Hcount.
Qed.

(** C1 (amended).  Scanning a tree that holds exactly the example file
    with the accepted set {"42"} yields exactly one record, with project
    PRJ, vehicle VEH and ticket 42.  With the body line of the document
    the record has eventCount 0 and no event; with the body line whose
    track token is the session name followed by [_s1_s_Front_s60_7] it has
    eventCount 1 and exactly one event, with clip 0007, camera CamA and
    event name Honk. *)
Theorem C1_end_to_end (path_join : string -> string -> string) (root : string)
        (stats : Stats) :
  (exists f,
      scanDirectory path_join root (single_file example_name stats example_body) ["42"]
      = [f]
      /\ File.project f = "PRJ" /\ File.vehicle f = "VEH"
      /\ File.datacoNumber f = "42"
      /\ File.eventCount f = 0%Z /\ File.events f = [])
  /\ (exists f ev,
         scanDirectory path_join root (single_file example_name stats session_body) ["42"]
         = [f]
         /\ File.project f = "PRJ" /\ File.vehicle f = "VEH"
         /\ File.datacoNumber f = "42"
         /\ File.eventCount f = 1%Z /\ File.events f = [ev]
         /\ Event.clipNumber ev = "0007" /\ Event.camera ev = "CamA"
         /\ Event.eventName ev = "Honk").
Proof.
  split.
  - eexists. split; [vm_compute; reflexivity|]. repeat split.
  - eexists. eexists. split; [vm_compute; reflexivity|]. repeat split.
Qed.

(** C2, as the document states it, fails: a token in which the shape is
    preceded by another character is not of the exact shape, and its line
    is retained all the same. *)
Lemma C2_prefixed_token_is_retained :
  (exists ev,
      parseLine "PRJ_VEH_010124_120000_5"
                "XPRJ_VEH_010124_120000_5_s1_s_Front_s60_7 CamA 100 Honk"
      = Pushed ev)
  /\ split_white (trim "XPRJ_VEH_010124_120000_5_s1_s_Front_s60_7 CamA 100 Honk")
     = ["XPRJ_VEH_010124_120000_5_s1_s_Front_s60_7"; "CamA"; "100"; "Honk"]
  /\ ~ exists view clip,
        exact_track "PRJ_VEH_010124_120000_5"
                    "XPRJ_VEH_010124_120000_5_s1_s_Front_s60_7" view clip.
Proof.
  split; [|split].
  - eexists. vm_compute. reflexivity.
  - reflexivity.
  - intros (view & clip & d1 & d2 & _ & E). discriminate E.
Qed.

(** C2 (amended).  For every body and every session name the content
    parser returns a sequence of events, and an event is in it exactly
    when some line of the body, once trimmed, is neither empty nor a
    comment, splits at white space into at least four tokens, and its
    leading token ends with the shape
    sessionName_s<digits>_s_<view>_s<digits>_<clip> (the pattern is
    anchored at the end of the token only, so characters may precede the
    session name); the event is then built from that line.  Every other
    line is dropped without an error. *)
Theorem C2_retained_lines (content sessionName : string) :
  exists events,
    parseJumpFileContent content sessionName = Some events
    /\ (forall ev,
           In ev events <->
           exists line trackfile camera frameNumber eventParts view clip,
             In line (split "010" content)
             /\ candidate line trackfile camera frameNumber eventParts
             /\ ends_with_track sessionName trackfile view clip
             /\ ev = event_of sessionName (trim line) view clip camera frameNumber
                              eventParts)
    /\ (forall line, parseLine sessionName line <> Thrown).
Proof.
  destruct (parseJumpFileContent_total content sessionName) as [events He].
  exists events. split; [exact He|]. split; [|apply parseLine_not_Thrown].
  intros ev. rewrite (parseLines_In _ _ _ He ev). split.
  - intros (line & Hl & Hp).
    apply parseLine_Pushed in Hp as (t & c & fr & ps & v & cl & Hc & Ht & ->).
    exists line, t, c, fr, ps, v, cl. auto.
  - intros (line & t & c & fr & ps & v & cl & Hl & Hc & Ht & ->).
    exists line. split; [exact Hl|]. apply parseLine_Pushed.
    exists t, c, fr, ps, v, cl. auto.
Qed.

(** C3.  For every filename of the artifact grammar the parser returns
    metadata whose sessionName is the five raw tokens project, vehicle,
    date, time and software version joined by underscores, whose date and
    createDate are DD/MM/20YY and whose time is HH:MM:SS. *)
Theorem C3_session_name_and_formats (k : raw_tokens)
        (dd mm yy hh mi ss cdd cmm cyy : string) :
  well_formed k ->
  r_date k = dd +:+ mm +:+ yy ->
  String.length dd = 2%nat -> String.length mm = 2%nat -> String.length yy = 2%nat ->
  r_time k = hh +:+ mi +:+ ss ->
  String.length hh = 2%nat -> String.length mi = 2%nat -> String.length ss = 2%nat ->
  r_createDate k = cdd +:+ cmm +:+ cyy ->
  String.length cdd = 2%nat -> String.length cmm = 2%nat -> String.length cyy = 2%nat ->
  exists m,
    parseFileName (artifact_name k) = Some m
    /\ Meta.sessionName m
       = r_project k +:+ "_" +:+ r_vehicle k +:+ "_" +:+ r_date k +:+ "_"
                   +:+ r_time k +:+ "_" +:+ r_swVersion k
    /\ Meta.date m = dd +:+ "/" +:+ mm +:+ "/20" +:+ yy
    /\ Meta.createDate m = cdd +:+ "/" +:+ cmm +:+ "/20" +:+ cyy
    /\ Meta.time m = hh +:+ ":" +:+ mi +:+ ":" +:+ ss.
Proof.
  intros Hk Ed Hdd Hmm Hyy Et Hhh Hmi Hss Ec Hcdd Hcmm Hcyy.
  exists (meta_of k). split; [now apply parseFileName_grammar|].
  unfold meta_of. cbn [Meta.sessionName Meta.date Meta.createDate Meta.time].
  rewrite Ed, Et, Ec.
  rewrite !formatDate_six, formatTime_six by assumption. auto.
Qed.

Lemma C3_session_name_and_formats_witness :
  exists m,
    parseFileName example_name = Some m
    /\ Meta.sessionName m = "PRJ_VEH_010124_120000_5"
    /\ Meta.date m = "01/01/2024"
    /\ Meta.createDate m = "02/01/2024"
    /\ Meta.time m = "12:00:00".
Proof.
  exact (C3_session_name_and_formats example_tokens
           "01" "01" "24" "12" "00" "00" "02" "01" "24"
           example_well_formed eq_refl eq_refl eq_refl eq_refl
           eq_refl eq_refl eq_refl eq_refl eq_refl eq_refl eq_refl eq_refl).
Defined.

(** C4.  A root directory that is missing or cannot be listed yields the
    empty list; and a file whose stat or read fails, anywhere in the tree,
    is left out while the scan of everything else is what it would be
    without that file. *)
Theorem C4_failure_policy (path_join : string -> string -> string)
        (subtasks : list string) (c : context) (root name : string)
        (stat : option Stats) (content : option string) :
  stat = None \/ content = None ->
  scanDirectory path_join root Missing subtasks = []
  /\ scanDirectory path_join root Unreadable subtasks = []
  /\ scanDirectory path_join root (plug c [FileEntry name stat content]) subtasks
     = scanDirectory path_join root (plug c []) subtasks.
Proof.
  intros Hfail. split; [reflexivity|]. split; [reflexivity|].
  apply scan_plug_silent. intros dirPath. cbn [flat_map scanEntry].
  rewrite (scanFile_unreadable _ _ _ _ _ Hfail).
  now destruct (Str.endsWith ".jump" name).
Qed.

Lemma C4_failure_policy_witness :
  scanDirectory posix_join "/r" Missing ["42"; "7"] = []
  /\ scanDirectory posix_join "/r" Unreadable ["42"; "7"] = []
  /\ scanDirectory posix_join "/r"
       (Listing [readable_entry;
                 FileEntry "PRJ_VEH_010124_120000_5_020124_DATACO-7.jump" None
                           (Some session_body);
                 readable_entry])
       ["42"; "7"]
     = scanDirectory posix_join "/r" (Listing [readable_entry; readable_entry])
                     ["42"; "7"].
Proof.
  exact (C4_failure_policy posix_join ["42"; "7"]
           (Here [readable_entry] [readable_entry]) "/r"
           "PRJ_VEH_010124_120000_5_020124_DATACO-7.jump" None (Some session_body)
           (or_introl eq_refl)).
Defined.

Lemma notes_not_artifact : ~ matches_grammar "notes.jump".
Proof.
  intros (k & Hk & E). pose proof (parseFileName_grammar k Hk) as H.
  rewrite <- E in H. vm_compute in H. discriminate H.
Qed.

(** C5.  For a filename outside the artifact grammar the parser returns
    null, and the scanner leaves such a file out: the scan is what it
    would be without the file. *)
Theorem C5_non_artifact_names (fileName : string) :
  ~ matches_grammar fileName ->
  parseFileName fileName = None
  /\ forall (path_join : string -> string -> string) (subtasks : list string)
            (c : context) (root : string) (stat : option Stats)
            (content : option string),
      scanDirectory path_join root (plug c [FileEntry fileName stat content]) subtasks
      = scanDirectory path_join root (plug c []) subtasks.
Proof.
  intros Hn. split; [now apply parseFileName_None|].
  intros path_join subtasks c root stat content.
  apply scan_plug_silent. intros dirPath. cbn [flat_map scanEntry].
  rewrite (scanFile_no_grammar _ _ _ _ _ Hn).
  now destruct (Str.endsWith ".jump" fileName).
Qed.

Lemma C5_non_artifact_names_witness :
  parseFileName "notes.jump" = None
  /\ forall (path_join : string -> string -> string) (subtasks : list string)
            (c : context) (root : string) (stat : option Stats)
            (content : option string),
      scanDirectory path_join root (plug c [FileEntry "notes.jump" stat content]) subtasks
      = scanDirectory path_join root (plug c []) subtasks.
Proof. exact (C5_non_artifact_names "notes.jump" notes_not_artifact). Defined.

Lemma consistent_total {A : Type} (cmp : A -> A -> Z) :
  consistent cmp -> forall a b, (cmp a b <= 0)%Z \/ (cmp b a <= 0)%Z.
Proof. intros [Ha _] a b. specialize (Ha a b). lia. Qed.

Lemma consistent_on {A B : Type} (f : B -> A) (cmp : A -> A -> Z) :
  consistent cmp -> consistent (fun x y => cmp (f x) (f y)).
Proof. intros [Ha Ht]. split; [intros; apply Ha | intros a b c; apply Ht]. Qed.

Lemma consistent_opp {A : Type} (cmp : A -> A -> Z) :
  consistent cmp -> consistent (fun a b => (- cmp a b)%Z).
Proof.
  intros [Ha Ht]. split.
  - intros a b. specialize (Ha a b). lia.
  - intros a b c Hab Hbc.
    assert (Hcb : (cmp c b <= 0)%Z) by (specialize (Ha b c); lia).
    assert (Hba : (cmp b a <= 0)%Z) by (specialize (Ha a b); lia).
    pose proof (Ht c b a Hcb Hba). specialize (Ha a c). lia.
Qed.

Lemma consistent_difference {A : Type} (f : A -> Z) :
  consistent (fun a b => (f a - f b)%Z).
Proof. split; intros; lia. Qed.

Lemma defaultCompare_consistent : consistent defaultCompare.
Proof. split; [apply defaultCompare_antisym | apply defaultCompare_trans]. Qed.

Lemma compareFiles_consistent (localeCompare : string -> string -> Z)
      (filters : Filters.t) :
  consistent localeCompare -> consistent (compareFiles localeCompare filters).
Proof.
  intros Hc.
  assert (H : consistent
    (fun a b =>
       if String.eqb (Filters.sortBy filters) "fileName"
       then localeCompare (File.fileName a) (File.fileName b)
       else if String.eqb (Filters.sortBy filters) "date"
       then localeCompare (File.date a) (File.date b)
       else if String.eqb (Filters.sortBy filters) "project"
       then localeCompare (File.project a) (File.project b)
       else if String.eqb (Filters.sortBy filters) "vehicle"
       then localeCompare (File.vehicle a) (File.vehicle b)
       else if String.eqb (Filters.sortBy filters) "eventCount"
       then (File.eventCount a - File.eventCount b)%Z
       else localeCompare (File.fileName a) (File.fileName b))).
  { destruct (String.eqb (Filters.sortBy filters) "fileName");
      [exact (consistent_on File.fileName _ Hc)|].
    destruct (String.eqb (Filters.sortBy filters) "date");
      [exact (consistent_on File.date _ Hc)|].
    destruct (String.eqb (Filters.sortBy filters) "project");
      [exact (consistent_on File.project _ Hc)|].
    destruct (String.eqb (Filters.sortBy filters) "vehicle");
      [exact (consistent_on File.vehicle _ Hc)|].
    destruct (String.eqb (Filters.sortBy filters) "eventCount");
      [exact (consistent_difference File.eventCount)|].
    exact (consistent_on File.fileName _ Hc). }
  unfold compareFiles. destruct (Filters.sortOrder filters).
  - exact H.
  - exact (consistent_opp _ H).
Qed.

Lemma StronglySorted_weaken {A : Type} (R S : A -> A -> Prop) (l : list A) :
  (forall a b, R a b -> S a b) -> StronglySorted R l -> StronglySorted S l.
Proof.
  intros H. induction 1 as [|a t _ IH Ha]; constructor; [exact IH|].
  eapply List.Forall_impl; [|exact Ha]. intros b. apply H.
Qed.

(** What the callback of the sort decides is the order that the sort
    specification asks for. *)
Lemma compareFiles_in_sort_order (localeCompare : string -> string -> Z)
      (filters : Filters.t) (a b : File.t) :
  consistent localeCompare ->
  (compareFiles localeCompare filters a b <= 0)%Z ->
  in_sort_order localeCompare (Filters.sortBy filters) (Filters.sortOrder filters) a b.
Proof.
  intros Hc. destruct filters as [s e c p v d sb so].
  cbn [Filters.sortBy Filters.sortOrder].
  assert (Hkey : forall x y,
             (compareFiles localeCompare (Filters.Build s e c p v d sb asc) x y <= 0)%Z ->
             key_not_after localeCompare sb x y).
  { intros x y. unfold compareFiles, key_not_after.
    cbn [Filters.sortBy Filters.sortOrder].
    destruct (String.eqb_spec sb "fileName") as [->|H1];
      [intros H; repeat split; intros; try discriminate; assumption|].
    destruct (String.eqb_spec sb "date") as [->|H2];
      [intros H; repeat split; intros; try discriminate; try congruence; assumption|].
    destruct (String.eqb_spec sb "project") as [->|H3];
      [intros H; repeat split; intros; try discriminate; try congruence; assumption|].
    destruct (String.eqb_spec sb "vehicle") as [->|H4];
      [intros H; repeat split; intros; try discriminate; try congruence; assumption|].
    destruct (String.eqb_spec sb "eventCount") as [->|H5];
      [intros H; repeat split; intros; try discriminate; try congruence; lia|].
    intros H. repeat split; intros; try congruence; assumption. }
  destruct so; cbn [in_sort_order]; [exact (Hkey a b)|].
  intros H. apply Hkey.
  destruct (compareFiles_consistent localeCompare (Filters.Build s e c p v d sb asc) Hc)
    as [Hanti _].
  specialize (Hanti a b).
  change (compareFiles localeCompare (Filters.Build s e c p v d sb desc) a b)
    with (- compareFiles localeCompare (Filters.Build s e c p v d sb asc) a b)%Z in H.
  lia.
Qed.

(** The order of a sort specification tells lists apart: the three sample
    records in the order 3, 0, 7 of their event counts are not in
    descending order of the number of events. *)
Example sample_files_not_in_order :
  ~ StronglySorted (in_sort_order defaultCompare "eventCount" desc) sample_files.
Proof.
  intros H. inversion H as [|x t _ Hall]; subst.
  inversion Hall as [|y u _ Hrest]; subst.
  inversion Hrest as [|z w Hz _]; subst.
  destruct Hz as (_ & _ & _ & Hcount & _).
  specialize (Hcount eq_refl). simpl in Hcount. lia.
Qed.

(** C6.  With all five constraint sets empty, the view holds every input
    record: its elements are a permutation of the input, in the order that
    the active sort specification asks for, stated on the keys of the
    records: by date, project, vehicle or number of events when the
    specification names one of them and by file name otherwise, ascending
    or descending.  The host's localeCompare is a consistent comparator,
    as the language standard requires of it. *)
Theorem C6_unconstrained_filter (localeCompare : string -> string -> Z)
        (h : gmap nat (list File.t)) (files : nat) (xs : list File.t)
        (filters : Filters.t) :
  consistent localeCompare ->
  h !! files = Some xs ->
  Filters.selectedSubtasks filters = [] ->
  Filters.selectedEventTypes filters = [] ->
  Filters.selectedCameraTypes filters = [] ->
  Filters.selectedProjects filters = [] ->
  Filters.selectedVehicles filters = [] ->
  exists out h' result,
    filteredFiles localeCompare (Some files) filters h = (out, h')
    /\ h' !! out = Some result
    /\ Permutation result xs
    /\ StronglySorted (in_sort_order localeCompare (Filters.sortBy filters)
                                     (Filters.sortOrder filters))
                      result.
Proof.
  intros Hc Hf H1 H2 H3 H4 H5.
  destruct (filteredFiles_run localeCompare h files xs filters Hf) as [_ Hrun].
  do 3 eexists. split; [exact Hrun|]. split; [apply lookup_insert_eq|].
  rewrite (filter_all (keeps filters) xs)
    by (intros f; now apply keeps_unconstrained).
  pose proof (compareFiles_consistent localeCompare filters Hc) as Hcf.
  split; [apply sort_by_perm|].
  apply (StronglySorted_weaken (not_after (compareFiles localeCompare filters))).
  - intros a b. now apply compareFiles_in_sort_order.
  - apply (sort_by_sorted (compareFiles localeCompare filters)).
    + now apply consistent_total.
    + exact (proj2 Hcf).
Qed.

Lemma C6_unconstrained_filter_witness :
  exists out h' result,
    filteredFiles defaultCompare (Some 0%nat) (no_constraint "eventCount" desc)
                  (<[0%nat := sample_files]> ∅)
    = (out, h')
    /\ h' !! out = Some result
    /\ Permutation result sample_files
    /\ StronglySorted
         (in_sort_order defaultCompare
                        (Filters.sortBy (no_constraint "eventCount" desc))
                        (Filters.sortOrder (no_constraint "eventCount" desc)))
         result.
Proof.
  exact (C6_unconstrained_filter defaultCompare (<[0%nat := sample_files]> ∅) 0%nat
           sample_files (no_constraint "eventCount" desc)
           defaultCompare_consistent (lookup_insert_eq ∅ 0%nat sample_files)
           eq_refl eq_refl eq_refl eq_refl eq_refl).
Defined.

Lemma or_empty_first (l : list string) : or_empty (nth_error l 0) = hd "" l.
Proof. destruct l; reflexivity. Qed.

Lemma or_empty_last (l : list string) :
  or_empty (nth_error l (List.length l - 1)) = List.last l "".
Proof.
  induction l as [|x t IH]; [reflexivity|].
  destruct t as [|y t']; [reflexivity|].
  simpl in *. now rewrite Nat.sub_0_r in IH.
Qed.

Lemma sort_by_defaultCompare_sorted (l : list string) :
  StronglySorted (fun a b => String.leb a b = true) (sort_by defaultCompare l).
Proof.
  pose proof (sort_by_sorted defaultCompare defaultCompare_total
                             defaultCompare_trans l) as H.
  eapply StronglySorted_ind with (P := StronglySorted (fun a b => String.leb a b = true));
    [constructor | | exact H].
  intros a t _ IH Ha. constructor; [exact IH|].
  eapply List.Forall_impl; [|exact Ha]. intros b Hb. now apply defaultCompare_le.
Qed.

(** C7.  The date range of the summary is taken from the non-empty date
    strings of the scanned records, sorted in the order of their code
    units: earliest is the first and latest the last of the sorted
    strings.  That order is not the order of the calendar: 01/02/2024
    comes before 31/01/2024.  When the scan yields no record, totalFiles
    is 0, both bounds are the empty string and every unique-value set is
    empty. *)
Theorem C7_date_range (path_join : string -> string -> string)
        (localeCompare : string -> string -> Z)
        (mainTicket subtasksParam : string) (root : dir_state) :
  mainTicket <> "" -> subtasksParam <> "" ->
  let files := scanDirectory path_join VOICE_TAGGING_PATH root
                             (normalizeSubtasks subtasksParam) in
  let dates := List.filter (fun d => negb (String.eqb d "")) (map File.date files) in
  (exists body sortedDates,
      GET path_join localeCompare (Some mainTicket) (Some subtasksParam) root = Json body
      /\ Permutation sortedDates dates
      /\ StronglySorted (fun a b => String.leb a b = true) sortedDates
      /\ earliest (dateRange (Response.summary body)) = hd "" sortedDates
      /\ latest (dateRange (Response.summary body)) = List.last sortedDates ""
      /\ (files = [] ->
          Response.totalFiles body = 0%Z
          /\ earliest (dateRange (Response.summary body)) = ""
          /\ latest (dateRange (Response.summary body)) = ""
          /\ uniqueEventTypes (Response.summary body) = []
          /\ uniqueCameraTypes (Response.summary body) = []
          /\ uniqueProjects (Response.summary body) = []
          /\ uniqueVehicles (Response.summary body) = []))
  /\ dateRange (summarize [sample_file "b.jump" "P2" "31/01/2024" 3;
                           sample_file "a.jump" "P1" "01/02/2024" 0])
     = {| earliest := "01/02/2024"; latest := "31/01/2024" |}.
Proof.
  intros Hm Hs files dates. split; [|reflexivity].
  unfold GET.
  destruct (String.eqb_spec mainTicket "") as [|_]; [contradiction|].
  destruct (String.eqb_spec subtasksParam "") as [|_]; [contradiction|].
  cbn [orb]. fold files.
  eexists. exists (sort_by defaultCompare dates).
  split; [reflexivity|].
  split; [apply sort_by_perm|].
  split; [apply sort_by_defaultCompare_sorted|].
  cbn [Response.summary Response.totalFiles].
  split; [apply or_empty_first|].
  split; [apply or_empty_last|].
  intros E. rewrite E. repeat split.
Qed.

Lemma C7_date_range_witness :
  (exists body sortedDates,
      GET posix_join defaultCompare (Some "DATACO-1") (Some "DATACO-42") Missing
      = Json body
      /\ Permutation sortedDates []
      /\ StronglySorted (fun a b => String.leb a b = true) sortedDates
      /\ earliest (dateRange (Response.summary body)) = hd "" sortedDates
      /\ latest (dateRange (Response.summary body)) = List.last sortedDates ""
      /\ (@nil File.t = [] ->
          Response.totalFiles body = 0%Z
          /\ earliest (dateRange (Response.summary body)) = ""
          /\ latest (dateRange (Response.summary body)) = ""
          /\ uniqueEventTypes (Response.summary body) = []
          /\ uniqueCameraTypes (Response.summary body) = []
          /\ uniqueProjects (Response.summary body) = []
          /\ uniqueVehicles (Response.summary body) = []))
  /\ dateRange (summarize [sample_file "b.jump" "P2" "31/01/2024" 3;
                           sample_file "a.jump" "P1" "01/02/2024" 0])
     = {| earliest := "01/02/2024"; latest := "31/01/2024" |}.
Proof.
  exact (C7_date_range posix_join defaultCompare "DATACO-1" "DATACO-42" Missing
           ltac:(discriminate) ltac:(discriminate)).
Defined.

(** C8.  For every line that yields an event, the clip captured from the
    track token (the second group of the match, the field after the last
    underscore) is rendered with zeros on the left up to four characters
    when it is shorter than four, and unchanged when it has four
    characters or more. *)
Theorem C8_clip_padding (sessionName line : string) (ev : Event.t) :
  parseLine sessionName line = Pushed ev ->
  exists trackPattern trackfile camera frameNumber eventParts whole view clip,
    split_white (trim line) = trackfile :: camera :: frameNumber :: eventParts
    /\ RegExp (trackSource sessionName) = Some trackPattern
    /\ str_match trackPattern trackfile = Some [whole; view; clip]
    /\ ends_with_track sessionName trackfile view clip
    /\ ((String.length clip < 4)%nat ->
        Event.clipNumber ev = Str.repeat "0" (4 - String.length clip) +:+ clip
        /\ String.length (Event.clipNumber ev) = 4%nat)
    /\ ((4 <= String.length clip)%nat -> Event.clipNumber ev = clip).
Proof.
  intros H.
  apply parseLine_Pushed in H as (t & c & fr & ps & v & cl & Hc & Ht & ->).
  destruct Hc as (_ & _ & Hsplit & _).
  destruct (str_match_track_complete _ _ _ _ Ht) as [whole Hm].
  exists (trackRegex sessionName), t, c, fr, ps, whole, v, cl.
  split; [exact Hsplit|]. split; [apply RegExp_trackSource|].
  split; [exact Hm|]. split; [exact Ht|].
  cbn [Event.clipNumber event_of]. split.
  - apply padStart_short.
  - apply padStart_long.
Qed.

Lemma C8_clip_padding_witness :
  exists trackPattern trackfile camera frameNumber eventParts whole view clip,
    split_white (trim session_body) = trackfile :: camera :: frameNumber :: eventParts
    /\ RegExp (trackSource "PRJ_VEH_010124_120000_5") = Some trackPattern
    /\ str_match trackPattern trackfile = Some [whole; view; clip]
    /\ ends_with_track "PRJ_VEH_010124_120000_5" trackfile view clip
    /\ ((String.length clip < 4)%nat ->
        Event.clipNumber
          (event_of "PRJ_VEH_010124_120000_5" session_body "Front" "7" "CamA" "100"
                    ["Honk"])
        = Str.repeat "0" (4 - String.length clip) +:+ clip
        /\ String.length
             (Event.clipNumber
                (event_of "PRJ_VEH_010124_120000_5" session_body "Front" "7" "CamA"
                          "100" ["Honk"])) = 4%nat)
    /\ ((4 <= String.length clip)%nat ->
        Event.clipNumber
          (event_of "PRJ_VEH_010124_120000_5" session_body "Front" "7" "CamA" "100"
                    ["Honk"]) = clip).
Proof.
  exact (C8_clip_padding "PRJ_VEH_010124_120000_5" session_body
           (event_of "PRJ_VEH_010124_120000_5" session_body "Front" "7" "CamA" "100"
                     ["Honk"])
           ltac:(vm_compute; reflexivity)).
Defined.

(** C9.  The view never changes its input: the filtered and sorted
    records are put in a new array, the input array holds the same records
    in the same order afterwards, and so does every other array. *)
Theorem C9_input_not_mutated (localeCompare : string -> string -> Z)
        (h : gmap nat (list File.t)) (files : nat) (xs : list File.t)
        (filters : Filters.t) :
  h !! files = Some xs ->
  exists out h',
    filteredFiles localeCompare (Some files) filters h = (out, h')
    /\ out <> files
    /\ h !! out = None
    /\ h' !! files = Some xs
    /\ (forall r, r <> out -> h' !! r = h !! r)
    /\ h' !! out
       = Some (sort_by (compareFiles localeCompare filters)
                       (List.filter (keeps filters) xs)).
Proof.
  intros Hf.
  destruct (filteredFiles_run localeCompare h files xs filters Hf) as [Hne Hrun].
  do 2 eexists. split; [exact Hrun|]. split; [exact Hne|].
  split; [apply not_elem_of_dom, is_fresh|].
  split; [now rewrite !lookup_insert_ne by exact Hne|].
  split; [|apply lookup_insert_eq].
  intros r Hr. rewrite !lookup_insert_ne by (intros E; apply Hr; now rewrite E).
  reflexivity.
Qed.

Lemma C9_input_not_mutated_witness :
  exists out h',
    filteredFiles defaultCompare (Some 0%nat) (no_constraint "eventCount" desc)
                  (<[0%nat := sample_files]> ∅)
    = (out, h')
    /\ out <> 0%nat
    /\ (<[0%nat := sample_files]> ∅ : gmap nat (list File.t)) !! out = None
    /\ h' !! 0%nat = Some sample_files
    /\ (forall r, r <> out ->
                  h' !! r = (<[0%nat := sample_files]> ∅ : gmap nat (list File.t)) !! r)
    /\ h' !! out
       = Some (sort_by (compareFiles defaultCompare (no_constraint "eventCount" desc))
                       (List.filter (keeps (no_constraint "eventCount" desc))
                                    sample_files)).
Proof.
  exact (C9_input_not_mutated defaultCompare (<[0%nat := sample_files]> ∅) 0%nat
           sample_files (no_constraint "eventCount" desc)
           (lookup_insert_eq ∅ 0%nat sample_files)).
Defined.

Lemma first_at_one :
  forall a' b' : string,
    "x" +:+ "DATACO-" +:+ "42" = a' +:+ "DATACO-" +:+ b' ->
    (String.length "x" <= String.length a')%nat.
Proof. intros [|c a'] b' E; simpl in *; [discriminate E | lia]. Qed.

Lemma lower_case_absent :
  forall a b : string, "dataco-42" <> a +:+ "DATACO-" +:+ b.
Proof.
  intros a b E.
  do 9 (destruct a as [|? a]; simpl in E; [discriminate E | injection E as _ E]).
  destruct a; simpl in E; discriminate E.
Qed.

(** C10, as the document states it, fails for a file that cannot be
    read: the ticket token of the example file is exactly equal to the
    normalized entry 42, and yet the file is not included when its read
    fails. *)
Lemma C10_unreadable_file_is_left_out :
  In (r_ticket example_tokens) (normalizeSubtasks "DATACO-42")
  /\ ~ ((exists f,
           In f (scanDirectory posix_join VOICE_TAGGING_PATH
                   (Listing [FileEntry (artifact_name example_tokens)
                                       (Some {| st_size := 62; st_mtime := 0 |}) None])
                   (normalizeSubtasks "DATACO-42")))
        <-> In (r_ticket example_tokens) (normalizeSubtasks "DATACO-42")).
Proof.
  assert (Hin : In (r_ticket example_tokens) (normalizeSubtasks "DATACO-42"))
    by (vm_compute; left; reflexivity).
  split; [exact Hin|]. intros [_ H]. destruct (H Hin) as [f Hf].
  vm_compute in Hf. exact Hf.
Qed.

(** C10 (amended).  Each entry of the comma-separated parameter loses its
    first occurrence of DATACO-, wherever it stands, and nothing else: a
    later occurrence stays and dataco- is not an occurrence.  A file of the
    grammar, listed in any directory of the tree, is included by the scan
    (the scan of the tree with the file is the scan of the tree without it
    with one record for the file at its place) exactly when its ticket
    token is equal, as a string, to one of the normalized entries and its
    stat and read succeed; otherwise the scan is the scan of the tree
    without it.  042 and 42 are different tickets. *)
Theorem C10_ticket_normalization (a b s : string) (k : raw_tokens)
        (path_join : string -> string -> string) (c : context) (dirPath : string)
        (stat : option Stats) (content : option string) (subtasksParam : string) :
  (forall a' b', a +:+ "DATACO-" +:+ b = a' +:+ "DATACO-" +:+ b' ->
                 (String.length a <= String.length a')%nat) ->
  (forall a' b', s <> a' +:+ "DATACO-" +:+ b') ->
  well_formed k ->
  replace "DATACO-" "" (a +:+ "DATACO-" +:+ b) = a +:+ b
  /\ replace "DATACO-" "" s = s
  /\ normalizeSubtasks "DATACO-42,xDATACO-7,DATACO-DATACO-1,dataco-42"
     = ["42"; "x7"; "DATACO-1"; "dataco-42"]
  /\ (exists pre post,
        scanDirectory path_join dirPath (plug c []) (normalizeSubtasks subtasksParam)
        = pre ++ post
        /\ ((exists f,
                scanDirectory path_join dirPath
                  (plug c [FileEntry (artifact_name k) stat content])
                  (normalizeSubtasks subtasksParam)
                = pre ++ f :: post
                /\ File.fileName f = artifact_name k
                /\ File.filePath f
                   = path_join (hole_path path_join dirPath c) (artifact_name k)
                /\ File.datacoNumber f = r_ticket k)
            <-> (exists entry, In entry (split "," subtasksParam)
                               /\ r_ticket k = replace "DATACO-" "" entry)
                /\ stat <> None /\ content <> None)
        /\ (~ ((exists entry, In entry (split "," subtasksParam)
                              /\ r_ticket k = replace "DATACO-" "" entry)
               /\ stat <> None /\ content <> None) ->
            scanDirectory path_join dirPath
              (plug c [FileEntry (artifact_name k) stat content])
              (normalizeSubtasks subtasksParam)
            = pre ++ post))
  /\ scanDirectory path_join dirPath
       (plug c [FileEntry "PRJ_VEH_010124_120000_5_020124_DATACO-042.jump" stat content])
       (normalizeSubtasks "DATACO-42")
     = scanDirectory path_join dirPath (plug c []) (normalizeSubtasks "DATACO-42")
  /\ scanDirectory path_join dirPath
       (plug c [FileEntry "PRJ_VEH_010124_120000_5_020124_DATACO-42.jump" stat content])
       (normalizeSubtasks "DATACO-042")
     = scanDirectory path_join dirPath (plug c []) (normalizeSubtasks "DATACO-042").
Proof.
  intros Hfirst Habsent Hk.
  split; [exact (replace_first "DATACO-" "" a b Hfirst)|].
  split; [exact (replace_absent "DATACO-" "" s Habsent)|].
  split; [reflexivity|].
  split.
  - assert (Hin : In (r_ticket k) (normalizeSubtasks subtasksParam)
                  <-> exists entry, In entry (split "," subtasksParam)
                                    /\ r_ticket k = replace "DATACO-" "" entry).
    { unfold normalizeSubtasks. rewrite in_map_iff. split.
      - intros (e & He & Hi). eauto.
      - intros (e & Hi & He). eauto. }
    destruct (scan_plug_split path_join (normalizeSubtasks subtasksParam) c dirPath)
      as (pre & post & Hsplit).
    exists pre, post. rewrite !Hsplit, <- !Hin.
    cbn [flat_map scanEntry entry_name app]. rewrite endsWith_artifact_name, app_nil_r.
    split; [reflexivity|].
    destruct (scanFile_included k
                (path_join (hole_path path_join dirPath c) (artifact_name k))
                stat content (normalizeSubtasks subtasksParam) Hk)
      as [(Ht & Hs & Hc & f & -> & Hname & Hpath & Hticket) | (Hno & ->)].
    + split; [|intros Hn; exfalso; apply Hn; auto].
      split; [auto|]. intros _. exists f. cbn [app]. auto.
    + cbn [app]. split; [|reflexivity].
      split; [|intros H; now apply Hno in H].
      intros (f & E & _). exfalso. exact (app_cons_neq pre post f (eq_sym E)).
  - split; apply scan_plug_silent; intros d; cbn [flat_map scanEntry entry_name];
      rewrite app_nil_r;
      match goal with
      | |- (if ?e then _ else _) = _ =>
          replace e with true by (vm_compute; reflexivity)
      end;
      unfold scanFile;
      match goal with
      | |- context [parseFileName ?n] =>
          let r := eval vm_compute in (parseFileName n) in
          replace (parseFileName n) with r by (vm_compute; reflexivity)
      end;
      reflexivity.
Qed.

Lemma C10_ticket_normalization_witness :
  replace "DATACO-" "" ("x" +:+ "DATACO-" +:+ "42") = "x" +:+ "42"
  /\ replace "DATACO-" "" "dataco-42" = "dataco-42"
  /\ normalizeSubtasks "DATACO-42,xDATACO-7,DATACO-DATACO-1,dataco-42"
     = ["42"; "x7"; "DATACO-1"; "dataco-42"]
  /\ (exists pre post,
        scanDirectory posix_join "/r" (plug nested_hole []) (normalizeSubtasks "DATACO-42")
        = pre ++ post
        /\ ((exists f,
                scanDirectory posix_join "/r"
                  (plug nested_hole
                        [FileEntry (artifact_name example_tokens)
                                   (Some {| st_size := 62; st_mtime := 0 |})
                                   (Some session_body)])
                  (normalizeSubtasks "DATACO-42")
                = pre ++ f :: post
                /\ File.fileName f = artifact_name example_tokens
                /\ File.filePath f
                   = posix_join (hole_path posix_join "/r" nested_hole)
                                (artifact_name example_tokens)
                /\ File.datacoNumber f = r_ticket example_tokens)
            <-> (exists entry, In entry (split "," "DATACO-42")
                               /\ r_ticket example_tokens = replace "DATACO-" "" entry)
                /\ Some {| st_size := 62; st_mtime := 0 |} <> None
                /\ Some session_body <> None)
        /\ (~ ((exists entry, In entry (split "," "DATACO-42")
                              /\ r_ticket example_tokens = replace "DATACO-" "" entry)
               /\ Some {| st_size := 62; st_mtime := 0 |} <> None
               /\ Some session_body <> None) ->
            scanDirectory posix_join "/r"
              (plug nested_hole
                    [FileEntry (artifact_name example_tokens)
                               (Some {| st_size := 62; st_mtime := 0 |})
                               (Some session_body)])
              (normalizeSubtasks "DATACO-42")
            = pre ++ post))
  /\ scanDirectory posix_join "/r"
       (plug nested_hole
             [FileEntry "PRJ_VEH_010124_120000_5_020124_DATACO-042.jump"
                        (Some {| st_size := 62; st_mtime := 0 |}) (Some session_body)])
       (normalizeSubtasks "DATACO-42")
     = scanDirectory posix_join "/r" (plug nested_hole []) (normalizeSubtasks "DATACO-42")
  /\ scanDirectory posix_join "/r"
       (plug nested_hole
             [FileEntry "PRJ_VEH_010124_120000_5_020124_DATACO-42.jump"
                        (Some {| st_size := 62; st_mtime := 0 |}) (Some session_body)])
       (normalizeSubtasks "DATACO-042")
     = scanDirectory posix_join "/r" (plug nested_hole []) (normalizeSubtasks "DATACO-042").
Proof.
  exact (C10_ticket_normalization "x" "42" "dataco-42" example_tokens posix_join
           nested_hole "/r" (Some {| st_size := 62; st_mtime := 0 |})
           (Some session_body) "DATACO-42"
           first_at_one lower_case_absent example_well_formed).
Defined.

(* ===================================================================== *)
(** ** Further properties: the filename parser                          *)
(* ===================================================================== *)

Lemma formatDate_length (d : string) :
  String.length d = 6%nat -> String.length (formatDate d) = 10%nat.
Proof.
  intros H. destruct d as [|a [|b [|c [|e [|f [|g [|? ?]]]]]]]; try discriminate H.
  reflexivity.
Qed.

Lemma formatTime_length (t : string) :
  String.length t = 6%nat -> String.length (formatTime t) = 8%nat.
Proof.
  intros H. destruct t as [|a [|b [|c [|e [|f [|g [|? ?]]]]]]]; try discriminate H.
  reflexivity.
Qed.

Lemma formatDate_inj (a b : string) :
  String.length a = 6%nat -> String.length b = 6%nat ->
  formatDate a = formatDate b -> a = b.
Proof.
  intros Ha Hb.
  destruct a as [|a1 [|a2 [|a3 [|a4 [|a5 [|a6 [|? ?]]]]]]]; try discriminate Ha.
  destruct b as [|b1 [|b2 [|b3 [|b4 [|b5 [|b6 [|? ?]]]]]]]; try discriminate Hb.
  cbv. intros E. injection E as -> -> -> -> -> ->. reflexivity.
Qed.

Lemma formatTime_inj (a b : string) :
  String.length a = 6%nat -> String.length b = 6%nat ->
  formatTime a = formatTime b -> a = b.
Proof.
  intros Ha Hb.
  destruct a as [|a1 [|a2 [|a3 [|a4 [|a5 [|a6 [|? ?]]]]]]]; try discriminate Ha.
  destruct b as [|b1 [|b2 [|b3 [|b4 [|b5 [|b6 [|? ?]]]]]]]; try discriminate Hb.
  cbv. intros E. injection E as -> -> -> -> -> ->. reflexivity.
Qed.

Lemma artifact_name_session (k : raw_tokens) :
  artifact_name k
  = Meta.sessionName (meta_of k) +:+ "_" +:+ r_createDate k
      +:+ "_DATACO-" +:+ r_ticket k +:+ ".jump".
Proof.
  unfold artifact_name, meta_of. cbn [Meta.sessionName].
  rewrite !str_app_assoc. reflexivity.
Qed.

(** X1.  Whenever parseFileName returns metadata, project and vehicle are
    non-empty and free of underscores, the software version and the ticket
    number are non-empty runs of digits (so the test [!metadata.datacoNumber]
    of the scanner never fires on parsed metadata), date and createDate
    have ten characters and time has eight, and the file name is the
    session name followed by [_<six digits>_DATACO-<ticket>.jump]. *)
Theorem X1_parsed_metadata_shape (fileName : string) (m : Meta.t) :
  parseFileName fileName = Some m ->
  run not_underscore (Meta.project m)
  /\ run not_underscore (Meta.vehicle m)
  /\ run is_digit (Meta.swVersion m)
  /\ run is_digit (Meta.datacoNumber m)
  /\ String.eqb (Meta.datacoNumber m) "" = false
  /\ String.length (Meta.date m) = 10%nat
  /\ String.length (Meta.createDate m) = 10%nat
  /\ String.length (Meta.time m) = 8%nat
  /\ Str.endsWith ".jump" fileName = true
  /\ exists rawCreateDate,
      six_digits rawCreateDate
      /\ fileName = Meta.sessionName m +:+ "_" +:+ rawCreateDate
                      +:+ "_DATACO-" +:+ Meta.datacoNumber m +:+ ".jump".
Proof.
  intros H. apply parseFileName_Some in H as (k & Hk & -> & ->).
  pose proof Hk as (Hp & Hv & [Hd _] & [Ht _] & Hsw & [Hc Hc'] & Hn).
  cbn [meta_of Meta.project Meta.vehicle Meta.swVersion Meta.datacoNumber
       Meta.date Meta.createDate Meta.time].
  repeat (split; [assumption|]).
  split. { apply String.eqb_neq. exact (proj1 Hn). }
  split; [now apply formatDate_length|].
  split; [now apply formatDate_length|].
  split; [now apply formatTime_length|].
  split; [apply endsWith_artifact_name|].
  exists (r_createDate k). split; [split; assumption|].
  apply artifact_name_session.
Qed.

Lemma X1_parsed_metadata_shape_witness :
  run not_underscore "PRJ"
  /\ run not_underscore "VEH"
  /\ run is_digit "5"
  /\ run is_digit "42"
  /\ String.eqb "42" "" = false
  /\ String.length "01/01/2024" = 10%nat
  /\ String.length "02/01/2024" = 10%nat
  /\ String.length "12:00:00" = 8%nat
  /\ Str.endsWith ".jump" example_name = true
  /\ exists rawCreateDate,
      six_digits rawCreateDate
      /\ example_name = "PRJ_VEH_010124_120000_5" +:+ "_" +:+ rawCreateDate
                          +:+ "_DATACO-" +:+ "42" +:+ ".jump".
Proof.
  exact (X1_parsed_metadata_shape example_name (meta_of example_tokens)
           (parseFileName_grammar example_tokens example_well_formed)).
Defined.

(** X2.  parseFileName loses nothing: two file names with the same
    metadata are the same name. *)
Theorem X2_parseFileName_injective (a b : string) (m : Meta.t) :
  parseFileName a = Some m -> parseFileName b = Some m -> a = b.
Proof.
  intros Ha Hb.
  apply parseFileName_Some in Ha as (k & Hk & -> & ->).
  apply parseFileName_Some in Hb as (k' & Hk' & -> & E).
  destruct k as [p v d t sw cd n], k' as [p' v' d' t' sw' cd' n'].
  destruct Hk as (_ & _ & [Hd _] & [Ht _] & _ & [Hc _] & _).
  destruct Hk' as (_ & _ & [Hd' _] & [Ht' _] & _ & [Hc' _] & _).
  unfold meta_of in E. cbn in Hd, Ht, Hc, Hd', Ht', Hc'.
  cbn [r_project r_vehicle r_date r_time r_swVersion r_createDate r_ticket] in E.
  injection E as -> -> Ed Et -> Ec -> _.
  apply formatDate_inj in Ed; [|assumption..].
  apply formatTime_inj in Et; [|assumption..].
  apply formatDate_inj in Ec; [|assumption..].
  now subst.
Qed.

Lemma X2_parseFileName_injective_witness : example_name = example_name.
Proof.
  exact (X2_parseFileName_injective example_name example_name (meta_of example_tokens)
           (parseFileName_grammar example_tokens example_well_formed)
           (parseFileName_grammar example_tokens example_well_formed)).
Defined.

(* ===================================================================== *)
(** ** Further properties: the content parser                           *)
(* ===================================================================== *)

Lemma split_go_app (sep : ascii) (a b : string) :
  forall cur, split_go sep cur (a +:+ String sep b)
              = split_go sep cur a ++ split_go sep "" b.
Proof.
  induction a as [|c a IH]; intros cur; simpl.
  - now rewrite Ascii.eqb_refl.
  - destruct (Ascii.eqb c sep); simpl; now rewrite IH.
Qed.

Lemma split_app (sep : ascii) (a b : string) :
  split sep (a +:+ String sep b) = split sep a ++ split sep b.
Proof. apply split_go_app. Qed.

Lemma parseLines_app (sn : string) (l1 l2 : list string) (e1 e2 : list Event.t) :
  parseLines sn l1 = Some e1 -> parseLines sn l2 = Some e2 ->
  parseLines sn (l1 ++ l2) = Some (e1 ++ e2).
Proof.
  revert e1. induction l1 as [|line more IH]; simpl; intros e1 H1 H2.
  - injection H1 as <-. exact H2.
  - destruct (parseLine sn line) as [|ev|]; [now apply IH | | discriminate].
    destruct (parseLines sn more) as [evs|]; [|discriminate].
    injection H1 as <-. now rewrite (IH evs eq_refl H2).
Qed.

(** X3.  Parsing is local to the lines: the events of a body cut at a line
    feed are the events of what precedes the cut followed by the events of
    what follows it. *)
Theorem X3_content_cut_at_newline (a b sessionName : string) :
  exists ea eb,
    parseJumpFileContent a sessionName = Some ea
    /\ parseJumpFileContent b sessionName = Some eb
    /\ parseJumpFileContent (a +:+ String "010" b) sessionName = Some (ea ++ eb).
Proof.
  destruct (parseJumpFileContent_total a sessionName) as [ea Ha].
  destruct (parseJumpFileContent_total b sessionName) as [eb Hb].
  exists ea, eb. split; [exact Ha|]. split; [exact Hb|].
  unfold parseJumpFileContent. rewrite split_app. now apply parseLines_app.
Qed.

Lemma trimStart_white (ws : string) :
  Str.all is_white ws = true -> trimStart ws = "".
Proof.
  induction ws as [|c ws IH]; simpl; [reflexivity|].
  intros [Hc Hw]%andb_true_iff. rewrite Hc. auto.
Qed.

Lemma trimStart_white_app (ws s : string) :
  Str.all is_white ws = true -> trimStart (ws +:+ s) = trimStart s.
Proof.
  induction ws as [|c ws IH]; simpl; [reflexivity|].
  intros [Hc Hw]%andb_true_iff. rewrite Hc. auto.
Qed.

Lemma trimEnd_white (ws : string) :
  Str.all is_white ws = true -> trimEnd ws = "".
Proof.
  induction ws as [|c ws IH]; simpl; [reflexivity|].
  intros [Hc Hw]%andb_true_iff. now rewrite (IH Hw), Hc.
Qed.

Lemma trimEnd_app_white (s ws : string) :
  Str.all is_white ws = true -> trimEnd (s +:+ ws) = trimEnd s.
Proof.
  intros Hw. induction s as [|c s IH]; simpl.
  - now apply trimEnd_white.
  - now rewrite IH.
Qed.

Lemma trim_app_white (s ws : string) :
  Str.all is_white ws = true -> trim (s +:+ ws) = trim s.
Proof.
  intros Hw. unfold trim. induction s as [|c s IH]; simpl.
  - now rewrite (trimStart_white ws Hw).
  - destruct (is_white c); [exact IH|].
    exact (trimEnd_app_white (String c s) ws Hw).
Qed.

Lemma trim_padded (ws1 s ws2 : string) :
  Str.all is_white ws1 = true -> Str.all is_white ws2 = true ->
  trim (ws1 +:+ s +:+ ws2) = trim s.
Proof.
  intros H1 H2. rewrite <- (trim_app_white s ws2 H2).
  unfold trim. now rewrite trimStart_white_app.
Qed.

(** X4.  White space around a line does not count: a line with any white
    space (indentation, a carriage return of a CRLF ending) before and
    after it has the outcome of the line itself. *)
Theorem X4_line_padding_is_ignored (sessionName ws1 line ws2 : string) :
  Str.all is_white ws1 = true -> Str.all is_white ws2 = true ->
  parseLine sessionName (ws1 +:+ line +:+ ws2) = parseLine sessionName line.
Proof.
  intros H1 H2. unfold parseLine. now rewrite (trim_padded ws1 line ws2 H1 H2).
Qed.

Lemma X4_line_padding_is_ignored_witness :
  parseLine "PRJ_VEH_010124_120000_5"
            (String "009" " " +:+ session_body +:+ String "013" "")
  = parseLine "PRJ_VEH_010124_120000_5" session_body.
Proof.
  exact (X4_line_padding_is_ignored "PRJ_VEH_010124_120000_5"
           (String "009" " ") session_body (String "013" "") eq_refl eq_refl).
Defined.

Lemma all_repeat (p : ascii -> bool) (c : ascii) (n : nat) :
  p c = true -> Str.all p (Str.repeat c n) = true.
Proof. intros Hc. induction n as [|n IH]; simpl; [reflexivity | now rewrite Hc]. Qed.

Lemma padStart_zero_facts (p : ascii -> bool) (s : string) :
  (4 <= String.length (padStart 4 "0" s))%nat
  /\ (p "0"%char = true -> Str.all p s = true -> Str.all p (padStart 4 "0" s) = true).
Proof.
  destruct (Nat.lt_ge_cases (String.length s) 4) as [Hlt|Hge].
  - destruct (padStart_short s Hlt) as [E Hl]. split; [lia|].
    intros H0 Hs. rewrite E, str_all_app, Hs, (all_repeat p _ _ H0). reflexivity.
  - rewrite (padStart_long s Hge). split; [exact Hge | auto].
Qed.

Lemma parseLines_length (sn : string) (lines : list string) (events : list Event.t) :
  parseLines sn lines = Some events -> (List.length events <= List.length lines)%nat.
Proof.
  revert events. induction lines as [|line more IH]; simpl; intros events H.
  - injection H as <-. simpl. lia.
  - destruct (parseLine sn line) as [|ev|]; [| |discriminate].
    + specialize (IH events H). lia.
    + destruct (parseLines sn more) as [evs|]; [|discriminate].
      injection H as <-. specialize (IH evs eq_refl). simpl. lia.
Qed.

(** X5.  What every event of a body carries: the session name the parser
    was given; a clip number of at least four characters without an
    underscore; a view name that is non-empty and without an underscore;
    and as fullLine the trimmed text of a line of the body, which is
    neither empty nor a comment.  There are at most as many events as
    lines. *)
Theorem X5_event_invariants (content sessionName : string) (events : list Event.t) :
  parseJumpFileContent content sessionName = Some events ->
  (List.length events <= List.length (split "010" content))%nat
  /\ forall ev, In ev events ->
       Event.sessionName ev = sessionName
       /\ (4 <= String.length (Event.clipNumber ev))%nat
       /\ Str.all not_underscore (Event.clipNumber ev) = true
       /\ run not_underscore (Event.viewName ev)
       /\ Event.fullLine ev <> ""
       /\ Str.startsWith "#" (Event.fullLine ev) = false
       /\ exists line, In line (split "010" content) /\ Event.fullLine ev = trim line.
Proof.
  intros H. split; [exact (parseLines_length _ _ _ H)|].
  intros ev Hin. apply (parseLines_In _ _ _ H) in Hin as (line & Hl & Hp).
  apply parseLine_Pushed in Hp as (t & c & fr & ps & v & cl & Hc & Ht & ->).
  destruct Hc as (Hne & Hh & _ & _).
  destruct Ht as (pre & d1 & d2 & (_ & Hv & _ & [_ Hcl]) & _).
  cbn [event_of Event.sessionName Event.clipNumber Event.viewName Event.fullLine].
  destruct (padStart_zero_facts not_underscore cl) as [Hlen Hall].
  split; [reflexivity|]. split; [exact Hlen|].
  split; [now apply Hall|]. split; [exact Hv|].
  split; [exact Hne|]. split; [exact Hh|]. eauto.
Qed.

Lemma X5_event_invariants_witness :
  (List.length [event_of "PRJ_VEH_010124_120000_5" session_body "Front" "7" "CamA"
                         "100" ["Honk"]]
   <= List.length (split "010" session_body))%nat
  /\ forall ev,
       In ev [event_of "PRJ_VEH_010124_120000_5" session_body "Front" "7" "CamA"
                       "100" ["Honk"]] ->
       Event.sessionName ev = "PRJ_VEH_010124_120000_5"
       /\ (4 <= String.length (Event.clipNumber ev))%nat
       /\ Str.all not_underscore (Event.clipNumber ev) = true
       /\ run not_underscore (Event.viewName ev)
       /\ Event.fullLine ev <> ""
       /\ Str.startsWith "#" (Event.fullLine ev) = false
       /\ exists line, In line (split "010" session_body)
                       /\ Event.fullLine ev = trim line.
Proof.
  exact (X5_event_invariants session_body "PRJ_VEH_010124_120000_5" _
           ltac:(vm_compute; reflexivity)).
Defined.

(** X6.  The characters of a session name never act as pattern syntax:
    for every session name the pattern is built without an exception, it
    is the name taken character by character followed by the fixed tail,
    and a token matches it exactly when the token ends with the session
    name itself followed by [_s<digits>_s_<view>_s<digits>_<clip>]. *)
Theorem X6_session_name_is_literal (sessionName token : string) :
  RegExp (escapeRegExp sessionName +:+ "_s\d+_s_([^_]+)_s\d+_([^_]+)$")
  = Some (lit_then sessionName trackTail)
  /\ (str_match (lit_then sessionName trackTail) token <> None
      <-> exists view clip, ends_with_track sessionName token view clip).
Proof.
  split; [exact (RegExp_trackSource sessionName)|].
  change (lit_then sessionName trackTail) with (trackRegex sessionName). split.
  - intros Hne.
    destruct (str_match (trackRegex sessionName) token) as [res|] eqn:E;
      [|contradiction].
    apply str_match_track_sound in E as (whole & view & clip & _ & Hends). eauto.
  - intros Hy Hn. apply str_match_track_None in Hn. contradiction.
Qed.

Lemma trimEnd_cons (a : ascii) (t : string) :
  trimEnd (String a t)
  = match trimEnd t with
    | EmptyString => if is_white a then "" else String a ""
    | t' => String a t'
    end.
Proof. reflexivity. Qed.

Lemma trimEnd_idem (s : string) : trimEnd (trimEnd s) = trimEnd s.
Proof.
  induction s as [|a t IH]; [reflexivity|].
  rewrite trimEnd_cons. destruct (trimEnd t) as [|d r] eqn:E.
  - destruct (is_white a) eqn:Ea; [reflexivity|].
    rewrite trimEnd_cons. cbn [trimEnd]. now rewrite Ea.
  - rewrite trimEnd_cons, IH. reflexivity.
Qed.

(** A trimmed text that is not empty starts with a character that is not
    white space, and trimming its end changes nothing. *)
Lemma trim_shape (s : string) :
  trim s <> "" ->
  trimEnd (trim s) = trim s
  /\ exists a t, trim s = String a t /\ is_white a = false.
Proof.
  intros Hne. split; [apply trimEnd_idem|]. unfold trim in *.
  assert (Hs : trimStart s = "" \/ exists a t, trimStart s = String a t
                                                /\ is_white a = false).
  { clear Hne. induction s as [|a t IH]; [now left|]. simpl.
    destruct (is_white a) eqn:Ea; [exact IH | right; eauto]. }
  destruct Hs as [E | (a & t & E & Ea)]; rewrite E in *; [now contradiction Hne|].
  rewrite trimEnd_cons, Ea. destruct (trimEnd t); eauto.
Qed.

Lemma split_white_go_tokens (s : string) :
  forall (sep : bool) (cur : string),
    Str.all not_white cur = true ->
    s = "" \/ (s <> "" /\ trimEnd s = s) ->
    (if sep then s <> ""
     else cur <> "" \/ exists a t, s = String a t /\ is_white a = false) ->
    Forall (run not_white) (split_white_go sep cur s).
Proof.
  induction s as [|a t IH]; intros sep cur Hcur Hend Hstart.
  - destruct sep; [now contradiction Hstart|].
    destruct Hstart as [Hne | (? & ? & E & _)]; [|discriminate E].
    constructor; [split; assumption | constructor].
  - destruct Hend as [E | [_ Hend]]; [discriminate E|].
    rewrite trimEnd_cons in Hend.
    assert (Htail : (is_white a = false /\ t = "") \/ (t <> "" /\ trimEnd t = t)).
    { destruct (trimEnd t) as [|d r] eqn:Et.
      - destruct (is_white a); [discriminate Hend|]. injection Hend as <-. now left.
      - injection Hend as <-. right. split; [discriminate | reflexivity]. }
    cbn [split_white_go]. destruct (is_white a) eqn:Ea.
    + destruct Htail as [[Hc _] | Htail]; [discriminate Hc|].
      assert (Hrest : Forall (run not_white) (split_white_go true "" t)).
      { apply IH; [reflexivity | now right | exact (proj1 Htail)]. }
      destruct sep; [exact Hrest|].
      destruct Hstart as [Hne | (a' & t' & E & Ea')];
        [|injection E as <- <-; congruence].
      constructor; [split; assumption | exact Hrest].
    + apply IH.
      * rewrite str_all_app, Hcur. unfold not_white. simpl. now rewrite Ea.
      * destruct Htail as [[_ ->] | Htail]; [now left | now right].
      * left. destruct cur; discriminate.
Qed.

(** The pieces of a trimmed line are non-empty and free of white space. *)
Lemma split_white_trim (line : string) :
  trim line <> "" -> Forall (run not_white) (split_white (trim line)).
Proof.
  intros Hne. destruct (trim_shape line Hne) as (Hend & Hstart).
  apply split_white_go_tokens; [reflexivity | now right | now right].
Qed.

(** X26.  The fields of an event are the pieces of its full line between
    the runs of white space: the second piece is the camera, the third the
    frame number, and the pieces after it, of which there is at least one,
    joined by single spaces, are the event name; no piece is empty or
    holds white space. *)
Theorem X26_event_fields (content sessionName : string) (events : list Event.t) :
  parseJumpFileContent content sessionName = Some events ->
  forall ev, In ev events ->
    exists trackfile words,
      split_white (Event.fullLine ev)
      = trackfile :: Event.camera ev :: Event.frameNumber ev :: words
      /\ words <> []
      /\ Event.eventName ev = String.concat " " words
      /\ Forall (run not_white)
                (trackfile :: Event.camera ev :: Event.frameNumber ev :: words).
Proof.
  intros H ev Hin. apply (parseLines_In _ _ _ H) in Hin as (line & Hl & Hp).
  apply parseLine_Pushed in Hp as (t & c & fr & ps & v & cl & Hc & _ & ->).
  destruct Hc as (Hne & _ & Hsplit & Hps).
  cbn [event_of Event.fullLine Event.camera Event.frameNumber Event.eventName].
  exists t, ps. split; [exact Hsplit|]. split; [exact Hps|]. split; [reflexivity|].
  rewrite <- Hsplit. now apply split_white_trim.
Qed.

Lemma X26_event_fields_witness :
  exists trackfile words,
    split_white (Event.fullLine example_event)
    = trackfile :: Event.camera example_event :: Event.frameNumber example_event :: words
    /\ words <> []
    /\ Event.eventName example_event = String.concat " " words
    /\ Forall (run not_white)
              (trackfile :: Event.camera example_event
                         :: Event.frameNumber example_event :: words).
Proof.
  exact (X26_event_fields session_body "PRJ_VEH_010124_120000_5" [example_event]
           ltac:(vm_compute; reflexivity) example_event ltac:(left; reflexivity)).
Defined.

(* ===================================================================== *)
(** ** Further properties: the scanner                                  *)
(* ===================================================================== *)

Lemma in_flat_map_Forall {A B : Type} (Q : A -> Prop) (R : B -> Prop)
      (f : A -> list B) (l : list A) :
  Forall Q l -> (forall a, Q a -> forall b, In b (f a) -> R b) ->
  forall b, In b (flat_map f l) -> R b.
Proof.
  intros Hall Hstep b Hin. apply in_flat_map in Hin as (a & Ha & Hb).
  rewrite List.Forall_forall in Hall. exact (Hstep a (Hall a Ha) b Hb).
Qed.

Lemma flat_map_ext_Forall {A B : Type} (f g : A -> list B) (l : list A) :
  Forall (fun a => f a = g a) l -> flat_map f l = flat_map g l.
Proof. induction 1 as [|a t Ha _ IH]; simpl; [reflexivity | now rewrite Ha, IH]. Qed.

(** A record pushed for a file is built from a name of the grammar with
    an accepted ticket, the stats and the events of the text read. *)
Lemma scanFile_In (name fullPath : string) (stat : option Stats)
      (content : option string) (subtasks : list string) (f : File.t) :
  In f (scanFile name fullPath stat content subtasks) ->
  exists k stats text events,
    well_formed k /\ name = artifact_name k
    /\ In (r_ticket k) subtasks
    /\ stat = Some stats /\ content = Some text
    /\ parseJumpFileContent text (Meta.sessionName (meta_of k)) = Some events
    /\ f = fileRecord name fullPath (meta_of k) stats events.
Proof.
  unfold scanFile. destruct (parseFileName name) as [m|] eqn:Ep; [|intros []].
  apply parseFileName_Some in Ep as (k & Hk & -> & ->).
  destruct (String.eqb (Meta.datacoNumber (meta_of k)) ""); [intros []|].
  destruct (includes subtasks (Meta.datacoNumber (meta_of k))) eqn:Ei; [|intros []].
  apply includes_In in Ei. cbn [negb].
  destruct stat as [stats|]; [|intros []].
  destruct content as [text|]; [|intros []].
  destruct (parseJumpFileContent text (Meta.sessionName (meta_of k))) as [events|] eqn:Ee;
    [|intros []].
  intros [<- | []]. exists k, stats, text, events. auto 10.
Qed.

Lemma scan_records (path_join : string -> string -> string) (subtasks : list string)
      (d : dir_state) :
  forall (dirPath : string) (f : File.t),
    In f (scanDirectory path_join dirPath d subtasks) ->
    exists k dir stats text events,
      well_formed k /\ In (r_ticket k) subtasks
      /\ parseJumpFileContent text (Meta.sessionName (meta_of k)) = Some events
      /\ f = fileRecord (artifact_name k) (path_join dir (artifact_name k))
                        (meta_of k) stats events.
Proof.
  induction d using tree_ind with
    (Q := fun e => forall dirPath f,
              In f (scanEntry path_join dirPath subtasks e) ->
              exists k dir stats text events,
                well_formed k /\ In (r_ticket k) subtasks
                /\ parseJumpFileContent text (Meta.sessionName (meta_of k)) = Some events
                /\ f = fileRecord (artifact_name k) (path_join dir (artifact_name k))
                                  (meta_of k) stats events).
  - intros dirPath f [].
  - intros dirPath f [].
  - intros dirPath f Hin. rewrite scanDirectory_Listing in Hin.
    apply in_flat_map in Hin as (e & He & Hf).
    rewrite List.Forall_forall in H. exact (H e He dirPath f Hf).
  - intros dirPath f Hin. cbn [scanEntry] in Hin. exact (IHd _ f Hin).
  - intros dirPath f Hin. cbn [scanEntry entry_name] in Hin.
    destruct (Str.endsWith ".jump" name); [|destruct Hin].
    apply scanFile_In in Hin as (k & stats & text & events & Hk & -> & Ht & _ & _ & He & ->).
    exists k, dirPath, stats, text, events. auto.
  - intros dirPath f [].
Qed.

Lemma uniq_go_In (seen xs : list string) (x : string) :
  In x (uniq_go seen xs) <-> In x xs /\ ~ In x seen.
Proof.
  revert seen. induction xs as [|y t IH]; intros seen; simpl.
  - tauto.
  - destruct (existsb (String.eqb y) seen) eqn:E.
    + apply (includes_In seen y) in E. rewrite IH. split.
      * tauto.
      * intros [[<- | Hin] Hn]; [contradiction | tauto].
    + assert (Hy : ~ In y seen).
      { intros Hin. apply (includes_In seen y) in Hin. unfold includes in Hin. congruence. }
      simpl. rewrite IH. simpl. split.
      * intros [<- | (Hin & Hn)]; [tauto|]. split; [tauto|]. tauto.
      * intros [[<- | Hin] Hn]; [tauto|].
        destruct (String.eqb_spec y x) as [->|Hne]; [tauto|]. right.
        split; [assumption|]. intros [E' | E']; [congruence | contradiction].
Qed.

Lemma uniq_go_NoDup (seen xs : list string) : List.NoDup (uniq_go seen xs).
Proof.
  revert seen. induction xs as [|y t IH]; intros seen; simpl; [constructor|].
  destruct (existsb (String.eqb y) seen); [apply IH|].
  constructor; [|apply IH].
  rewrite uniq_go_In. simpl. tauto.
Qed.

Lemma uniq_In (xs : list string) (x : string) : In x (uniq xs) <-> In x xs.
Proof. unfold uniq. rewrite uniq_go_In. simpl. tauto. Qed.

Lemma uniq_NoDup (xs : list string) : List.NoDup (uniq xs).
Proof. apply uniq_go_NoDup. Qed.

(** X7.  What every record of a scan satisfies: its ticket number is one
    of the accepted ones; its metadata fields are what parseFileName
    gives for its file name, and its path is the join of a directory and
    that name; its events are the result of the content parser on some
    text, for the session name of the record; eventCount is the number of
    events; and the three unique lists are free of duplicates and hold
    exactly the event names, cameras and clip numbers of the events. *)
Theorem X7_scanned_record (path_join : string -> string -> string)
        (subtasks : list string) (d : dir_state) (dirPath : string) (f : File.t) :
  In f (scanDirectory path_join dirPath d subtasks) ->
  In (File.datacoNumber f) subtasks
  /\ parseFileName (File.fileName f) = Some (metadata_of f)
  /\ (exists dir, File.filePath f = path_join dir (File.fileName f))
  /\ (exists text, parseJumpFileContent text (File.sessionName f) = Some (File.events f))
  /\ File.eventCount f = Z.of_nat (List.length (File.events f))
  /\ List.NoDup (File.uniqueEvents f)
  /\ List.NoDup (File.uniqueCameras f)
  /\ List.NoDup (File.uniqueClips f)
  /\ (forall x, In x (File.uniqueEvents f)
                <-> exists ev, In ev (File.events f) /\ Event.eventName ev = x)
  /\ (forall x, In x (File.uniqueCameras f)
                <-> exists ev, In ev (File.events f) /\ Event.camera ev = x)
  /\ (forall x, In x (File.uniqueClips f)
                <-> exists ev, In ev (File.events f) /\ Event.clipNumber ev = x).
Proof.
  intros Hin.
  apply scan_records in Hin as (k & dir & stats & text & events & Hk & Ht & He & ->).
  cbn [fileRecord File.datacoNumber File.fileName File.filePath File.events
       File.eventCount File.uniqueEvents File.uniqueCameras File.uniqueClips
       File.sessionName].
  split; [exact Ht|].
  split; [exact (parseFileName_grammar k Hk)|].
  split; [eauto|]. split; [eauto|]. split; [reflexivity|].
  split; [apply uniq_NoDup|]. split; [apply uniq_NoDup|]. split; [apply uniq_NoDup|].
  repeat split; intros H.
  - apply uniq_In, in_map_iff in H as (ev & E & Hev). eauto.
  - destruct H as (ev & Hev & <-). apply uniq_In, in_map. exact Hev.
  - apply uniq_In, in_map_iff in H as (ev & E & Hev). eauto.
  - destruct H as (ev & Hev & <-). apply uniq_In, in_map. exact Hev.
  - apply uniq_In, in_map_iff in H as (ev & E & Hev). eauto.
  - destruct H as (ev & Hev & <-). apply uniq_In, in_map. exact Hev.
Qed.

Lemma example_record_scanned :
  In example_record
     (scanDirectory posix_join "/r" (Listing [readable_entry]) ["42"]).
Proof. vm_compute. left. reflexivity. Qed.

Lemma X7_scanned_record_witness :
  In (File.datacoNumber example_record) ["42"]
  /\ parseFileName (File.fileName example_record) = Some (metadata_of example_record)
  /\ (exists dir, File.filePath example_record
                  = posix_join dir (File.fileName example_record))
  /\ (exists text, parseJumpFileContent text (File.sessionName example_record)
                   = Some (File.events example_record))
  /\ File.eventCount example_record
     = Z.of_nat (List.length (File.events example_record))
  /\ List.NoDup (File.uniqueEvents example_record)
  /\ List.NoDup (File.uniqueCameras example_record)
  /\ List.NoDup (File.uniqueClips example_record)
  /\ (forall x, In x (File.uniqueEvents example_record)
                <-> exists ev, In ev (File.events example_record)
                               /\ Event.eventName ev = x)
  /\ (forall x, In x (File.uniqueCameras example_record)
                <-> exists ev, In ev (File.events example_record)
                               /\ Event.camera ev = x)
  /\ (forall x, In x (File.uniqueClips example_record)
                <-> exists ev, In ev (File.events example_record)
                               /\ Event.clipNumber ev = x).
Proof.
  exact (X7_scanned_record posix_join ["42"] (Listing [readable_entry]) "/r"
           example_record example_record_scanned).
Defined.

Lemma includes_same (s s' : list string) (x : string) :
  (forall y, In y s <-> In y s') -> includes s x = includes s' x.
Proof.
  intros H. destruct (includes s x) eqn:E, (includes s' x) eqn:E'; try reflexivity.
  - apply includes_In, H, includes_In in E. congruence.
  - apply includes_In, H, includes_In in E'. congruence.
Qed.

Lemma scanFile_same (name fullPath : string) (stat : option Stats)
      (content : option string) (s s' : list string) :
  (forall y, In y s <-> In y s') ->
  scanFile name fullPath stat content s = scanFile name fullPath stat content s'.
Proof.
  intros H. unfold scanFile. destruct (parseFileName name) as [m|]; [|reflexivity].
  now rewrite (includes_same s s' _ H).
Qed.

Lemma scan_same (path_join : string -> string -> string) (s s' : list string)
      (d : dir_state) :
  (forall y, In y s <-> In y s') ->
  forall dirPath,
    scanDirectory path_join dirPath d s = scanDirectory path_join dirPath d s'.
Proof.
  intros H.
  induction d using tree_ind with
    (Q := fun e => forall dirPath,
              scanEntry path_join dirPath s e = scanEntry path_join dirPath s' e);
    intros dirPath; try reflexivity.
  - rewrite !scanDirectory_Listing. apply flat_map_ext_Forall.
    eapply List.Forall_impl; [|exact H0]. intros e He. apply He.
  - cbn [scanEntry]. apply IHd.
  - cbn [scanEntry]. now rewrite (scanFile_same _ _ _ _ s s' H).
Qed.

(** X8.  The scan depends on the accepted tickets as a set: two lists
    with the same members, in any order and with any repetitions, give the
    same records; and with no accepted ticket the scan is empty whatever
    the tree holds. *)
Theorem X8_subtasks_as_a_set (path_join : string -> string -> string)
        (s s' : list string) (d : dir_state) (dirPath : string) :
  (forall y, In y s <-> In y s') ->
  scanDirectory path_join dirPath d s = scanDirectory path_join dirPath d s'
  /\ scanDirectory path_join dirPath d [] = [].
Proof.
  intros H. split; [now apply scan_same|].
  destruct (scanDirectory path_join dirPath d []) as [|f l] eqn:E; [reflexivity|].
  assert (Hin : In f (scanDirectory path_join dirPath d [])) by (rewrite E; now left).
  apply scan_records in Hin as (k & _ & _ & _ & _ & _ & [] & _).
Qed.

Lemma X8_subtasks_as_a_set_witness :
  scanDirectory posix_join "/r" (Listing [readable_entry; readable_entry]) ["42"; "7"]
  = scanDirectory posix_join "/r" (Listing [readable_entry; readable_entry])
                  ["7"; "42"; "42"]
  /\ scanDirectory posix_join "/r" (Listing [readable_entry; readable_entry]) [] = [].
Proof.
  exact (X8_subtasks_as_a_set posix_join ["42"; "7"] ["7"; "42"; "42"]
           (Listing [readable_entry; readable_entry]) "/r"
           ltac:(intros y; simpl; tauto)).
Defined.

(** X9.  The traversal is depth first in the order of the listing: the
    records of a directory are those of the entries before a subdirectory,
    then those of the subdirectory scanned under the joined path, then
    those of the entries after it. *)
Theorem X9_depth_first_order (path_join : string -> string -> string)
        (subtasks : list string) (dirPath name : string) (sub : dir_state)
        (before after : list dirent) :
  scanDirectory path_join dirPath (Listing (before ++ DirEntry name sub :: after))
                subtasks
  = scanDirectory path_join dirPath (Listing before) subtasks
    ++ scanDirectory path_join (path_join dirPath name) sub subtasks
    ++ scanDirectory path_join dirPath (Listing after) subtasks.
Proof. rewrite !scanDirectory_Listing, flat_map_app. reflexivity. Qed.



(** X28.  What the scanner passes over: a subdirectory that is missing or
    cannot be listed, an entry that is neither a directory nor a regular
    file, and a regular file whose name does not end in .jump, whatever its
    stat and read would give, leave the scan of the tree as it is without
    them, wherever they are listed. *)
Theorem X28_passed_over (path_join : string -> string -> string)
        (subtasks : list string) (c : context) (dirPath : string) (e : dirent) :
  passed_over e ->
  scanDirectory path_join dirPath (plug c [e]) subtasks
  = scanDirectory path_join dirPath (plug c []) subtasks.
Proof.
  intros He. apply scan_plug_silent. intros d. cbn [flat_map]. rewrite app_nil_r.
  destruct e as [name sub|name stat content|name]; cbn [scanEntry passed_over] in *.
  - destruct He as [-> | ->]; reflexivity.
  - now rewrite He.
  - reflexivity.
Qed.

Lemma X28_passed_over_witness :
  scanDirectory posix_join "/r"
    (plug nested_hole
          [FileEntry "PRJ_VEH_010124_120000_5_020124_DATACO-42.txt"
                     (Some {| st_size := 62; st_mtime := 0 |}) (Some session_body)])
    ["42"]
  = scanDirectory posix_join "/r" (plug nested_hole []) ["42"].
Proof.
  exact (X28_passed_over posix_join ["42"] nested_hole "/r"
           (FileEntry "PRJ_VEH_010124_120000_5_020124_DATACO-42.txt"
                      (Some {| st_size := 62; st_mtime := 0 |}) (Some session_body))
           eq_refl).
Defined.

(* ===================================================================== *)
(** ** Further properties: the reply of the file route                  *)
(* ===================================================================== *)

Lemma GET_Json (path_join : string -> string -> string)
      (localeCompare : string -> string -> Z)
      (mainTicket subtasksParam : string) (root : dir_state) :
  mainTicket <> "" -> subtasksParam <> "" ->
  GET path_join localeCompare (Some mainTicket) (Some subtasksParam) root
  = let subtasks := normalizeSubtasks subtasksParam in
    let files := scanDirectory path_join VOICE_TAGGING_PATH root subtasks in
    Json {| Response.mainTicket := mainTicket;
            Response.subtasks := map (fun s => "DATACO-" +:+ s) subtasks;
            Response.totalFiles := Z.of_nat (List.length files);
            Response.projectFolders := projectFoldersOf root;
            Response.files :=
              sort_by (fun a b => localeCompare (File.fileName a) (File.fileName b))
                      files;
            Response.summary := summarize files |}.
Proof.
  intros Hm Hs. unfold GET.
  destruct (String.eqb_spec mainTicket "") as [|_]; [contradiction|].
  destruct (String.eqb_spec subtasksParam "") as [|_]; [contradiction|].
  reflexivity.
Qed.

Lemma replace_prefix (pat rep r : string) :
  replace pat rep (pat +:+ r) = rep +:+ r.
Proof.
  rewrite replace_unfold.
  assert (Hp : String.prefix pat (pat +:+ r) = true) by (apply prefix_app; eauto).
  now rewrite Hp, substring_drop_app.
Qed.

(** X10.  A request with both parameters is answered with a body that
    echoes the main ticket as it came and one entry per comma-separated
    entry of the subtasks parameter, in the same order: an entry that
    starts with DATACO- comes back as it is, and an entry without DATACO-
    comes back with DATACO- in front. *)
Theorem X10_request_echo (path_join : string -> string -> string)
        (localeCompare : string -> string -> Z)
        (mainTicket subtasksParam : string) (root : dir_state) :
  mainTicket <> "" -> subtasksParam <> "" ->
  exists body,
    GET path_join localeCompare (Some mainTicket) (Some subtasksParam) root = Json body
    /\ Response.mainTicket body = mainTicket
    /\ List.length (Response.subtasks body) = List.length (split "," subtasksParam)
    /\ forall i entry,
         nth_error (split "," subtasksParam) i = Some entry ->
         exists echoed,
           nth_error (Response.subtasks body) i = Some echoed
           /\ (Str.startsWith "DATACO-" entry = true -> echoed = entry)
           /\ ((forall a b, entry <> a +:+ "DATACO-" +:+ b) ->
               echoed = "DATACO-" +:+ entry).
Proof.
  intros Hm Hs. eexists. split; [exact (GET_Json _ _ _ _ root Hm Hs)|].
  cbn [Response.mainTicket Response.subtasks]. split; [reflexivity|].
  unfold normalizeSubtasks. split; [now rewrite !length_map|].
  intros i entry Hi. exists ("DATACO-" +:+ replace "DATACO-" "" entry).
  split; [now rewrite !nth_error_map, Hi|]. split.
  - intros Hp. apply prefix_app in Hp as [r ->]. now rewrite replace_prefix.
  - intros Hno. now rewrite (replace_absent "DATACO-" "" entry Hno).
Qed.

Lemma X10_request_echo_witness :
  exists body,
    GET posix_join defaultCompare (Some "DATACO-1") (Some "DATACO-42,7")
        (Listing [readable_entry]) = Json body
    /\ Response.mainTicket body = "DATACO-1"
    /\ List.length (Response.subtasks body) = List.length (split "," "DATACO-42,7")
    /\ forall i entry,
         nth_error (split "," "DATACO-42,7") i = Some entry ->
         exists echoed,
           nth_error (Response.subtasks body) i = Some echoed
           /\ (Str.startsWith "DATACO-" entry = true -> echoed = entry)
           /\ ((forall a b, entry <> a +:+ "DATACO-" +:+ b) ->
               echoed = "DATACO-" +:+ entry).
Proof.
  exact (X10_request_echo posix_join defaultCompare "DATACO-1" "DATACO-42,7"
           (Listing [readable_entry]) ltac:(discriminate) ltac:(discriminate)).
Defined.

Lemma sumZ_perm (l l' : list Z) : Permutation l l' -> sumZ l = sumZ l'.
Proof. induction 1; simpl; lia. Qed.

Lemma length_flat_map_sum {A B : Type} (f : A -> list B) (l : list A) :
  Z.of_nat (List.length (flat_map f l))
  = sumZ (map (fun a => Z.of_nat (List.length (f a))) l).
Proof.
  induction l as [|a t IH]; simpl; [reflexivity|].
  rewrite length_app, Nat2Z.inj_add, IH. reflexivity.
Qed.

Lemma map_ext_on {A B : Type} (f g : A -> B) (l : list A) :
  (forall a, In a l -> f a = g a) -> map f l = map g l.
Proof.
  induction l as [|a t IH]; simpl; intros H; [reflexivity|].
  rewrite (H a) by now left. rewrite IH by (intros; apply H; now right). reflexivity.
Qed.

Lemma scan_eventCount (path_join : string -> string -> string) (subtasks : list string)
      (d : dir_state) (dirPath : string) (f : File.t) :
  In f (scanDirectory path_join dirPath d subtasks) ->
  File.eventCount f = Z.of_nat (List.length (File.events f)).
Proof.
  intros Hin.
  apply scan_records in Hin as (k & dir & stats & text & events & _ & _ & _ & ->).
  reflexivity.
Qed.

(** X11.  The files of the reply are the records of the scan, each as
    often as the scan gives it, in the order of their file names under the
    host's localeCompare; totalFiles is their number and totalEvents is the
    sum of their event counts. *)
Theorem X11_response_files (path_join : string -> string -> string)
        (localeCompare : string -> string -> Z)
        (mainTicket subtasksParam : string) (root : dir_state) :
  consistent localeCompare -> mainTicket <> "" -> subtasksParam <> "" ->
  exists body,
    GET path_join localeCompare (Some mainTicket) (Some subtasksParam) root = Json body
    /\ Permutation (Response.files body)
                   (scanDirectory path_join VOICE_TAGGING_PATH root
                                  (normalizeSubtasks subtasksParam))
    /\ StronglySorted
         (fun a b => (localeCompare (File.fileName a) (File.fileName b) <= 0)%Z)
         (Response.files body)
    /\ Response.totalFiles body = Z.of_nat (List.length (Response.files body))
    /\ totalEvents (Response.summary body)
       = sumZ (map File.eventCount (Response.files body)).
Proof.
  intros Hc Hm Hs. eexists. split; [exact (GET_Json _ _ _ _ root Hm Hs)|].
  cbn [Response.files Response.totalFiles Response.summary summarize totalEvents].
  set (files := scanDirectory _ _ _ _).
  set (cmp := fun a b : File.t => localeCompare (File.fileName a) (File.fileName b)).
  pose proof (consistent_on File.fileName localeCompare Hc) as Hcf. fold cmp in Hcf.
  split; [apply sort_by_perm|].
  split; [apply (sort_by_sorted cmp (consistent_total cmp Hcf) (proj2 Hcf))|].
  split; [now rewrite (Permutation_length (sort_by_perm cmp files))|].
  rewrite (sumZ_perm _ _ (Permutation_map File.eventCount (sort_by_perm cmp files))).
  rewrite length_flat_map_sum. f_equal. symmetry. apply map_ext_on.
  intros f Hf. exact (scan_eventCount _ _ _ _ f Hf).
Qed.

Lemma X11_response_files_witness :
  exists body,
    GET posix_join defaultCompare (Some "DATACO-1") (Some "DATACO-42")
        (Listing [readable_entry]) = Json body
    /\ Permutation (Response.files body)
                   (scanDirectory posix_join VOICE_TAGGING_PATH (Listing [readable_entry])
                                  (normalizeSubtasks "DATACO-42"))
    /\ StronglySorted
         (fun a b => (defaultCompare (File.fileName a) (File.fileName b) <= 0)%Z)
         (Response.files body)
    /\ Response.totalFiles body = Z.of_nat (List.length (Response.files body))
    /\ totalEvents (Response.summary body)
       = sumZ (map File.eventCount (Response.files body)).
Proof.
  exact (X11_response_files posix_join defaultCompare "DATACO-1" "DATACO-42"
           (Listing [readable_entry]) defaultCompare_consistent
           ltac:(discriminate) ltac:(discriminate)).
Defined.

Lemma sorted_unique (xs : list string) :
  let s := sort_by defaultCompare (uniq xs) in
  List.NoDup s
  /\ StronglySorted (fun a b => String.leb a b = true) s
  /\ forall x, In x s <-> In x xs.
Proof.
  intros s. pose proof (sort_by_perm defaultCompare (uniq xs)) as Hp. fold s in Hp.
  split; [exact (Permutation_NoDup (Permutation_sym Hp) (uniq_NoDup xs))|].
  split; [apply sort_by_defaultCompare_sorted|].
  intros x. split; intros H.
  - apply uniq_In. exact (Permutation_in x Hp H).
  - apply uniq_In in H. exact (Permutation_in x (Permutation_sym Hp) H).
Qed.

(** X12.  Each unique-value list of the summary is free of duplicates, in
    ascending order of the code units, and holds exactly the values that
    occur: the projects and the vehicles of the files, and the event names
    and cameras of the events of the files. *)
Theorem X12_summary_sets (files : list File.t) :
  let s := summarize files in
  (List.NoDup (uniqueProjects s)
   /\ StronglySorted (fun a b => String.leb a b = true) (uniqueProjects s)
   /\ forall x, In x (uniqueProjects s) <-> exists f, In f files /\ File.project f = x)
  /\ (List.NoDup (uniqueVehicles s)
      /\ StronglySorted (fun a b => String.leb a b = true) (uniqueVehicles s)
      /\ forall x, In x (uniqueVehicles s) <-> exists f, In f files /\ File.vehicle f = x)
  /\ (List.NoDup (uniqueEventTypes s)
      /\ StronglySorted (fun a b => String.leb a b = true) (uniqueEventTypes s)
      /\ forall x, In x (uniqueEventTypes s)
                   <-> exists f ev, In f files /\ In ev (File.events f)
                                    /\ Event.eventName ev = x)
  /\ (List.NoDup (uniqueCameraTypes s)
      /\ StronglySorted (fun a b => String.leb a b = true) (uniqueCameraTypes s)
      /\ forall x, In x (uniqueCameraTypes s)
                   <-> exists f ev, In f files /\ In ev (File.events f)
                                    /\ Event.camera ev = x).
Proof.
  intros s. subst s. cbn [summarize uniqueProjects uniqueVehicles uniqueEventTypes
                           uniqueCameraTypes].
  split; [|split; [|split]].
  - destruct (sorted_unique (map File.project files)) as (Hn & Hs & Hi).
    split; [exact Hn|]. split; [exact Hs|]. intros x. rewrite Hi, in_map_iff.
    split; intros (f & H1 & H2); eauto.
  - destruct (sorted_unique (map File.vehicle files)) as (Hn & Hs & Hi).
    split; [exact Hn|]. split; [exact Hs|]. intros x. rewrite Hi, in_map_iff.
    split; intros (f & H1 & H2); eauto.
  - destruct (sorted_unique (map Event.eventName (flat_map File.events files)))
      as (Hn & Hs & Hi).
    split; [exact Hn|]. split; [exact Hs|]. intros x. rewrite Hi, in_map_iff. split.
    + intros (ev & E & Hev). apply in_flat_map in Hev as (f & Hf & Hev). eauto.
    + intros (f & ev & Hf & Hev & E). exists ev. split; [exact E|].
      apply in_flat_map. eauto.
  - destruct (sorted_unique (map Event.camera (flat_map File.events files)))
      as (Hn & Hs & Hi).
    split; [exact Hn|]. split; [exact Hs|]. intros x. rewrite Hi, in_map_iff. split.
    + intros (ev & E & Hev). apply in_flat_map in Hev as (f & Hf & Hev). eauto.
    + intros (f & ev & Hf & Hev & E). exists ev. split; [exact E|].
      apply in_flat_map. eauto.
Qed.

Lemma filter_all_In {A : Type} (p : A -> bool) (l : list A) :
  (forall x, In x l -> p x = true) -> List.filter p l = l.
Proof.
  induction l as [|x t IH]; simpl; intros H; [reflexivity|].
  rewrite (H x) by now left. rewrite IH by (intros; apply H; now right). reflexivity.
Qed.

Lemma leb_refl (a : string) : String.leb a a = true.
Proof. apply defaultCompare_le, defaultCompare_refl. Qed.

(** The bounds of the date range when no record has an empty date. *)
Lemma dateRange_bounds (files : list File.t) :
  (forall f, In f files -> File.date f <> "") ->
  let r := dateRange (summarize files) in
  (files = [] -> earliest r = "" /\ latest r = "")
  /\ (files <> [] ->
      (exists f, In f files /\ earliest r = File.date f)
      /\ (exists f, In f files /\ latest r = File.date f))
  /\ (forall f, In f files ->
        String.leb (earliest r) (File.date f) = true
        /\ String.leb (File.date f) (latest r) = true).
Proof.
  intros Hne r. subst r. cbn [summarize dateRange earliest latest].
  rewrite (filter_all_In (fun d => negb (String.eqb d "")) (map File.date files)).
  2:{ intros d (f & <- & Hf)%in_map_iff.
      destruct (String.eqb_spec (File.date f) "") as [E|_]; [|reflexivity].
      now apply Hne in Hf. }
  set (sd := sort_by defaultCompare (map File.date files)).
  pose proof (sort_by_perm defaultCompare (map File.date files)) as Hp. fold sd in Hp.
  pose proof (sort_by_defaultCompare_sorted (map File.date files)) as Hs. fold sd in Hs.
  assert (Hdate : forall m, In m sd -> exists f, In f files /\ m = File.date f).
  { intros m Hm. apply (Permutation_in m Hp), in_map_iff in Hm as (f & <- & Hf). eauto. }
  assert (Hin : forall f, In f files -> In (File.date f) sd).
  { intros f Hf. apply (Permutation_in _ (Permutation_sym Hp)), in_map. exact Hf. }
  destruct files as [|f0 t].
  - split; [intros _; split; reflexivity|]. split; [intros H; now contradiction H|].
    intros f [].
  - assert (Hlen : List.length sd = S (List.length t)).
    { rewrite (Permutation_length Hp). simpl. now rewrite length_map. }
    destruct (nth_error sd 0) as [lo|] eqn:Elo.
    2:{ apply nth_error_None in Elo. lia. }
    destruct (nth_error sd (List.length sd - 1)) as [hi|] eqn:Ehi.
    2:{ apply nth_error_None in Ehi. lia. }
    cbn [or_empty].
    destruct (sorted_first (fun a b => String.leb a b = true) sd lo leb_refl Hs Elo)
      as [Hlo Hlo'].
    destruct (sorted_last (fun a b => String.leb a b = true) sd hi leb_refl Hs Ehi)
      as [Hhi Hhi'].
    split; [discriminate|]. split.
    + intros _. split; [exact (Hdate lo Hlo) | exact (Hdate hi Hhi)].
    + intros f Hf. split; [exact (Hlo' _ (Hin f Hf)) | exact (Hhi' _ (Hin f Hf))].
Qed.

Lemma scan_date_length (path_join : string -> string -> string) (subtasks : list string)
      (d : dir_state) (dirPath : string) (f : File.t) :
  In f (scanDirectory path_join dirPath d subtasks) ->
  String.length (File.date f) = 10%nat.
Proof.
  intros Hin.
  apply scan_records in Hin as (k & dir & stats & text & events & Hk & _ & _ & ->).
  destruct Hk as (_ & _ & [Hd _] & _).
  cbn [fileRecord File.date meta_of Meta.date]. now apply formatDate_length.
Qed.

(** X13.  The date range of a reply: no scanned record has an empty date,
    so the test that drops empty dates drops nothing; both bounds are empty
    exactly when the reply has no file; otherwise each bound is the date of
    a file of the reply, and the date of every file of the reply lies
    between them in the order of the code units. *)
Theorem X13_date_range_of_scan (path_join : string -> string -> string)
        (localeCompare : string -> string -> Z)
        (mainTicket subtasksParam : string) (root : dir_state) :
  mainTicket <> "" -> subtasksParam <> "" ->
  exists body,
    GET path_join localeCompare (Some mainTicket) (Some subtasksParam) root = Json body
    /\ (forall f, In f (Response.files body) -> File.date f <> "")
    /\ (earliest (dateRange (Response.summary body)) = "" <-> Response.files body = [])
    /\ (latest (dateRange (Response.summary body)) = "" <-> Response.files body = [])
    /\ (Response.files body <> [] ->
        (exists f, In f (Response.files body)
                   /\ earliest (dateRange (Response.summary body)) = File.date f)
        /\ (exists f, In f (Response.files body)
                      /\ latest (dateRange (Response.summary body)) = File.date f))
    /\ (forall f, In f (Response.files body) ->
          String.leb (earliest (dateRange (Response.summary body))) (File.date f) = true
          /\ String.leb (File.date f) (latest (dateRange (Response.summary body))) = true).
Proof.
  intros Hm Hs. eexists. split; [exact (GET_Json _ _ _ _ root Hm Hs)|].
  cbn [Response.files Response.summary].
  set (files := scanDirectory _ _ _ _).
  set (cmp := fun a b : File.t => localeCompare (File.fileName a) (File.fileName b)).
  pose proof (sort_by_perm cmp files) as Hp.
  assert (Hne : forall f, In f files -> File.date f <> "").
  { intros f Hf E. apply scan_date_length in Hf. rewrite E in Hf. discriminate Hf. }
  assert (Hto : forall f, In f (sort_by cmp files) -> In f files)
    by (intros f; apply Permutation_in; exact Hp).
  assert (Hfrom : forall f, In f files -> In f (sort_by cmp files))
    by (intros f; apply Permutation_in; symmetry; exact Hp).
  assert (Hnil : sort_by cmp files = [] <-> files = []).
  { split; intros E.
    - rewrite E in Hp. now apply Permutation_nil in Hp.
    - now rewrite E. }
  destruct (dateRange_bounds files Hne) as (Hempty & Hsome & Hall).
  assert (Hcase : files = [] \/ files <> []) by (destruct files; [now left | now right]).
  split; [intros f Hf; exact (Hne f (Hto f Hf))|].
  split; [|split; [|split]].
  - rewrite Hnil. split; [|intros E; exact (proj1 (Hempty E))].
    intros E. destruct Hcase as [|Hn]; [assumption|].
    destruct (Hsome Hn) as [(f & Hf & E') _]. rewrite E' in E. now apply Hne in Hf.
  - rewrite Hnil. split; [|intros E; exact (proj2 (Hempty E))].
    intros E. destruct Hcase as [|Hn]; [assumption|].
    destruct (Hsome Hn) as [_ (f & Hf & E')]. rewrite E' in E. now apply Hne in Hf.
  - intros Hn. assert (Hn' : files <> []) by (intros E; apply Hn; now apply Hnil).
    destruct (Hsome Hn') as [(f & Hf & E) (g & Hg & E')].
    split; [exists f | exists g]; auto.
  - intros f Hf. exact (Hall f (Hto f Hf)).
Qed.

Lemma X13_date_range_of_scan_witness :
  exists body,
    GET posix_join defaultCompare (Some "DATACO-1") (Some "DATACO-42")
        (Listing [readable_entry]) = Json body
    /\ (forall f, In f (Response.files body) -> File.date f <> "")
    /\ (earliest (dateRange (Response.summary body)) = "" <-> Response.files body = [])
    /\ (latest (dateRange (Response.summary body)) = "" <-> Response.files body = [])
    /\ (Response.files body <> [] ->
        (exists f, In f (Response.files body)
                   /\ earliest (dateRange (Response.summary body)) = File.date f)
        /\ (exists f, In f (Response.files body)
                      /\ latest (dateRange (Response.summary body)) = File.date f))
    /\ (forall f, In f (Response.files body) ->
          String.leb (earliest (dateRange (Response.summary body))) (File.date f) = true
          /\ String.leb (File.date f) (latest (dateRange (Response.summary body))) = true).
Proof.
  exact (X13_date_range_of_scan posix_join defaultCompare "DATACO-1" "DATACO-42"
           (Listing [readable_entry]) ltac:(discriminate) ltac:(discriminate)).
Defined.

(** X14.  The project folders of the reply are the names of the
    directories listed right under the root, each as often as it is listed
    and in ascending order of the code units, whatever the directories
    hold and whatever subtasks are asked for; files and other entries are
    not among them, and a root that is missing or cannot be listed gives
    none. *)
Theorem X14_project_folders (path_join : string -> string -> string)
        (localeCompare : string -> string -> Z)
        (mainTicket subtasksParam : string) (root : dir_state) :
  mainTicket <> "" -> subtasksParam <> "" ->
  exists body,
    GET path_join localeCompare (Some mainTicket) (Some subtasksParam) root = Json body
    /\ StronglySorted (fun a b => String.leb a b = true) (Response.projectFolders body)
    /\ (forall entries,
          root = Listing entries ->
          Permutation (Response.projectFolders body)
                      (flat_map (fun e => match e with
                                          | DirEntry name _ => [name]
                                          | _ => []
                                          end) entries)
          /\ forall name, In name (Response.projectFolders body)
                          <-> exists sub, In (DirEntry name sub) entries)
    /\ (root = Missing \/ root = Unreadable -> Response.projectFolders body = []).
Proof.
  intros Hm Hs. eexists. split; [exact (GET_Json _ _ _ _ root Hm Hs)|].
  cbn [Response.projectFolders]. split; [|split].
  - destruct root; cbn [projectFoldersOf]; try constructor.
    apply sort_by_defaultCompare_sorted.
  - intros entries ->. cbn [projectFoldersOf].
    set (names := flat_map _ entries).
    pose proof (sort_by_perm defaultCompare names) as Hp.
    split; [exact Hp|]. intros name. split.
    + intros H. apply (Permutation_in name Hp), in_flat_map in H as (e & He & Hn).
      destruct e as [n sub|n stat content|n]; [|destruct Hn..].
      destruct Hn as [<- | []]. eauto.
    + intros [sub H]. apply (Permutation_in name (Permutation_sym Hp)), in_flat_map.
      exists (DirEntry name sub). split; [exact H | now left].
  - intros [-> | ->]; reflexivity.
Qed.

Lemma X14_project_folders_witness :
  exists body,
    GET posix_join defaultCompare (Some "DATACO-1") (Some "DATACO-42")
        (Listing [DirEntry "b" Missing; readable_entry; DirEntry "a" Unreadable])
    = Json body
    /\ StronglySorted (fun a b => String.leb a b = true) (Response.projectFolders body)
    /\ (forall entries,
          Listing [DirEntry "b" Missing; readable_entry; DirEntry "a" Unreadable]
          = Listing entries ->
          Permutation (Response.projectFolders body)
                      (flat_map (fun e => match e with
                                          | DirEntry name _ => [name]
                                          | _ => []
                                          end) entries)
          /\ forall name, In name (Response.projectFolders body)
                          <-> exists sub, In (DirEntry name sub) entries)
    /\ (Listing [DirEntry "b" Missing; readable_entry; DirEntry "a" Unreadable] = Missing
        \/ Listing [DirEntry "b" Missing; readable_entry; DirEntry "a" Unreadable]
           = Unreadable ->
        Response.projectFolders body = []).
Proof.
  exact (X14_project_folders posix_join defaultCompare "DATACO-1" "DATACO-42"
           (Listing [DirEntry "b" Missing; readable_entry; DirEntry "a" Unreadable])
           ltac:(discriminate) ltac:(discriminate)).
Defined.

(* ===================================================================== *)
(** ** Further properties: the view of the page                         *)
(* ===================================================================== *)

Lemma guard_allows (selected : list string) (x : string) :
  (0 <? List.length selected)%nat && negb (includes selected x) = false
  <-> allows selected x.
Proof.
  unfold allows. destruct selected as [|a t]; [simpl; tauto|].
  cbn [List.length Nat.ltb Nat.leb andb].
  destruct (includes (a :: t) x) eqn:E; cbn [negb].
  - apply includes_In in E. split; auto.
  - split; [discriminate|]. intros [H | H]; [discriminate H|].
    apply includes_In in H. congruence.
Qed.

Lemma guard_allows_some (selected xs : list string) :
  (0 <? List.length selected)%nat && negb (existsb (includes selected) xs) = false
  <-> allows_some selected xs.
Proof.
  unfold allows_some. destruct selected as [|a t]; [simpl; tauto|].
  cbn [List.length Nat.ltb Nat.leb andb].
  destruct (existsb (includes (a :: t)) xs) eqn:E; cbn [negb].
  - apply existsb_exists in E as (x & Hx & Hi). apply includes_In in Hi.
    split; eauto.
  - split; [discriminate|]. intros [H | (x & Hx & Hi)]; [discriminate H|].
    assert (existsb (includes (a :: t)) xs = true).
    { apply existsb_exists. exists x. split; [exact Hx | now apply includes_In]. }
    congruence.
Qed.

(** The callback of the filter keeps a record exactly when the record
    passes every constraint that is not empty. *)
Lemma keeps_passes (filters : Filters.t) (f : File.t) :
  keeps filters f = true <-> passes filters f.
Proof.
  unfold passes.
  rewrite <- !guard_allows, <- !guard_allows_some. unfold keeps.
  destruct ((0 <? List.length (Filters.selectedSubtasks filters))%nat && _);
    [split; [discriminate | intros (H & _); discriminate H]|].
  destruct ((0 <? List.length (Filters.selectedProjects filters))%nat && _);
    [split; [discriminate | intros (_ & H & _); discriminate H]|].
  destruct ((0 <? List.length (Filters.selectedVehicles filters))%nat && _);
    [split; [discriminate | intros (_ & _ & H & _); discriminate H]|].
  destruct ((0 <? List.length (Filters.selectedEventTypes filters))%nat && _);
    [split; [discriminate | intros (_ & _ & _ & H & _); discriminate H]|].
  destruct ((0 <? List.length (Filters.selectedCameraTypes filters))%nat && _);
    [split; [discriminate | intros (_ & _ & _ & _ & H); discriminate H]|].
  tauto.
Qed.




Lemma sort_by_sorted_id {A : Type} (cmp : A -> A -> Z) (l : list A) :
  StronglySorted (not_after cmp) l -> sort_by cmp l = l.
Proof.
  induction 1 as [|x t Hs IH Hx]; simpl; [reflexivity|].
  rewrite IH. destruct t as [|y t']; simpl; [reflexivity|].
  inversion Hx as [|? ? Hxy _]; subst. unfold not_after in Hxy.
  destruct (Z.leb_spec (cmp x y) 0); [reflexivity | lia].
Qed.

Lemma view_of_view (cmp : File.t -> File.t -> Z) (p : File.t -> bool) (xs : list File.t) :
  consistent cmp ->
  sort_by cmp (List.filter p (sort_by cmp (List.filter p xs)))
  = sort_by cmp (List.filter p xs).
Proof.
  intros Hc. set (r := sort_by cmp (List.filter p xs)).
  assert (Hall : List.filter p r = r).
  { apply filter_all_In. intros f Hf.
    apply (Permutation_in f (sort_by_perm cmp (List.filter p xs))), filter_In in Hf.
    exact (proj2 Hf). }
  rewrite Hall. apply sort_by_sorted_id.
  exact (sort_by_sorted cmp (consistent_total cmp Hc) (proj2 Hc) _).
Qed.

(** X16.  The view is idempotent: computed again from its own result with
    the same filter state, it holds the same records in the same order. *)
Theorem X16_view_idempotent (localeCompare : string -> string -> Z)
        (h : gmap nat (list File.t)) (files : nat) (xs : list File.t)
        (filters : Filters.t) :
  consistent localeCompare ->
  h !! files = Some xs ->
  exists out h' result out2 h'',
    filteredFiles localeCompare (Some files) filters h = (out, h')
    /\ h' !! out = Some result
    /\ filteredFiles localeCompare (Some out) filters h' = (out2, h'')
    /\ out2 <> out
    /\ h'' !! out2 = Some result.
Proof.
  intros Hc Hf.
  destruct (filteredFiles_run localeCompare h files xs filters Hf) as [_ Hrun].
  set (result := sort_by (compareFiles localeCompare filters)
                         (List.filter (keeps filters) xs)) in *.
  set (out := fresh (dom h)) in *.
  set (h' := <[out := result]> (<[out := List.filter (keeps filters) xs]> h)) in *.
  assert (Hout : h' !! out = Some result) by apply lookup_insert_eq.
  destruct (filteredFiles_run localeCompare h' out result filters Hout) as [Hne Hrun2].
  exists out, h', result. do 2 eexists.
  split; [exact Hrun|]. split; [exact Hout|]. split; [exact Hrun2|].
  split; [exact Hne|]. rewrite lookup_insert_eq. f_equal.
  apply view_of_view. now apply compareFiles_consistent.
Qed.

Lemma X16_view_idempotent_witness :
  exists out h' result out2 h'',
    filteredFiles defaultCompare (Some 0%nat) (no_constraint "date" desc)
                  (<[0%nat := sample_files]> ∅)
    = (out, h')
    /\ h' !! out = Some result
    /\ filteredFiles defaultCompare (Some out) (no_constraint "date" desc) h'
       = (out2, h'')
    /\ out2 <> out
    /\ h'' !! out2 = Some result.
Proof.
  exact (X16_view_idempotent defaultCompare (<[0%nat := sample_files]> ∅) 0%nat
           sample_files (no_constraint "date" desc)
           defaultCompare_consistent (lookup_insert_eq ∅ 0%nat sample_files)).
Defined.

(* ===================================================================== *)
(** ** Further properties: the page and the file route together         *)
(* ===================================================================== *)

Lemma scan_ticket (path_join : string -> string -> string) (subtasks : list string)
      (d : dir_state) (dirPath : string) (f : File.t) :
  In f (scanDirectory path_join dirPath d subtasks) ->
  In (File.datacoNumber f) subtasks.
Proof.
  intros Hin.
  apply scan_records in Hin as (k & dir & stats & text & events & _ & Ht & _ & ->).
  exact Ht.
Qed.

Lemma summary_holds (files : list File.t) :
  (forall x, (exists f, In f files /\ File.project f = x)
             -> In x (uniqueProjects (summarize files)))
  /\ (forall x, (exists f, In f files /\ File.vehicle f = x)
                -> In x (uniqueVehicles (summarize files))).
Proof.
  cbn [summarize uniqueProjects uniqueVehicles]. split; intros x (f & Hf & <-).
  - apply (sorted_unique (map File.project files)), in_map, Hf.
  - apply (sorted_unique (map File.vehicle files)), in_map, Hf.
Qed.

(** X17.  A file search of the page that the route answers ends in the
    files view with the reply as file data and an empty error message.
    The filter state it sets keeps every file of the reply, so the first
    view is the reply's list of files, in the reply's order when the
    browser compares names as the server does; and Reset Filters sets the
    same filter state again. *)
Theorem X17_first_view (path_join : string -> string -> string)
        (localeCompare : string -> string -> Z) (root : dir_state)
        (st : Page.t) (ticketData : Ticket.t) :
  consistent localeCompare ->
  Page.ticketData st = Some ticketData ->
  Ticket.key ticketData <> "" ->
  subtasksParamOf ticketData <> "" ->
  exists data,
    handleSearchFiles (served_by path_join localeCompare root) st
    = {| Page.searchValue := Page.searchValue st;
         Page.viewState := View.files_results;
         Page.ticketData := Some ticketData;
         Page.fileData := Some data;
         Page.errorMessage := "";
         Page.filters := filtersAfterSearch data |}
    /\ (forall f, In f (Response.files data) -> keeps (filtersAfterSearch data) f = true)
    /\ sort_by (compareFiles localeCompare (filtersAfterSearch data))
               (List.filter (keeps (filtersAfterSearch data)) (Response.files data))
       = Response.files data
    /\ (forall options, filterOptions (Some data) = Some options ->
                        resetFilters options = filtersAfterSearch data).
Proof.
  intros Hc Ht Hk Hs. eexists. split.
  { unfold handleSearchFiles, served_by. rewrite Ht.
    rewrite (GET_Json _ _ _ _ root Hk Hs). cbv zeta. reflexivity. }
  set (files := scanDirectory _ _ _ _).
  set (cmp := fun a b : File.t => localeCompare (File.fileName a) (File.fileName b)).
  set (data := Response.Build _ _ _ _ _ _).
  change (Response.files data) with (sort_by cmp files).
  pose proof (consistent_on File.fileName localeCompare Hc) as Hcf. fold cmp in Hcf.
  assert (Hin : forall f, In f (sort_by cmp files) -> In f files)
    by (intros f; apply Permutation_in, sort_by_perm).
  assert (Hkeep : forall f, In f (sort_by cmp files) ->
                            keeps (filtersAfterSearch data) f = true).
  { intros f Hf%Hin. apply keeps_passes. unfold passes, allows, allows_some.
    cbn [filtersAfterSearch Filters.selectedSubtasks Filters.selectedProjects
         Filters.selectedVehicles Filters.selectedEventTypes
         Filters.selectedCameraTypes].
    destruct (summary_holds files) as (Hproj & Hveh).
    split; [right; subst data; cbn [Response.subtasks]|].
    { apply in_map_iff. exists (File.datacoNumber f). split; [reflexivity|].
      exact (scan_ticket _ _ _ _ f Hf). }
    split; [right; subst data; cbn [Response.summary]; apply Hproj; eauto|].
    split; [right; subst data; cbn [Response.summary]; apply Hveh; eauto|].
    split; now left. }
  split; [exact Hkeep|]. split.
  - rewrite (filter_all_In _ _ Hkeep).
    change (compareFiles localeCompare (filtersAfterSearch data)) with cmp.
    apply sort_by_sorted_id.
    exact (sort_by_sorted cmp (consistent_total cmp Hcf) (proj2 Hcf) files).
  - intros options [= <-]. reflexivity.
Qed.

Lemma X17_first_view_witness :
  exists data,
    handleSearchFiles (served_by posix_join defaultCompare (Listing [readable_entry]))
                      (showing example_ticket)
    = {| Page.searchValue := Page.searchValue (showing example_ticket);
         Page.viewState := View.files_results;
         Page.ticketData := Some example_ticket;
         Page.fileData := Some data;
         Page.errorMessage := "";
         Page.filters := filtersAfterSearch data |}
    /\ (forall f, In f (Response.files data) -> keeps (filtersAfterSearch data) f = true)
    /\ sort_by (compareFiles defaultCompare (filtersAfterSearch data))
               (List.filter (keeps (filtersAfterSearch data)) (Response.files data))
       = Response.files data
    /\ (forall options, filterOptions (Some data) = Some options ->
                        resetFilters options = filtersAfterSearch data).
Proof.
  exact (X17_first_view posix_join defaultCompare (Listing [readable_entry])
           (showing example_ticket) example_ticket defaultCompare_consistent
           eq_refl ltac:(discriminate) ltac:(vm_compute; discriminate)).
Defined.

Lemma toggled_In (checked : bool) (x : string) (selected : list string) (y : string) :
  In y (toggled checked x selected)
  <-> if checked then In y selected \/ y = x else In y selected /\ y <> x.
Proof.
  unfold toggled. destruct checked.
  - rewrite in_app_iff. simpl. intuition.
  - rewrite filter_In, negb_true_iff, String.eqb_neq. tauto.
Qed.

Lemma toggled_round_trip (x : string) (selected : list string) :
  ~ In x selected -> toggled false x (toggled true x selected) = selected.
Proof.
  intros Hn. unfold toggled. rewrite List.filter_app. simpl.
  rewrite String.eqb_refl. cbn [negb]. rewrite app_nil_r.
  apply filter_all_In. intros y Hy. apply negb_true_iff, String.eqb_neq.
  intros ->. contradiction.
Qed.

(** X18.  Checking a box and unchecking it again restores the filter
    state when the value was not selected before, for each of the four
    groups of boxes; and once a box is unchecked its value is not in the
    selection any more, however often it was in it. *)
Theorem X18_checkbox_round_trip (x : string) (prev : Filters.t) :
  (~ In x (Filters.selectedSubtasks prev) ->
   onSubtaskChecked x false (onSubtaskChecked x true prev) = prev)
  /\ (~ In x (Filters.selectedProjects prev) ->
      onProjectChecked x false (onProjectChecked x true prev) = prev)
  /\ (~ In x (Filters.selectedEventTypes prev) ->
      onEventChecked x false (onEventChecked x true prev) = prev)
  /\ (~ In x (Filters.selectedCameraTypes prev) ->
      onCameraChecked x false (onCameraChecked x true prev) = prev)
  /\ ~ In x (Filters.selectedSubtasks (onSubtaskChecked x false prev))
  /\ ~ In x (Filters.selectedProjects (onProjectChecked x false prev))
  /\ ~ In x (Filters.selectedEventTypes (onEventChecked x false prev))
  /\ ~ In x (Filters.selectedCameraTypes (onCameraChecked x false prev)).
Proof.
  destruct prev as [s e c p v d sb so].
  unfold onSubtaskChecked, onProjectChecked, onEventChecked, onCameraChecked.
  cbn [Filters.selectedSubtasks Filters.selectedEventTypes Filters.selectedCameraTypes
       Filters.selectedProjects Filters.selectedVehicles Filters.dateRange
       Filters.sortBy Filters.sortOrder].
  repeat split;
    try (intros Hn; now rewrite (toggled_round_trip x _ Hn));
    intros [_ H]%toggled_In; now apply H.
Qed.

Lemma X18_checkbox_round_trip_witness :
  onSubtaskChecked "DATACO-7" false
    (onSubtaskChecked "DATACO-7" true (only_projects ["P1"; "P2"]))
  = only_projects ["P1"; "P2"]
  /\ onProjectChecked "P3" false
       (onProjectChecked "P3" true (only_projects ["P1"; "P2"]))
     = only_projects ["P1"; "P2"].
Proof.
  destruct (X18_checkbox_round_trip "DATACO-7" (only_projects ["P1"; "P2"]))
    as (H1 & _).
  destruct (X18_checkbox_round_trip "P3" (only_projects ["P1"; "P2"]))
    as (_ & H2 & _).
  split; [apply H1 | apply H2]; simpl; intuition discriminate.
Defined.

Lemma includes_filter (x p : string) (selected : list string) :
  includes (List.filter (fun s => negb (String.eqb s p)) selected) x
  = includes selected x && negb (String.eqb x p).
Proof.
  apply Bool.eq_iff_eq_true.
  rewrite andb_true_iff, !includes_In, filter_In, !negb_true_iff, !String.eqb_neq.
  tauto.
Qed.

(** X19.  Unchecking a project while another project stays selected
    removes from the view exactly the records of that project: a record is
    kept afterwards when it was kept before and is not of that project. *)
Theorem X19_unchecking_a_project (p q : string) (prev : Filters.t) (f : File.t) :
  In q (Filters.selectedProjects prev) -> q <> p ->
  keeps (onProjectChecked p false prev) f
  = keeps prev f && negb (String.eqb (File.project f) p).
Proof.
  intros Hq Hne. unfold keeps, onProjectChecked.
  cbn [Filters.selectedSubtasks Filters.selectedEventTypes Filters.selectedCameraTypes
       Filters.selectedProjects Filters.selectedVehicles toggled].
  rewrite includes_filter.
  assert (H1 : (0 <? List.length (Filters.selectedProjects prev))%nat = true).
  { destruct (Filters.selectedProjects prev); [destruct Hq | reflexivity]. }
  assert (H2 : (0 <? List.length
                       (List.filter (fun s => negb (String.eqb s p))
                                    (Filters.selectedProjects prev)))%nat = true).
  { assert (Hin : In q (List.filter (fun s => negb (String.eqb s p))
                                    (Filters.selectedProjects prev))).
    { apply filter_In. split; [exact Hq|]. now apply negb_true_iff, String.eqb_neq. }
    destruct (List.filter _ _); [destruct Hin | reflexivity]. }
  rewrite H1, H2. clear H1 H2. cbn [andb].
  repeat match goal with
         | |- context [((0 <? ?n)%nat && negb ?b)%bool] =>
             let g := fresh "g" in
             set (g := ((0 <? n)%nat && negb b)%bool); clearbody g
         end.
  destruct (includes (Filters.selectedProjects prev) (File.project f));
    destruct (String.eqb (File.project f) p);
    repeat match goal with g : bool |- _ => destruct g end; reflexivity.
Qed.

Lemma X19_unchecking_a_project_witness :
  keeps (onProjectChecked "P1" false (only_projects ["P1"; "P2"]))
        (sample_file "a.jump" "P1" "01/02/2024" 0)
  = keeps (only_projects ["P1"; "P2"]) (sample_file "a.jump" "P1" "01/02/2024" 0)
    && negb (String.eqb (File.project (sample_file "a.jump" "P1" "01/02/2024" 0)) "P1").
Proof.
  exact (X19_unchecking_a_project "P1" "P2" (only_projects ["P1"; "P2"])
           (sample_file "a.jump" "P1" "01/02/2024" 0)
           ltac:(simpl; tauto) ltac:(discriminate)).
Defined.

(** X20.  Unchecking the last selected project does not hide the records
    of that project: the selection becomes empty, an empty selection is no
    constraint, and the view keeps the records of every project that pass
    the other constraints. *)
Theorem X20_unchecking_the_last_project (p : string) (prev : Filters.t) (f : File.t) :
  (forall q, In q (Filters.selectedProjects prev) -> q = p) ->
  onProjectChecked p false prev = without_projects prev
  /\ (keeps (onProjectChecked p false prev) f = true
      <-> allows (Filters.selectedSubtasks prev) ("DATACO-" +:+ File.datacoNumber f)
          /\ allows (Filters.selectedVehicles prev) (File.vehicle f)
          /\ allows_some (Filters.selectedEventTypes prev) (File.uniqueEvents f)
          /\ allows_some (Filters.selectedCameraTypes prev) (File.uniqueCameras f)).
Proof.
  intros Hall.
  assert (E : onProjectChecked p false prev = without_projects prev).
  { unfold onProjectChecked, without_projects, toggled. f_equal.
    destruct (List.filter _ _) as [|q t] eqn:Ef; [reflexivity|].
    assert (Hq : In q (List.filter (fun s => negb (String.eqb s p))
                                   (Filters.selectedProjects prev)))
      by (rewrite Ef; now left).
    apply filter_In in Hq as [Hq Hn]. apply negb_true_iff, String.eqb_neq in Hn.
    now apply Hall in Hq. }
  split; [exact E|]. rewrite E, keeps_passes. unfold passes, without_projects.
  cbn [Filters.selectedSubtasks Filters.selectedEventTypes Filters.selectedCameraTypes
       Filters.selectedProjects Filters.selectedVehicles].
  unfold allows at 2. tauto.
Qed.

Lemma X20_unchecking_the_last_project_witness :
  onProjectChecked "P1" false (only_projects ["P1"]) = without_projects (only_projects ["P1"])
  /\ (keeps (onProjectChecked "P1" false (only_projects ["P1"]))
            (sample_file "a.jump" "P1" "01/02/2024" 0) = true
      <-> allows (Filters.selectedSubtasks (only_projects ["P1"]))
                 ("DATACO-" +:+ File.datacoNumber (sample_file "a.jump" "P1" "01/02/2024" 0))
          /\ allows (Filters.selectedVehicles (only_projects ["P1"]))
                    (File.vehicle (sample_file "a.jump" "P1" "01/02/2024" 0))
          /\ allows_some (Filters.selectedEventTypes (only_projects ["P1"]))
                         (File.uniqueEvents (sample_file "a.jump" "P1" "01/02/2024" 0))
          /\ allows_some (Filters.selectedCameraTypes (only_projects ["P1"]))
                         (File.uniqueCameras (sample_file "a.jump" "P1" "01/02/2024" 0))).
Proof.
  exact (X20_unchecking_the_last_project "P1" (only_projects ["P1"])
           (sample_file "a.jump" "P1" "01/02/2024" 0)
           ltac:(simpl; intuition)).
Defined.

(** X21.  The file search of a ticket without subtasks always fails: the
    page sends an empty subtasks parameter, the route answers 400, and the
    page ends in the error view with the route's message, with its file
    data and filter state untouched. *)
Theorem X21_ticket_without_subtasks (path_join : string -> string -> string)
        (localeCompare : string -> string -> Z) (root : dir_state)
        (st : Page.t) (ticketData : Ticket.t) :
  Page.ticketData st = Some ticketData ->
  Ticket.subtasks ticketData = [] ->
  handleSearchFiles (served_by path_join localeCompare root) st
  = {| Page.searchValue := Page.searchValue st;
       Page.viewState := View.error;
       Page.ticketData := Some ticketData;
       Page.fileData := Page.fileData st;
       Page.errorMessage := "mainTicket and subtasks parameters are required";
       Page.filters := Page.filters st |}.
Proof.
  intros Ht Hs. unfold handleSearchFiles, served_by, subtasksParamOf, GET.
  rewrite Ht, Hs. cbn [map String.concat].
  destruct (String.eqb (Ticket.key ticketData) ""); reflexivity.
Qed.

Lemma X21_ticket_without_subtasks_witness :
  handleSearchFiles (served_by posix_join defaultCompare (Listing [readable_entry]))
                    (showing (Ticket.Build "DATACO-1" "Main" []))
  = {| Page.searchValue := Page.searchValue (showing (Ticket.Build "DATACO-1" "Main" []));
       Page.viewState := View.error;
       Page.ticketData := Some (Ticket.Build "DATACO-1" "Main" []);
       Page.fileData := Page.fileData (showing (Ticket.Build "DATACO-1" "Main" []));
       Page.errorMessage := "mainTicket and subtasks parameters are required";
       Page.filters := Page.filters (showing (Ticket.Build "DATACO-1" "Main" [])) |}.
Proof.
  exact (X21_ticket_without_subtasks posix_join defaultCompare (Listing [readable_entry])
           (showing (Ticket.Build "DATACO-1" "Main" [])) (Ticket.Build "DATACO-1" "Main" [])
           eq_refl eq_refl).
Defined.

Lemma split_go_no_sep (sep : ascii) (s : string) :
  (forall a b, s <> a +:+ String sep b) ->
  forall cur, split_go sep cur s = [cur +:+ s].
Proof.
  induction s as [|c t IH]; intros Hno cur; simpl.
  - now rewrite str_app_nil_r.
  - destruct (Ascii.eqb_spec c sep) as [->|Hc].
    + exfalso. exact (Hno "" t eq_refl).
    + rewrite IH by (intros a b ->; exact (Hno (String c a) b eq_refl)).
      now rewrite str_app_assoc.
Qed.

Lemma split_concat (keys : list string) :
  keys <> [] -> (forall k, In k keys -> ~ has_comma k) ->
  split "," (String.concat "," keys) = keys.
Proof.
  assert (Hone : forall k, ~ has_comma k -> split "," k = [k]).
  { intros k Hk. unfold split. rewrite split_go_no_sep; [reflexivity|].
    intros a b E. apply Hk. exists a, b. exact E. }
  induction keys as [|x t IH]; intros Hne Hno; [contradiction|].
  destruct t as [|y t'].
  - simpl. apply Hone, Hno. now left.
  - change (String.concat "," (x :: y :: t'))
      with (x +:+ String "," (String.concat "," (y :: t'))).
    rewrite split_app, Hone by (apply Hno; now left).
    rewrite IH; [reflexivity | discriminate | intros k Hk; apply Hno; now right].
Qed.

(** X22.  The subtask keys make the round trip through the query string:
    for a ticket with a key and at least one subtask, whose subtask keys
    start with DATACO- and hold no comma, the file search succeeds, the
    reply names the ticket, its subtasks are the keys of the ticket's
    subtasks in the same order, they are the subtasks selected in the
    filter state, and every file of the reply belongs to one of the
    ticket's subtasks. *)
Theorem X22_subtask_keys_round_trip (path_join : string -> string -> string)
        (localeCompare : string -> string -> Z) (root : dir_state)
        (st : Page.t) (ticketData : Ticket.t) :
  Page.ticketData st = Some ticketData ->
  Ticket.key ticketData <> "" ->
  Ticket.subtasks ticketData <> [] ->
  (forall s, In s (Ticket.subtasks ticketData) ->
             Str.startsWith "DATACO-" (Subtask.key s) = true
             /\ ~ has_comma (Subtask.key s)) ->
  exists data,
    Page.viewState (handleSearchFiles (served_by path_join localeCompare root) st)
    = View.files_results
    /\ Page.fileData (handleSearchFiles (served_by path_join localeCompare root) st)
       = Some data
    /\ Response.mainTicket data = Ticket.key ticketData
    /\ Response.subtasks data = map Subtask.key (Ticket.subtasks ticketData)
    /\ Filters.selectedSubtasks
         (Page.filters (handleSearchFiles (served_by path_join localeCompare root) st))
       = map Subtask.key (Ticket.subtasks ticketData)
    /\ (forall f, In f (Response.files data) ->
          exists s, In s (Ticket.subtasks ticketData)
                    /\ Subtask.key s = "DATACO-" +:+ File.datacoNumber f).
Proof.
  intros Ht Hk Hne Hkeys.
  set (keys := map Subtask.key (Ticket.subtasks ticketData)).
  assert (Hsplit : split "," (subtasksParamOf ticketData) = keys).
  { apply split_concat.
    - subst keys. destruct (Ticket.subtasks ticketData); [contradiction | discriminate].
    - intros k (s & <- & Hs)%in_map_iff. exact (proj2 (Hkeys s Hs)). }
  assert (Hparam : subtasksParamOf ticketData <> "").
  { intros E. rewrite E in Hsplit. subst keys.
    destruct (Ticket.subtasks ticketData) as [|s t] eqn:Es; [contradiction|].
    injection Hsplit as Hs _. destruct (Hkeys s) as [Hp _]; [now left|].
    rewrite <- Hs in Hp. discriminate Hp. }
  assert (Hprefix : forall k, In k keys -> exists r, k = "DATACO-" +:+ r).
  { intros k (s & <- & Hs)%in_map_iff. apply prefix_app. exact (proj1 (Hkeys s Hs)). }
  assert (Hecho : map (fun s => "DATACO-" +:+ s)
                      (normalizeSubtasks (subtasksParamOf ticketData)) = keys).
  { unfold normalizeSubtasks. rewrite Hsplit, map_map.
    rewrite <- (map_id keys) at 2. apply map_ext_on.
    intros k [r ->]%Hprefix. now rewrite replace_prefix. }
  set (subtasks := normalizeSubtasks (subtasksParamOf ticketData)) in *.
  set (files := scanDirectory path_join VOICE_TAGGING_PATH root subtasks).
  set (data := {| Response.mainTicket := Ticket.key ticketData;
                  Response.subtasks := map (fun s => "DATACO-" +:+ s) subtasks;
                  Response.totalFiles := Z.of_nat (List.length files);
                  Response.projectFolders := projectFoldersOf root;
                  Response.files :=
                    sort_by (fun a b => localeCompare (File.fileName a) (File.fileName b))
                            files;
                  Response.summary := summarize files |}).
  exists data.
  assert (Hrun : handleSearchFiles (served_by path_join localeCompare root) st
                 = {| Page.searchValue := Page.searchValue st;
                      Page.viewState := View.files_results;
                      Page.ticketData := Page.ticketData st;
                      Page.fileData := Some data;
                      Page.errorMessage := "";
                      Page.filters := filtersAfterSearch data |}).
  { unfold handleSearchFiles, served_by. rewrite Ht.
    rewrite (GET_Json _ _ _ _ root Hk Hparam). cbv zeta. reflexivity. }
  rewrite Hrun. subst data.
  cbn [Page.viewState Page.fileData Page.filters filtersAfterSearch
       Filters.selectedSubtasks Response.mainTicket Response.subtasks Response.files].
  split; [reflexivity|]. split; [reflexivity|]. split; [reflexivity|].
  split; [exact Hecho|]. split; [exact Hecho|].
  intros f Hf. apply (Permutation_in f (sort_by_perm _ _)), scan_ticket in Hf.
  assert (Hin : In ("DATACO-" +:+ File.datacoNumber f) keys).
  { rewrite <- Hecho. apply in_map. exact Hf. }
  subst keys. apply in_map_iff in Hin as (s & E & Hs). eauto.
Qed.

Lemma example_ticket_keys :
  forall s, In s (Ticket.subtasks example_ticket) ->
            Str.startsWith "DATACO-" (Subtask.key s) = true
            /\ ~ has_comma (Subtask.key s).
Proof.
  intros s [<- | []]. split; [reflexivity|].
  intros (a & b & E). cbn [Subtask.key] in E.
  do 9 (destruct a as [|? a]; simpl in E; [discriminate E | injection E as _ E]).
  destruct a; simpl in E; discriminate E.
Qed.

Lemma X22_subtask_keys_round_trip_witness :
  exists data,
    Page.viewState (handleSearchFiles
                      (served_by posix_join defaultCompare (Listing [readable_entry]))
                      (showing example_ticket))
    = View.files_results
    /\ Page.fileData (handleSearchFiles
                        (served_by posix_join defaultCompare (Listing [readable_entry]))
                        (showing example_ticket))
       = Some data
    /\ Response.mainTicket data = Ticket.key example_ticket
    /\ Response.subtasks data = map Subtask.key (Ticket.subtasks example_ticket)
    /\ Filters.selectedSubtasks
         (Page.filters (handleSearchFiles
                          (served_by posix_join defaultCompare (Listing [readable_entry]))
                          (showing example_ticket)))
       = map Subtask.key (Ticket.subtasks example_ticket)
    /\ (forall f, In f (Response.files data) ->
          exists s, In s (Ticket.subtasks example_ticket)
                    /\ Subtask.key s = "DATACO-" +:+ File.datacoNumber f).
Proof.
  exact (X22_subtask_keys_round_trip posix_join defaultCompare (Listing [readable_entry])
           (showing example_ticket) example_ticket eq_refl
           ltac:(discriminate) ltac:(discriminate) example_ticket_keys).
Defined.

(* ===================================================================== *)
(** ** Further properties: the ticket route                             *)
(* ===================================================================== *)

Lemma subtaskDetail_key (fetch : nat -> string -> string -> Jira.outcome)
      (baseUrl auth : string) (n : nat) (subtask : Jira.JiraSubtask) :
  Subtask.key (Jira.subtaskDetail fetch baseUrl auth n subtask) = Jira.st_key subtask
  /\ Subtask.summary (Jira.subtaskDetail fetch baseUrl auth n subtask) <> "".
Proof.
  unfold Jira.subtaskDetail.
  destruct (fetch n _ _) as [|status [subtaskData|]];
    [split; [reflexivity | discriminate]| |].
  - destruct (Jira.ok status); [|split; [reflexivity | discriminate]].
    split; [reflexivity|]. cbn [Subtask.summary].
    destruct (Jira.i_fields subtaskData) as [fields|]; [|discriminate].
    destruct (Jira.f_summary fields) as [s|]; [|discriminate].
    cbn [Jira.falsy Jira.interpolate].
    destruct (String.eqb_spec s "") as [->|Hne]; [discriminate | exact Hne].
  - destruct (Jira.ok status); split; try reflexivity; discriminate.
Qed.

Lemma map_from_details (fetch : nat -> string -> string -> Jira.outcome)
      (baseUrl auth : string) (subtasks : list Jira.JiraSubtask) :
  forall n,
    map Subtask.key (Jira.map_from (Jira.subtaskDetail fetch baseUrl auth) n subtasks)
    = map Jira.st_key subtasks
    /\ Forall (fun s => Subtask.summary s <> "")
              (Jira.map_from (Jira.subtaskDetail fetch baseUrl auth) n subtasks).
Proof.
  induction subtasks as [|x t IH]; intros n; simpl; [split; [reflexivity | constructor]|].
  destruct (IH (S n)) as [Hk Hs].
  destruct (subtaskDetail_key fetch baseUrl auth n x) as [Hk' Hs'].
  split; [now rewrite Hk, Hk' | now constructor].
Qed.

(** X23.  A ticket reply carries what the tracker sent for the ticket on
    the first call, and one subtask for every subtask of the issue, with
    the same keys in the same order, whatever the calls for the subtasks
    come to: a call that fails changes the summary of its subtask, and no
    summary is empty. *)
Theorem X23_subtasks_survive (env : Jira.Env) (base64 : string -> string)
        (fetch : nat -> string -> string -> Jira.outcome)
        (ticket : option string) (body : Jira.JiraResponse) :
  Jira.GET env base64 fetch ticket = Jira.Json body ->
  exists url authorization status jiraData fields,
    fetch 0%nat url authorization = Jira.HttpResponse status (Some jiraData)
    /\ Jira.ok status = true
    /\ Jira.i_fields jiraData = Some fields
    /\ Jira.r_key body = Jira.i_key jiraData
    /\ Jira.r_summary body = Jira.f_summary fields
    /\ map Subtask.key (Jira.r_subtasks body)
       = map Jira.st_key (default [] (Jira.f_subtasks fields))
    /\ Forall (fun s => Subtask.summary s <> "") (Jira.r_subtasks body).
Proof.
  unfold Jira.GET. intros H. destruct ticket as [ticketNumber|]; [|discriminate H].
  destruct (String.eqb ticketNumber ""); [discriminate H|].
  destruct (_ || _); [discriminate H|].
  match type of H with
  | context [fetch 0%nat ?u ?a] =>
      exists u, a; destruct (fetch 0%nat u a) as [|status body'] eqn:Ef
  end; [discriminate H|].
  destruct (Jira.ok status) eqn:Eok; cbn [negb] in H;
    [|destruct (status =? 404)%nat; discriminate H].
  destruct body' as [jiraData|]; [|discriminate H].
  destruct (Jira.i_fields jiraData) as [fields|] eqn:Ei; [|discriminate H].
  injection H as <-. exists status, jiraData, fields.
  cbn [Jira.r_key Jira.r_summary Jira.r_subtasks].
  split; [reflexivity|]. split; [exact Eok|]. split; [exact Ei|].
  split; [reflexivity|]. split; [reflexivity|].
  destruct (Jira.f_subtasks fields) as [subtasks|]; cbn [default];
    apply map_from_details.
Qed.

Lemma X23_subtasks_survive_witness :
  exists url authorization status jiraData fields,
    example_fetch 0%nat url authorization = Jira.HttpResponse status (Some jiraData)
    /\ Jira.ok status = true
    /\ Jira.i_fields jiraData = Some fields
    /\ Jira.r_key example_reply = Jira.i_key jiraData
    /\ Jira.r_summary example_reply = Jira.f_summary fields
    /\ map Subtask.key (Jira.r_subtasks example_reply)
       = map Jira.st_key (default [] (Jira.f_subtasks fields))
    /\ Forall (fun s => Subtask.summary s <> "") (Jira.r_subtasks example_reply).
Proof.
  exact (X23_subtasks_survive example_env plain example_fetch (Some "1") example_reply
           ltac:(vm_compute; reflexivity)).
Defined.

(** X24.  The error replies of the ticket route, in the order in which
    the handler decides: 400 for a ticket parameter that is absent or
    empty, whatever is configured; 500 for a base URL, user or token that
    is not configured; 404 when the tracker answers the first call with
    404; and 500 when the first call fails in any other way.  No other
    error reply exists, and what the calls for the subtasks come to never
    makes one. *)
Theorem X24_error_replies (env : Jira.Env) (base64 : string -> string)
        (fetch : nat -> string -> string -> Jira.outcome)
        (ticket : option string) (status : nat) (error : string) :
  Jira.GET env base64 fetch ticket = Jira.Error status error ->
  (status = 400%nat /\ error = "Ticket number is required"
   /\ Jira.falsy ticket = true)
  \/ (status = 500%nat /\ error = "JIRA credentials not configured"
      /\ Jira.falsy ticket = false
      /\ (Jira.falsy (Jira.JIRA_BASE_URL env) = true
          \/ Jira.falsy (Jira.JIRA_USER env) = true
          \/ Jira.falsy (Jira.JIRA_API_TOKEN env) = true))
  \/ (Jira.falsy ticket = false
      /\ Jira.falsy (Jira.JIRA_BASE_URL env) = false
      /\ Jira.falsy (Jira.JIRA_USER env) = false
      /\ Jira.falsy (Jira.JIRA_API_TOKEN env) = false
      /\ exists url authorization,
          (status = 404%nat /\ error = "Ticket not found"
           /\ exists body, fetch 0%nat url authorization = Jira.HttpResponse 404 body)
          \/ (status = 500%nat /\ error = "Failed to fetch JIRA data"
              /\ (fetch 0%nat url authorization = Jira.NetworkError
                  \/ (exists code body,
                         fetch 0%nat url authorization = Jira.HttpResponse code body
                         /\ Jira.ok code = false /\ code <> 404%nat)
                  \/ (exists code,
                         fetch 0%nat url authorization = Jira.HttpResponse code None
                         /\ Jira.ok code = true)
                  \/ (exists code jiraData,
                         fetch 0%nat url authorization
                         = Jira.HttpResponse code (Some jiraData)
                         /\ Jira.ok code = true
                         /\ Jira.i_fields jiraData = None)))).
Proof.
  unfold Jira.GET. destruct ticket as [ticketNumber|];
    [|intros [= <- <-]; left; auto].
  cbn [Jira.falsy].
  destruct (String.eqb ticketNumber ""); [intros [= <- <-]; left; auto|].
  destruct (Jira.falsy (Jira.JIRA_BASE_URL env)) eqn:Eb;
    [intros [= <- <-]; right; left; auto 10|].
  destruct (Jira.falsy (Jira.JIRA_USER env)) eqn:Eu;
    [intros [= <- <-]; right; left; auto 10|].
  destruct (Jira.falsy (Jira.JIRA_API_TOKEN env)) eqn:Et;
    [intros [= <- <-]; right; left; auto 10|].
  cbn [orb]. intros H. right; right. do 4 (split; [reflexivity|]).
  match type of H with
  | context [fetch 0%nat ?u ?a] =>
      exists u, a; destruct (fetch 0%nat u a) as [|code body] eqn:Ef
  end.
  - injection H as <- <-. right. auto.
  - destruct (Jira.ok code) eqn:Eok; cbn [negb] in H.
    + destruct body as [jiraData|].
      * destruct (Jira.i_fields jiraData) as [fields|] eqn:Ei; [discriminate H|].
        injection H as <- <-. right. split; [reflexivity|]. split; [reflexivity|].
        right; right; right. eauto.
      * injection H as <- <-. right. split; [reflexivity|]. split; [reflexivity|].
        right; right; left. eauto.
    + destruct (Nat.eqb_spec code 404) as [->|Hne]; injection H as <- <-.
      * left. eauto.
      * right. split; [reflexivity|]. split; [reflexivity|]. right; left. eauto.
Qed.

Lemma X24_error_replies_witness :
  (500%nat = 400%nat /\ "JIRA credentials not configured" = "Ticket number is required"
   /\ Jira.falsy (Some "1") = true)
  \/ (500%nat = 500%nat
      /\ "JIRA credentials not configured" = "JIRA credentials not configured"
      /\ Jira.falsy (Some "1") = false
      /\ (Jira.falsy (Jira.JIRA_BASE_URL env_without_token) = true
          \/ Jira.falsy (Jira.JIRA_USER env_without_token) = true
          \/ Jira.falsy (Jira.JIRA_API_TOKEN env_without_token) = true))
  \/ (Jira.falsy (Some "1") = false
      /\ Jira.falsy (Jira.JIRA_BASE_URL env_without_token) = false
      /\ Jira.falsy (Jira.JIRA_USER env_without_token) = false
      /\ Jira.falsy (Jira.JIRA_API_TOKEN env_without_token) = false
      /\ exists url authorization,
          (500%nat = 404%nat /\ "JIRA credentials not configured" = "Ticket not found"
           /\ exists body,
               example_fetch 0%nat url authorization = Jira.HttpResponse 404 body)
          \/ (500%nat = 500%nat
              /\ "JIRA credentials not configured" = "Failed to fetch JIRA data"
              /\ (example_fetch 0%nat url authorization = Jira.NetworkError
                  \/ (exists code body,
                         example_fetch 0%nat url authorization
                         = Jira.HttpResponse code body
                         /\ Jira.ok code = false /\ code <> 404%nat)
                  \/ (exists code,
                         example_fetch 0%nat url authorization
                         = Jira.HttpResponse code None
                         /\ Jira.ok code = true)
                  \/ (exists code jiraData,
                         example_fetch 0%nat url authorization
                         = Jira.HttpResponse code (Some jiraData)
                         /\ Jira.ok code = true
                         /\ Jira.i_fields jiraData = None)))).
Proof.
  exact (X24_error_replies env_without_token plain example_fetch (Some "1") 500%nat
           "JIRA credentials not configured" eq_refl).
Defined.

(** X25.  The completion of the ticket number: with DATACO as the
    configured project key, a ticket number without the prefix is answered
    exactly as the same number with DATACO- in front, whatever the tracker
    does. *)
Theorem X25_ticket_number_completion (env : Jira.Env) (base64 : string -> string)
        (fetch : nat -> string -> string -> Jira.outcome) (ticketNumber : string) :
  Jira.JIRA_PROJECT_KEY env = Some "DATACO" ->
  ticketNumber <> "" ->
  Str.startsWith "DATACO-" ticketNumber = false ->
  Jira.GET env base64 fetch (Some ticketNumber)
  = Jira.GET env base64 fetch (Some ("DATACO-" +:+ ticketNumber)).
Proof.
  intros Hkey Hne Hp. unfold Jira.GET. rewrite Hkey, Hp.
  assert (Hfull : Str.startsWith "DATACO-" ("DATACO-" +:+ ticketNumber) = true)
    by (apply prefix_app; eauto).
  rewrite Hfull.
  destruct (String.eqb_spec ticketNumber "") as [|_]; [contradiction|].
  reflexivity.
Qed.

Lemma X25_ticket_number_completion_witness :
  Jira.GET example_env plain example_fetch (Some "1")
  = Jira.GET example_env plain example_fetch (Some ("DATACO-" +:+ "1")).
Proof.
  exact (X25_ticket_number_completion example_env plain example_fetch "1"
           eq_refl ltac:(discriminate) eq_refl).
Defined.
